(** * Ascent blueprint architect: index arithmetic, locations and field reductions

    A shallow embedding of [ascent_blueprint_architect.cpp].

    Conventions of the embedding.
    - A C++ [int] is a [Z]; [/] and [%] on ints are [Z.quot] and [Z.rem]
      (truncation toward zero).  The products of grid extents, which are
      where an int leaves its range on a large mesh, are written with the
      32-bit wrap-around [wrap_int] ([logical_index_3d], [num_points],
      [num_cells]); the properties about them carry the range of the
      extents as a hypothesis.  Offsets and sums of indices stay in [Z].
    - A C++ [double] is an exact rational [Q]: rounding is abstracted, and
      a division whose divisor is zero (an inf or a NaN in IEEE arithmetic)
      is the error [NotFinite].  Equalities between doubles are stated with
      [==] on [Q].
    - A [conduit::Node] is a string-keyed ordered tree [Node]; a path such as
      ["fields/" + name + "/values"] is the list of its components.
    - [ASCENT_ERROR], a failed conduit lookup, a read outside an array and
      an allocation of negative length are the constructors of [error];
      fallible functions return [result].
    - The reductions are given for the serial build; [field_histogram] is
      also given for the MPI build, over the datasets of the workers in rank
      order, where the memory of a double is its IEEE 754 binary64 word. *)

From Stdlib Require Import List String ZArith QArith Qabs Qround Lqa Lia Bool Sorted.
Import ListNotations.

Set Warnings "-register-all".

Local Open Scope Z_scope.

(* ------------------------------------------------------------------ *)
(** ** Errors *)

Inductive error : Type :=
| AscentError (msg : string)   (* ASCENT_ERROR(...) *)
| ConduitError                 (* missing path, bad child index, wrong dtype *)
| OutOfBounds                  (* array read outside its extent *)
| NotFinite                    (* x / 0 on doubles *)
| DivByZero                    (* x / 0 or x % 0 on ints *)
| BadArrayLength.              (* new T[n] with a negative n *)

Inductive result (A : Type) : Type :=
| Ok (a : A)
| Err (e : error).

Arguments Ok {A} a.
Arguments Err {A} e.

Definition bind {A B : Type} (m : result A) (k : A -> result B) : result B :=
  match m with
  | Ok a => k a
  | Err e => Err e
  end.

Notation "x <- m ;; k" := (bind m (fun x => k))
  (at level 61, m at next level, right associativity).
Notation "' p <- m ;; k" := (bind m (fun x => match x with p => k end))
  (at level 61, p pattern, m at next level, right associativity).

Definition is_ok {A : Type} (m : result A) : bool :=
  match m with Ok _ => true | Err _ => false end.

(* ------------------------------------------------------------------ *)
(** ** Doubles as rationals *)

Definition Qltb (x y : Q) : bool := negb (Qle_bool y x).

(** [x / y] on doubles. *)
Definition ddiv (x y : Q) : result Q :=
  if Qeq_bool y 0 then Err NotFinite else Ok (x / y)%Q.

(** [std::numeric_limits<double>::max()] and [lowest()]. *)
Definition DBL_MAX : Q := inject_Z (2 ^ 1024 - 2 ^ 971).
Definition DBL_LOWEST : Q := (- DBL_MAX)%Q.

(** An int converted to double. *)
Definition to_double (z : Z) : Q := inject_Z z.

(* ------------------------------------------------------------------ *)
(** ** Arrays *)

(** [a[i]] with an int index. *)
Definition array_get {A : Type} (a : list A) (i : Z) : result A :=
  if i <? 0 then Err OutOfBounds
  else match nth_error a (Z.to_nat i) with
       | Some x => Ok x
       | None => Err OutOfBounds
       end.

(* ------------------------------------------------------------------ *)
(** ** conduit::Node *)

Inductive Node : Type :=
| Empty
| Object (children : list (string * Node))
| Str (s : string)
| Int32 (a : list Z)
| Int64 (a : list Z)
| Float32 (a : list Q)
| Float64 (a : list Q).

Definition path := list string.

Fixpoint lookup (k : string) (cs : list (string * Node)) : option Node :=
  match cs with
  | [] => None
  | (k', n) :: cs' => if String.eqb k k' then Some n else lookup k cs'
  end.

Definition has_child (n : Node) (k : string) : bool :=
  match n with
  | Object cs => match lookup k cs with Some _ => true | None => false end
  | _ => false
  end.

(** [n[p]] on a const node: the lookup of a missing path is a conduit error. *)
Fixpoint fetch (n : Node) (p : path) : result Node :=
  match p with
  | [] => Ok n
  | k :: p' =>
      match n with
      | Object cs =>
          match lookup k cs with
          | Some c => fetch c p'
          | None => Err ConduitError
          end
      | _ => Err ConduitError
      end
  end.

Definition has_path (n : Node) (p : path) : bool := is_ok (fetch n p).

Definition number_of_children (n : Node) : Z :=
  match n with
  | Object cs => Z.of_nat (List.length cs)
  | _ => 0
  end.

Definition children (n : Node) : list (string * Node) :=
  match n with
  | Object cs => cs
  | _ => []
  end.

(** [n.child(i)]; an index outside the children is an error. *)
Definition child (n : Node) (i : Z) : result Node :=
  if i <? 0 then Err ConduitError
  else match nth_error (children n) (Z.to_nat i) with
       | Some (_, c) => Ok c
       | None => Err ConduitError
       end.

Definition as_string (n : Node) : result string :=
  match n with
  | Str s => Ok s
  | _ => Err ConduitError
  end.

Definition as_int32 (n : Node) : result Z :=
  match n with
  | Int32 (z :: _) => Ok z
  | _ => Err ConduitError
  end.

(** Truncation of a double toward zero. *)
Definition Qtrunc (q : Q) : Z := Z.quot (Qnum q) (Zpos (Qden q)).

(** [to_int()], [to_int32()]: any numeric leaf converts. *)
Definition to_int (n : Node) : result Z :=
  match n with
  | Int32 (z :: _) | Int64 (z :: _) => Ok z
  | Float32 (q :: _) | Float64 (q :: _) => Ok (Qtrunc q)
  | _ => Err ConduitError
  end.

(** [to_float64()]. *)
Definition to_float64 (n : Node) : result Q :=
  match n with
  | Int32 (z :: _) | Int64 (z :: _) => Ok (to_double z)
  | Float32 (q :: _) | Float64 (q :: _) => Ok q
  | _ => Err ConduitError
  end.

Definition is_float32 (n : Node) : bool :=
  match n with Float32 _ => true | _ => false end.

Definition is_float64 (n : Node) : bool :=
  match n with Float64 _ => true | _ => false end.

(** [dtype().number_of_elements()]. *)
Definition number_of_elements (n : Node) : Z :=
  match n with
  | Int32 a | Int64 a => Z.of_nat (List.length a)
  | Float32 a | Float64 a => Z.of_nat (List.length a)
  | Str _ => 1
  | _ => 0
  end.

(** [conduit::float64_array a = n.value()]. *)
Definition float64_array (n : Node) : result (list Q) :=
  match n with
  | Float64 a => Ok a
  | _ => Err ConduitError
  end.

Definition float32_array (n : Node) : result (list Q) :=
  match n with
  | Float32 a => Ok a
  | _ => Err ConduitError
  end.

Definition int32_array (n : Node) : result (list Z) :=
  match n with
  | Int32 a => Ok a
  | _ => Err ConduitError
  end.

(* ------------------------------------------------------------------ *)
(** ** detail: index arithmetic *)

(** An [int[3]]. *)
Record int3 : Type := mk3 { at0 : Z; at1 : Z; at2 : Z }.

(** A [double[3]]. *)
Record vec3 : Type := mkv { vx : Q; vy : Q; vz : Q }.

(** [std::numeric_limits<int>::max()]. *)
Definition INT_MAX : Z := 2 ^ 31 - 1.

(** The int that a 32-bit two's complement machine keeps of [z]. *)
Definition wrap_int (z : Z) : Z := (z + 2 ^ 31) mod 2 ^ 32 - 2 ^ 31.

(** [a * b] on ints. *)
Definition int_mul (a b : Z) : Z := wrap_int (a * b).

Definition int_div (a b : Z) : result Z :=
  if b =? 0 then Err DivByZero else Ok (Z.quot a b).

Definition int_mod (a b : Z) : result Z :=
  if b =? 0 then Err DivByZero else Ok (Z.rem a b).

Definition get_num_indices (shape_type : string) : result Z :=
  if String.eqb shape_type "tri" then Ok 3
  else if String.eqb shape_type "quad" then Ok 4
  else if String.eqb shape_type "tet" then Ok 4
  else if String.eqb shape_type "hex" then Ok 8
  else if String.eqb shape_type "point" then Ok 1
  else Err (AscentError "Unsupported element type").

(** [idx] is the caller's array; only entries 0 and 1 are written. *)
Definition logical_index_2d (idx : int3) (vert_index : Z) (dims : int3)
  : result int3 :=
  i0 <- int_mod vert_index (at0 dims) ;;
  i1 <- int_div vert_index (at0 dims) ;;
  Ok (mk3 i0 i1 (at2 idx)).

Definition logical_index_3d (idx : int3) (vert_index : Z) (dims : int3)
  : result int3 :=
  i0 <- int_mod vert_index (at0 dims) ;;
  q <- int_div vert_index (at0 dims) ;;
  i1 <- int_mod q (at1 dims) ;;
  i2 <- int_div vert_index (int_mul (at0 dims) (at1 dims)) ;;
  Ok (mk3 i0 i1 i2).

Definition zero3 : int3 := mk3 0 0 0.

(* ------------------------------------------------------------------ *)
(** ** Loops and lookups shared by the translations *)

(** A loop body run over a list of iterates, stopping at the first error. *)
Fixpoint foldM {A S : Type} (f : S -> A -> result S) (l : list A) (s : S)
  : result S :=
  match l with
  | [] => Ok s
  | a :: l' => s' <- f s a ;; foldM f l' s'
  end.

(** A loop that fills one array entry per iterate, in order. *)
Fixpoint mapM {A B : Type} (f : A -> result B) (l : list A)
  : result (list B) :=
  match l with
  | [] => Ok []
  | a :: l' => b <- f a ;; bs <- mapM f l' ;; Ok (b :: bs)
  end.

(** The iterates of [for(int i = 0; i < n; ++i)]. *)
Definition range (n : Z) : list Z := map Z.of_nat (seq 0 (Z.to_nat n)).

Definition fetch_string (n : Node) (p : path) : result string :=
  c <- fetch n p ;; as_string c.

Definition fetch_int (n : Node) (p : path) : result Z :=
  c <- fetch n p ;; to_int c.

Definition fetch_float64 (n : Node) (p : path) : result Q :=
  c <- fetch n p ;; to_float64 c.

(** [std::vector<int>::resize(n)]: truncate, or pad with zeros. *)
Definition resize (n : Z) (v : list Z) : list Z :=
  firstn (Z.to_nat n) v ++ repeat 0 (Z.to_nat n - List.length v).

(* ------------------------------------------------------------------ *)
(** ** detail::UniformCoords *)

Record UniformCoords : Type := mkUniformCoords {
  m_origin : vec3;
  m_spacing : vec3;
  m_dims : int3;
  m_is_2d : bool
}.

Definition populate (n_coords : Node) : result UniformCoords :=
  n_dims <- fetch n_coords ["dims"%string] ;;
  d0 <- fetch_int n_dims ["i"%string] ;;
  d1 <- fetch_int n_dims ["j"%string] ;;
  '(d2, is_2d) <- (if has_path n_dims ["k"%string]
                   then k <- fetch_int n_dims ["k"%string] ;; Ok (k, false)
                   else Ok (1, true)) ;;
  n_origin <- fetch n_coords ["origin"%string] ;;
  ox <- fetch_float64 n_origin ["x"%string] ;;
  oy <- fetch_float64 n_origin ["y"%string] ;;
  oz <- (if has_child n_origin "z"
         then fetch_float64 n_origin ["z"%string]
         else Ok 0%Q) ;;
  n_spacing <- fetch n_coords ["spacing"%string] ;;
  sx <- fetch_float64 n_spacing ["dx"%string] ;;
  sy <- fetch_float64 n_spacing ["dy"%string] ;;
  sz <- (if has_path n_spacing ["dz"%string]
         then fetch_float64 n_spacing ["dz"%string]
         else Ok 1%Q) ;;
  Ok (mkUniformCoords (mkv ox oy oz) (mkv sx sy sz) (mk3 d0 d1 d2) is_2d).

(* ------------------------------------------------------------------ *)
(** ** detail::get_element_indices *)

(** [indices] is the caller's vector, passed by reference. *)
Definition get_element_indices (n_topo : Node) (index : Z) (indices : list Z)
  : result (list Z) :=
  mesh_type <- fetch_string n_topo ["type"%string] ;;
  if String.eqb mesh_type "unstructured" then
    (* supports only single element type *)
    n_topo_eles <- fetch n_topo ["elements"%string] ;;
    ele_shape <- fetch_string n_topo_eles ["shape"%string] ;;
    num_indices <- get_num_indices ele_shape ;;
    let indices := resize num_indices indices in
    n_topo_conn <- fetch n_topo_eles ["connectivity"%string] ;;
    conn_a <- int32_array n_topo_conn ;;
    let offset := index * num_indices in
    foldM (fun indices i =>
             c <- array_get conn_a (offset + i) ;;
             Ok (indices ++ [c]))        (* push_back *)
          (range num_indices) indices
  else
    i <- fetch_int n_topo ["elements"; "dims"; "i"]%string ;;
    j <- fetch_int n_topo ["elements"; "dims"; "j"]%string ;;
    let vd0 := i + 1 in
    let vd1 := j + 1 in
    '(vd2, is_2d) <- (if has_path n_topo ["elements"; "dims"; "j"]%string
                      then k <- fetch_int n_topo ["elements"; "dims"; "k"]%string ;;
                           Ok (k + 1, false)
                      else Ok (0, true)) ;;
    let element_dims := mk3 (vd0 - 1) (vd1 - 1) (vd2 - 1) in
    if is_2d then
      element_index <- logical_index_2d zero3 index element_dims ;;
      let i0 := at1 element_index * vd0 + at0 element_index in
      let i1 := i0 + 1 in
      let i2 := i1 + vd0 in
      let i3 := i2 - 1 in
      Ok [i0; i1; i2; i3]
    else
      element_index <- logical_index_3d zero3 index element_dims ;;
      let i0 := (at2 element_index * vd1 + at1 element_index) * vd0
                + at0 element_index in
      let i1 := i0 + 1 in
      let i2 := i1 + vd1 in
      let i3 := i2 - 1 in
      let i4 := i0 + vd0 * vd2 in
      let i5 := i4 + 1 in
      let i6 := i5 + vd1 in
      let i7 := i6 - 1 in
      Ok [i0; i1; i2; i3; i4; i5; i6; i7].

(* ------------------------------------------------------------------ *)
(** ** detail: vertex locations *)

Definition vadd3 (o : vec3) (l : int3) (s : vec3) : vec3 :=
  mkv (vx o + to_double (at0 l) * vx s)%Q
      (vy o + to_double (at1 l) * vy s)%Q
      (vz o + to_double (at2 l) * vz s)%Q.

Definition get_uniform_vert (n_coords : Node) (index : Z) : result vec3 :=
  coords <- populate n_coords ;;
  logical_index <- (if m_is_2d coords
                    then logical_index_2d zero3 index (m_dims coords)
                    else logical_index_3d zero3 index (m_dims coords)) ;;
  Ok (vadd3 (m_origin coords) logical_index (m_spacing coords)).

(** The coordinate array at [p], read with the element type of [values/x]. *)
Definition coord_array (is_f64 : bool) (n_coords : Node) (p : path)
  : result (list Q) :=
  c <- fetch n_coords p ;;
  if is_f64 then float64_array c else float32_array c.

Definition get_explicit_vert (n_coords : Node) (index : Z) : result vec3 :=
  nx <- fetch n_coords ["values"; "x"]%string ;;
  let is_f64 := negb (is_float32 nx) in
  x_a <- coord_array is_f64 n_coords ["values"; "x"]%string ;;
  y_a <- coord_array is_f64 n_coords ["values"; "y"]%string ;;
  z_a <- coord_array is_f64 n_coords ["values"; "z"]%string ;;
  x <- array_get x_a index ;;
  y <- array_get y_a index ;;
  z <- array_get z_a index ;;
  Ok (mkv x y z).

(** The [dims] that the rectilinear functions read from the array lengths. *)
Definition rectilinear_dims (n_coords : Node) : result int3 :=
  nx <- fetch n_coords ["values"; "x"]%string ;;
  ny <- fetch n_coords ["values"; "y"]%string ;;
  d2 <- (if has_path n_coords ["values"; "z"]%string
         then nz <- fetch n_coords ["values"; "z"]%string ;;
              Ok (number_of_elements nz)
         else Ok 0) ;;
  Ok (mk3 (number_of_elements nx) (number_of_elements ny) d2).

Definition get_rectilinear_vert (n_coords : Node) (index : Z) : result vec3 :=
  dims <- rectilinear_dims n_coords ;;
  nx <- fetch n_coords ["values"; "x"]%string ;;
  let is_f64 := negb (is_float32 nx) in
  logical_index <- (if at2 dims =? 0
                    then logical_index_2d zero3 index dims
                    else logical_index_3d zero3 index dims) ;;
  x_a <- coord_array is_f64 n_coords ["values"; "x"]%string ;;
  y_a <- coord_array is_f64 n_coords ["values"; "y"]%string ;;
  x <- array_get x_a (at0 logical_index) ;;
  y <- array_get y_a (at1 logical_index) ;;
  z <- (if negb (at2 dims =? 0)
        then z_a <- coord_array is_f64 n_coords ["values"; "z"]%string ;;
             array_get z_a (at2 logical_index)
        else Ok 0%Q) ;;
  Ok (mkv x y z).

(* ------------------------------------------------------------------ *)
(** ** detail: element locations *)

Definition half : Q := 1 # 2.

Definition get_uniform_element (n_coords : Node) (index : Z) : result vec3 :=
  coords <- populate n_coords ;;
  let d := m_dims coords in
  let element_dims := mk3 (at0 d - 1) (at1 d - 1) (at2 d - 1) in
  logical_index <- (if m_is_2d coords
                    then logical_index_2d zero3 index element_dims
                    else logical_index_3d zero3 index element_dims) ;;
  (* element logical index will be the lower left point index *)
  let o := m_origin coords in
  let s := m_spacing coords in
  Ok (mkv (vx o + to_double (at0 logical_index) * vx s + vx s * half)%Q
          (vy o + to_double (at1 logical_index) * vy s + vy s * half)%Q
          (vz o + to_double (at2 logical_index) * vz s + vz s * half)%Q).

(** [(a[i] + a[i + 1]) * 0.5]. *)
Definition mid_point (a : list Q) (i : Z) : result Q :=
  lo <- array_get a i ;;
  hi <- array_get a (i + 1) ;;
  Ok ((lo + hi) * half)%Q.

Definition get_rectilinear_element (n_coords : Node) (index : Z)
  : result vec3 :=
  dims <- rectilinear_dims n_coords ;;
  nx <- fetch n_coords ["values"; "x"]%string ;;
  let is_f64 := negb (is_float32 nx) in
  let element_dims := mk3 (at0 dims - 1) (at1 dims - 1) (at2 dims - 1) in
  logical_index <- (if at2 dims =? 0
                    then logical_index_2d zero3 index element_dims
                    else logical_index_3d zero3 index element_dims) ;;
  x_a <- coord_array is_f64 n_coords ["values"; "x"]%string ;;
  y_a <- coord_array is_f64 n_coords ["values"; "y"]%string ;;
  x <- mid_point x_a (at0 logical_index) ;;
  y <- mid_point y_a (at1 logical_index) ;;
  z <- (if negb (at2 dims =? 0)
        then z_a <- coord_array is_f64 n_coords ["values"; "z"]%string ;;
             mid_point z_a (at2 logical_index)
        else Ok 0%Q) ;;
  Ok (mkv x y z).

Definition vzero : vec3 := mkv 0 0 0.

Definition vplus (a b : vec3) : vec3 :=
  mkv (vx a + vx b)%Q (vy a + vy b)%Q (vz a + vz b)%Q.

Definition get_explicit_element (n_coords n_topo : Node) (index : Z)
  : result vec3 :=
  conn <- get_element_indices n_topo index [] ;;
  let num_indices := Z.of_nat (List.length conn) in
  vert <- foldM (fun vert vert_index =>
                   n_vert <- get_explicit_vert n_coords vert_index ;;
                   Ok (vplus vert n_vert))
                conn vzero ;;
  x <- ddiv (vx vert) (to_double num_indices) ;;
  y <- ddiv (vy vert) (to_double num_indices) ;;
  z <- ddiv (vz vert) (to_double num_indices) ;;
  Ok (mkv x y z).

(* ------------------------------------------------------------------ *)
(** ** vert_location, element_location *)

(** The topology a location query uses, and its coordinate set: the named
    one, or the first child of [topologies] when the name is empty. *)
Definition resolve_topology (domain : Node) (topo_name : string)
  : result (Node * string * Node) :=
  topo <- (if String.eqb topo_name ""
           then n_topos <- fetch domain ["topologies"%string] ;;
                match children n_topos with
                | (name, _) :: _ => Ok name
                | [] => Err ConduitError
                end
           else Ok topo_name) ;;
  n_topo <- fetch domain ["topologies"%string; topo] ;;
  mesh_type <- fetch_string n_topo ["type"%string] ;;
  coords_name <- fetch_string n_topo ["coordset"%string] ;;
  n_coords <- fetch domain ["coordsets"%string; coords_name] ;;
  Ok (n_topo, mesh_type, n_coords).

Definition vert_location (domain : Node) (index : Z) (topo_name : string)
  : result vec3 :=
  '(n_topo, mesh_type, n_coords) <- resolve_topology domain topo_name ;;
  if String.eqb mesh_type "uniform" then
    get_uniform_vert n_coords index
  else if String.eqb mesh_type "rectilinear" then
    get_rectilinear_vert n_coords index
  else if String.eqb mesh_type "unstructured"
          || String.eqb mesh_type "structured" then
    get_explicit_vert n_coords index
  else Err (AscentError "The Architect: unknown mesh type").

Definition element_location (domain : Node) (index : Z) (topo_name : string)
  : result vec3 :=
  '(n_topo, mesh_type, n_coords) <- resolve_topology domain topo_name ;;
  if String.eqb mesh_type "uniform" then
    get_uniform_element n_coords index
  else if String.eqb mesh_type "rectilinear" then
    get_rectilinear_element n_coords index
  else if String.eqb mesh_type "unstructured"
          || String.eqb mesh_type "structured" then
    get_explicit_element n_coords n_topo index
  else Err (AscentError "The Architect: unknown mesh type").

(* ------------------------------------------------------------------ *)
(** ** Reductions over one array (ascent_conduit_reductions) *)

Definition Qsum (a : list Q) : Q := fold_left Qplus a 0%Q.

(** Modelled from the spec: [array_sum] is declared in
    ascent_conduit_reductions.hpp and defined outside this file; by its
    contract it scans one array and returns the sum of its values and their
    count. *)
Definition array_sum (n : Node) : result (Q * Z) :=
  match n with
  | Float32 a | Float64 a => Ok (Qsum a, Z.of_nat (List.length a))
  | _ => Err (AscentError "unsupported array type")
  end.

(** The nodes that the operations return. *)
Definition scalar_f64 (q : Q) : Node := Float64 [q].
Definition scalar_i32 (z : Z) : Node := Int32 [z].
Definition scalar_i64 (z : Z) : Node := Int64 [z].

Definition position_node (v : vec3) : Node := Float64 [vx v; vy v; vz v].

Definition hist_path (k : string) : path := ["attrs"; k; "value"]%string.

(** The paths of one field inside a domain. *)
Definition field_path (field : string) : path := ["fields"%string; field].
Definition values_path (field : string) : path :=
  ["fields"%string; field; "values"%string].
Definition association_path (field : string) : path :=
  ["fields"%string; field; "association"%string].

(** [dataset.child(i)] for [i] from 0 to [number_of_children() - 1]. *)
Definition domain_indices (dataset : Node) : list Z :=
  range (number_of_children dataset).

(** [new double[n]]: a negative length throws [std::bad_array_new_length]. *)
Definition new_array (n : Z) : result unit :=
  if n <? 0 then Err BadArrayLength else Ok tt.

(** The node that [field_histogram] returns for the bins [bins]. *)
Definition histogram_node (bins : list Q) (min_val max_val : Q) (num_bins : Z)
  : Node :=
  Object [("value", Float64 bins);
          ("min_val", scalar_f64 min_val);
          ("max_val", scalar_f64 max_val);
          ("num_bins", scalar_i32 num_bins)]%string.

Section Reductions.

(** [array_histogram], [array_min] and [array_max] are declared in
    ascent_conduit_reductions.hpp and defined outside this file.  They are
    taken as they are called: a histogram returns its ["value"] array, an
    extremum its ["value"] and its ["index"]. *)
Variable array_histogram : Node -> Q -> Q -> Z -> result (list Q).
Variable array_min : Node -> result (Q * Z).
Variable array_max : Node -> result (Q * Z).

(** [for(b = 0; b < num_bins; ++b) bins[b] += dom_hist[b];] *)
Definition add_bins (num_bins : Z) (bins dom_hist : list Q)
  : result (list Q) :=
  mapM (fun b =>
          old <- array_get bins b ;;
          h <- array_get dom_hist b ;;
          Ok (old + h)%Q)
       (range num_bins).

(** What both builds of [field_histogram] do first: [bins], allocated,
    zeroed and summed over the domains of the worker. *)
Definition histogram_bins (dataset : Node) (field : string)
           (min_val max_val : Q) (num_bins : Z) : result (list Q) :=
  _ <- new_array num_bins ;;
  let bins := repeat 0%Q (Z.to_nat num_bins) in         (* memset *)
  foldM (fun bins i =>
           dom <- child dataset i ;;
           if has_path dom (field_path field) then
             n_values <- fetch dom (values_path field) ;;
             dom_hist <- array_histogram n_values min_val max_val num_bins ;;
             add_bins num_bins bins dom_hist
           else Ok bins)
        (domain_indices dataset) bins.

(** Serial build ([ASCENT_MPI_ENABLED] undefined). *)
Definition field_histogram (dataset : Node) (field : string)
           (min_val max_val : Q) (num_bins : Z) : result Node :=
  bins <- histogram_bins dataset field min_val max_val num_bins ;;
  Ok (histogram_node bins min_val max_val num_bins).

(** The state of the extremum scans. *)
Record extremum : Type := mkExtremum {
  ext_value : Q;
  ext_domain : Z;
  ext_domain_id : Z;
  ext_index : Z
}.

Definition field_min_scan (dataset : Node) (field : string)
  : result extremum :=
  foldM (fun st i =>
           dom <- child dataset i ;;
           if has_path dom (field_path field) then
             n_values <- fetch dom (values_path field) ;;
             '(a_min, a_index) <- array_min n_values ;;
             if Qltb a_min (ext_value st) then
               domain_id <- fetch_int dom ["state"; "domain_id"]%string ;;
               Ok (mkExtremum a_min i domain_id a_index)
             else Ok st
           else Ok st)
        (domain_indices dataset) (mkExtremum DBL_MAX (-1) (-1) (-1)).

Definition field_max_scan (dataset : Node) (field : string)
  : result extremum :=
  foldM (fun st i =>
           dom <- child dataset i ;;
           if has_path dom (field_path field) then
             n_values <- fetch dom (values_path field) ;;
             '(a_max, a_index) <- array_max n_values ;;
             if Qltb (ext_value st) a_max then
               domain_id <- fetch_int dom ["state"; "domain_id"]%string ;;
               Ok (mkExtremum a_max i domain_id a_index)
             else Ok st
           else Ok st)
        (domain_indices dataset) (mkExtremum DBL_LOWEST (-1) (-1) (-1)).

(** The association string that both extremum operations read. *)
Definition first_domain_association (dataset : Node) (field : string)
  : result string :=
  dom0 <- child dataset 0 ;;
  fetch_string dom0 (association_path field).

(** The location of the winner; the topology name argument of
    [vert_location] and [element_location] is left to its default, the
    empty string. *)
Definition extremum_location (dataset : Node) (assoc_str : string)
           (st : extremum) : result vec3 :=
  if String.eqb assoc_str "vertex" then
    dom <- child dataset (ext_domain st) ;;
    vert_location dom (ext_index st) ""
  else if String.eqb assoc_str "element" then
    dom <- child dataset (ext_domain st) ;;
    element_location dom (ext_index st) ""
  else Err (AscentError "Location not implemented").

Definition extremum_node (rank : Z) (st : extremum) (loc : vec3) : Node :=
  Object [("rank", scalar_i32 rank);
          ("domain_id", scalar_i32 (ext_domain_id st));
          ("position", position_node loc);
          ("value", scalar_f64 (ext_value st))]%string.

(** Serial build. *)
Definition field_min (dataset : Node) (field : string) : result Node :=
  st <- field_min_scan dataset field ;;
  assoc_str <- first_domain_association dataset field ;;
  loc <- extremum_location dataset assoc_str st ;;
  Ok (extremum_node 0 st loc).

(** Serial build. *)
Definition field_max (dataset : Node) (field : string) : result Node :=
  st <- field_max_scan dataset field ;;
  assoc_str <- first_domain_association dataset field ;;
  loc <- extremum_location dataset assoc_str st ;;
  Ok (extremum_node 0 st loc).

End Reductions.

(* ------------------------------------------------------------------ *)
(** ** field_histogram, MPI build

    With [ASCENT_MPI_ENABLED] the bins of the workers are reduced by
    [MPI_Allreduce(bins, global_bins, num_bins, MPI_INT, MPI_SUM, comm)]:
    the two buffers hold doubles and are reduced as ints.  What that does
    is a matter of the memory of a double, an IEEE 754 binary64 word stored
    as two 32-bit ints, the low one first. *)

(** The exponent of a nonzero double: [2 ^ e <= |q| < 2 ^ (e + 1)]. *)
Definition binary64_exponent (q : Q) : Z :=
  let e := Z.log2 (Z.abs (Qnum q)) - Z.log2 (Zpos (Qden q)) in
  if Qle_bool (2 ^ e) (Qabs q) then e else e - 1.

(** The 64-bit word of the double that holds [q]: sign, 11 bits of biased
    exponent, 52 bits of fraction; below [2 ^ -1022] the double is
    subnormal. *)
Definition binary64_bits (q : Q) : Z :=
  if Qeq_bool q 0 then 0
  else
    let sign := if Qltb q 0 then 2 ^ 63 else 0 in
    let e := binary64_exponent q in
    if e <? -1022
    then sign + Qfloor (Qabs q * 2 ^ 1074)
    else sign + (e + 1023) * 2 ^ 52 + (Qfloor (Qabs q * 2 ^ (52 - e)) - 2 ^ 52).

(** The double that a 64-bit word holds; with all exponent bits set it is an
    infinity or a NaN, which is no rational. *)
Definition binary64_value (w : Z) : result Q :=
  let ex := (w / 2 ^ 52) mod 2 ^ 11 in
  let m := w mod 2 ^ 52 in
  if ex =? 2047 then Err NotFinite
  else
    let a := if ex =? 0 then (inject_Z m * 2 ^ (-1074))%Q
             else (inject_Z (2 ^ 52 + m) * 2 ^ (ex - 1075))%Q in
    Ok (if Z.testbit w 63 then (- a)%Q else a).

(** A [double*] read as an [int*]: two ints per double, low word first. *)
Definition double_words (a : list Q) : list Z :=
  flat_map (fun q => let w := binary64_bits q in
                     [wrap_int (w mod 2 ^ 32); wrap_int (w / 2 ^ 32)]) a.

(** The doubles held by the memory with the ints [ws]. *)
Fixpoint words_doubles (ws : list Z) : result (list Q) :=
  match ws with
  | lo :: hi :: ws' =>
      q <- binary64_value (lo mod 2 ^ 32 + (hi mod 2 ^ 32) * 2 ^ 32) ;;
      qs <- words_doubles ws' ;;
      Ok (q :: qs)
  | _ => Ok []
  end.

(** [MPI_Allreduce(send, recv, count, MPI_INT, MPI_SUM, comm)] as one worker
    sees it: the first [count] ints of [recv] become the sums, over the
    workers, of the first [count] ints of their [send]; the ints of [recv]
    after them stay as they were.  [sends] lists the send buffers in rank
    order. *)
Definition allreduce_int_sum (sends : list (list Z)) (count : Z)
           (recv : list Z) : result (list Z) :=
  sums <- mapM (fun c =>
                  foldM (fun acc send =>
                           x <- array_get send c ;;
                           Ok (wrap_int (acc + x)))
                        sends 0)
               (range count) ;;
  Ok (sums ++ skipn (Z.to_nat count) recv).

(** [field_histogram] run by every worker of a fleet.  [global_bins] is
    [new double[num_bins]], not initialised: [fresh rank c] is the int that
    worker [rank] finds at position [c] of that memory.  The result lists
    the nodes that the workers return, in rank order. *)
Definition field_histogram_mpi
           (array_histogram : Node -> Q -> Q -> Z -> result (list Q))
           (fresh : Z -> Z -> Z) (fleet : list Node) (field : string)
           (min_val max_val : Q) (num_bins : Z) : result (list Node) :=
  locals <- mapM (fun dataset =>
                    histogram_bins array_histogram dataset field
                                   min_val max_val num_bins)
                 fleet ;;
  mapM (fun rank =>
          _ <- new_array num_bins ;;
          let recv := map (fresh rank) (range (2 * num_bins)) in
          global <- allreduce_int_sum (map double_words locals) num_bins recv ;;
          global_bins <- words_doubles global ;;
          Ok (histogram_node global_bins min_val max_val num_bins))
       (range (Z.of_nat (List.length fleet))).

(** Serial build. *)
Definition field_sum (dataset : Node) (field : string) : result Node :=
  '(sum, count) <-
    foldM (fun '(sum, count) i =>
             dom <- child dataset i ;;
             if has_path dom (field_path field) then
               n_values <- fetch dom (values_path field) ;;
               '(a_sum, a_count) <- array_sum n_values ;;
               Ok ((sum + a_sum)%Q, count + a_count)
             else Ok (sum, count))
          (domain_indices dataset) (0%Q, 0) ;;
  Ok (Object [("value", scalar_f64 sum); ("count", scalar_i64 count)]%string).

Definition field_avg (dataset : Node) (field : string) : result Node :=
  sum <- field_sum dataset field ;;
  v <- fetch_float64 sum ["value"%string] ;;
  c <- fetch_float64 sum ["count"%string] ;;
  avg <- ddiv v c ;;
  Ok (Object [("value", scalar_f64 avg)]%string).

(* ------------------------------------------------------------------ *)
(** ** Distribution operations on a histogram node *)

(** What every distribution operation first reads from its argument. *)
Record hist_view : Type := mkHistView {
  hv_bins : list Q;       (* attrs/value/value, as a double pointer *)
  hv_num_bins : Z;        (* attrs/num_bins/value *)
  hv_min_val : Q;
  hv_max_val : Q
}.

Definition read_bins (hist : Node) : result (list Q) :=
  n <- fetch hist (hist_path "value") ;; float64_array n.

Definition read_num_bins (hist : Node) : result Z :=
  fetch_int hist (hist_path "num_bins").

Definition read_hist (hist : Node) : result hist_view :=
  hist_bins <- read_bins hist ;;
  num_bins <- read_num_bins hist ;;
  min_val <- fetch_float64 hist (hist_path "min_val") ;;
  max_val <- fetch_float64 hist (hist_path "max_val") ;;
  Ok (mkHistView hist_bins num_bins min_val max_val).

Definition read_sum (hist : Node) : result Q :=
  n <- fetch hist (hist_path "value") ;;
  '(sum, _) <- array_sum n ;;
  Ok sum.

Definition dist_node (value : list Q) (h : hist_view) : Node :=
  Object [("value", Float64 value);
          ("min_val", scalar_f64 (hv_min_val h));
          ("max_val", scalar_f64 (hv_max_val h));
          ("num_bins", scalar_i32 (hv_num_bins h))]%string.

Section Entropy.

(** [std::log]. *)
Variable ln : Q -> Q.

(** The body of the loop, on the bin count [hist_bins[b]] it has read. *)
Definition entropy_step (sum entropy h : Q) : result Q :=
  if negb (Qeq_bool h 0) then
    p <- ddiv h sum ;;
    Ok (entropy + - p * ln p)%Q
  else Ok entropy.

Definition entropy_loop (hist_bins : list Q) (num_bins : Z) (sum : Q)
  : result Q :=
  foldM (fun entropy b =>
           h <- array_get hist_bins b ;;
           entropy_step sum entropy h)
        (range num_bins) 0%Q.

Definition field_entropy (hist : Node) : result Node :=
  hist_bins <- read_bins hist ;;
  num_bins <- read_num_bins hist ;;
  sum <- read_sum hist ;;
  entropy <- entropy_loop hist_bins num_bins sum ;;
  Ok (Object [("value", scalar_f64 entropy)]%string).

End Entropy.

Definition pdf_loop (hist_bins : list Q) (num_bins : Z) (sum : Q)
  : result (list Q) :=
  mapM (fun b => h <- array_get hist_bins b ;; ddiv h sum) (range num_bins).

Definition field_pdf (hist : Node) : result Node :=
  h <- read_hist hist ;;
  sum <- read_sum hist ;;
  pdf <- pdf_loop (hv_bins h) (hv_num_bins h) sum ;;
  Ok (dist_node pdf h).

(** The loop state is [rolling_cdf] and the entries of [cdf] written so
    far. *)
Definition cdf_loop (hist_bins : list Q) (num_bins : Z) (sum : Q)
  : result (Q * list Q) :=
  foldM (fun '(rolling_cdf, cdf) b =>
           h <- array_get hist_bins b ;;
           p <- ddiv h sum ;;
           let rolling_cdf := (rolling_cdf + p)%Q in
           Ok (rolling_cdf, cdf ++ [rolling_cdf]))
        (range num_bins) (0%Q, []).

Definition field_cdf (hist : Node) : result Node :=
  h <- read_hist hist ;;
  sum <- read_sum hist ;;
  '(_, cdf) <- cdf_loop (hv_bins h) (hv_num_bins h) sum ;;
  Ok (dist_node cdf h).

(** [for(; cdf_bins[bin] < val; ++bin);] where [rest] is the array from
    entry [bin] on: the read of an entry past the end is [OutOfBounds]. *)
Fixpoint quantile_scan (rest : list Q) (val : Q) (bin : Z) : result Z :=
  match rest with
  | [] => Err OutOfBounds
  | c :: rest' =>
      if Qltb c val then quantile_scan rest' val (bin + 1) else Ok bin
  end.

(** The bin that [quantile] settles on: the scan, then the step back. *)
Definition quantile_bin (cdf_bins : list Q) (val : Q) : result Z :=
  bin <- quantile_scan cdf_bins val 0 ;;
  c <- array_get cdf_bins bin ;;
  (* we overshot *)
  Ok (if Qltb val c then bin - 1 else bin).

(** [min_val + bin * (max_val - min_val) / num_bins]. *)
Definition bin_boundary (h : hist_view) (bin : Z) : result Q :=
  w <- ddiv (to_double bin * (hv_max_val h - hv_min_val h))%Q
            (to_double (hv_num_bins h)) ;;
  Ok (hv_min_val h + w)%Q.

(** The ["value"] that [quantile] stores; [None] when the interpolation is
    none of the five known ones and the result node stays empty. *)
Definition quantile_value (cdf : Node) (val : Q) (interpolation : string)
  : result (option Q) :=
  h <- read_hist cdf ;;
  let cdf_bins := hv_bins h in
  bin <- quantile_bin cdf_bins val ;;
  (* i and j are the bin boundaries *)
  i <- bin_boundary h bin ;;
  j <- bin_boundary h (bin + 1) ;;
  if String.eqb interpolation "linear" then
    c1 <- array_get cdf_bins (bin + 1) ;;
    c0 <- array_get cdf_bins bin ;;
    if Qeq_bool (c1 - c0) 0 then Ok (Some i)
    else
      r <- ddiv ((j - i) * (val - c0))%Q (c1 - c0)%Q ;;
      Ok (Some (i + r)%Q)
  else if String.eqb interpolation "lower" then Ok (Some i)
  else if String.eqb interpolation "higher" then Ok (Some j)
  else if String.eqb interpolation "midpoint" then
    Ok (Some ((i + j) / 2)%Q)
  else if String.eqb interpolation "nearest" then
    Ok (Some (if Qltb (val - i) (j - val) then i else j))
  else Ok None.

Definition quantile (cdf : Node) (val : Q) (interpolation : string)
  : result Node :=
  v <- quantile_value cdf val interpolation ;;
  match v with
  | Some q => Ok (Object [("value", scalar_f64 q)]%string)
  | None => Ok Empty
  end.

(* ------------------------------------------------------------------ *)
(** ** field_assoc *)

(** The loop of [field_assoc] on one worker: [rank_has] and [vertex]. *)
Definition field_assoc_scan (dataset : Node) (field_name : string)
  : result (bool * bool) :=
  foldM (fun '(rank_has, vertex) i =>
           dom <- child dataset i ;;
           if has_path dom (field_path field_name) then
             asc <- fetch_string dom (association_path field_name) ;;
             Ok (true, if String.eqb asc "element" then false else vertex)
           else Ok (rank_has, vertex))
        (domain_indices dataset) (false, true).

(** Modelled from the spec: [global_someone_agrees] is declared in
    ascent_mpi_utils.hpp and defined outside this file; it is true iff at
    least one worker's local value is true.  [votes] lists the local values
    of the workers in rank order. *)
Definition global_someone_agrees (votes : list bool) : bool :=
  existsb (fun v => v) votes.

(** [field_assoc] run by every worker of a fleet, [fleet] listing the
    datasets of the workers in rank order.  The two votes are collective, so
    every worker comes to the same result. *)
Definition field_assoc (fleet : list Node) (field_name : string)
  : result string :=
  locals <- mapM (fun dataset => field_assoc_scan dataset field_name) fleet ;;
  let vertex_vote :=
    global_someone_agrees
      (map (fun '(rank_has, vertex) => rank_has && vertex) locals) in
  let element_vote :=
    global_someone_agrees
      (map (fun '(rank_has, vertex) => rank_has && negb vertex) locals) in
  if vertex_vote && element_vote then
    Err (AscentError "There is disagreement about the association")
  else Ok (if vertex_vote then "vertex" else "element")%string.

(* ------------------------------------------------------------------ *)
(** ** Notions used to state the properties *)

(** [b] is the smallest bin index with [cdf_bins[b] >= val]. *)
Definition smallest_bin_at_least (cdf_bins : list Q) (val : Q) (b : Z) : Prop :=
  (exists c, array_get cdf_bins b = Ok c /\ (val <= c)%Q) /\
  forall b' c', 0 <= b' < b -> array_get cdf_bins b' = Ok c' -> (c' < val)%Q.

(** The left boundary of bin [b]:
    [min_val + b * (max_val - min_val) / num_bins]. *)
Definition bin_edge (h : hist_view) (b : Z) : Q :=
  (hv_min_val h
   + to_double b * (hv_max_val h - hv_min_val h) / to_double (hv_num_bins h))%Q.

Definition bin_width (h : hist_view) : Q :=
  ((hv_max_val h - hv_min_val h) / to_double (hv_num_bins h))%Q.

(** A histogram node as the distribution operations read it. *)
Definition hist_node (value : list Q) (min_val max_val : Q) (num_bins : Z)
  : Node :=
  Object [("attrs",
           Object [("value", Object [("value", Float64 value)]);
                   ("min_val", Object [("value", scalar_f64 min_val)]);
                   ("max_val", Object [("value", scalar_f64 max_val)]);
                   ("num_bins", Object [("value", scalar_i32 num_bins)])])
         ]%string.

(** The domains of a dataset, in order. *)
Definition domains (dataset : Node) : list Node := map snd (children dataset).

Definition float_values (n : Node) : result (list Q) :=
  match n with
  | Float32 a | Float64 a => Ok a
  | _ => Err ConduitError
  end.

(** The value arrays of [field], one for every domain that holds it. *)
Fixpoint field_arrays (doms : list Node) (field : string)
  : result (list (list Q)) :=
  match doms with
  | [] => Ok []
  | dom :: doms' =>
      if has_path dom (field_path field) then
        n <- fetch dom (values_path field) ;;
        a <- float_values n ;;
        rest <- field_arrays doms' field ;;
        Ok (a :: rest)
      else field_arrays doms' field
  end.

(** A domain over a uniform 3x3 coordinate set with origin (0,0,0) and spacing
    (1,1,1) that holds the field "f" with association [asc]. *)
Definition mesh_domain (domain_id : Z) (asc : string) (values : list Q)
  : Node :=
  Object
    [("state", Object [("domain_id", scalar_i32 domain_id)]);
     ("coordsets",
      Object [("coords",
               Object [("type", Str "uniform");
                       ("dims", Object [("i", scalar_i32 3);
                                        ("j", scalar_i32 3)]);
                       ("origin", Object [("x", scalar_f64 0);
                                          ("y", scalar_f64 0);
                                          ("z", scalar_f64 0)]);
                       ("spacing", Object [("dx", scalar_f64 1);
                                           ("dy", scalar_f64 1);
                                           ("dz", scalar_f64 1)])])]);
     ("topologies",
      Object [("mesh", Object [("type", Str "uniform");
                               ("coordset", Str "coords")])]);
     ("fields",
      Object [("f", Object [("association", Str asc);
                            ("topology", Str "mesh");
                            ("values", Float64 values)])])]%string.

Definition scenario_domain (domain_id : Z) (values : list Q) : Node :=
  mesh_domain domain_id "vertex" values.

(** The scenario of the specification: one worker, two domains; the field "f"
    is vertex-associated, [0..8] on domain 0 and [9] on domain 1. *)
Definition scenario_dataset : Node :=
  Object [("domain_0", scenario_domain 0 (map inject_Z [0; 1; 2; 3; 4; 5; 6; 7; 8]));
          ("domain_1", scenario_domain 1 [inject_Z 9])]%string.

(** The running prefix sums of [ps] on top of [r0]. *)
Fixpoint prefix_sums (r0 : Q) (ps : list Q) : list Q :=
  match ps with
  | [] => []
  | p :: ps' => (r0 + p)%Q :: prefix_sums (r0 + p)%Q ps'
  end.

(** The pdf of a histogram: [bin[i] / total]. *)
Definition pdf_of (total : Q) (bins : list Q) : list Q :=
  map (fun x => (x / total)%Q) bins.

(** The term of bin count [x] in the entropy sum: [p * ln p] with
    [p = x / total], and 0 for a zero count. *)
Definition entropy_term (ln : Q -> Q) (total x : Q) : Q :=
  if Qeq_bool x 0 then 0%Q else (x / total * ln (x / total))%Q.

(** A histogram with all its mass [c] in one bin. *)
Definition one_hot (before after : nat) (c : Q) : list Q :=
  repeat 0%Q before ++ [c] ++ repeat 0%Q after.

Definition nonzero (x : Q) : bool := negb (Qeq_bool x 0).

(** The histograms of [field], one for every domain that holds it. *)
Fixpoint domain_histograms
         (array_histogram : Node -> Q -> Q -> Z -> result (list Q))
         (doms : list Node) (field : string) (min_val max_val : Q)
         (num_bins : Z) : result (list (list Q)) :=
  match doms with
  | [] => Ok []
  | dom :: doms' =>
      if has_path dom (field_path field) then
        n <- fetch dom (values_path field) ;;
        hst <- array_histogram n min_val max_val num_bins ;;
        rest <- domain_histograms array_histogram doms' field
                                  min_val max_val num_bins ;;
        Ok (hst :: rest)
      else domain_histograms array_histogram doms' field
                             min_val max_val num_bins
  end.

(** Bin [b] of the element-wise sum of the histograms. *)
Definition bin_total (hists : list (list Q)) (b : nat) : Q :=
  Qsum (map (fun hst => nth b hst 0%Q) hists).

(** Modelled from the spec: [array_histogram] is defined outside this file;
    by its contract it counts the values of one array in [num_bins] bins of
    uniform width over [min_val, max_val], values outside the range
    excluded. *)
Definition in_bin (min_val max_val : Q) (num_bins b : Z) (x : Q) : bool :=
  let w := ((max_val - min_val) / to_double num_bins)%Q in
  Qle_bool (min_val + to_double b * w)%Q x
  && Qltb x (min_val + to_double (b + 1) * w)%Q.

Definition array_histogram_model (n : Node) (min_val max_val : Q)
           (num_bins : Z) : result (list Q) :=
  a <- float_values n ;;
  Ok (map (fun b =>
             to_double (Z.of_nat
                          (List.length (filter (in_bin min_val max_val
                                                       num_bins b) a))))
          (range num_bins)).

(** Whether a domain holds the field, and whether it declares the
    association [asc] for it. *)
Definition holds (field : string) (dom : Node) : bool :=
  has_path dom (field_path field).

Definition declares (field asc : string) (dom : Node) : bool :=
  match fetch_string dom (association_path field) with
  | Ok a => String.eqb a asc
  | Err _ => false
  end.

(** A worker holds the field on some domain; every domain of a worker that
    holds the field is vertex-associated. *)
Definition worker_has (field : string) (dataset : Node) : bool :=
  existsb (holds field) (domains dataset).

Definition worker_all_vertex (field : string) (dataset : Node) : bool :=
  forallb (fun dom => implb (holds field dom) (declares field "vertex" dom))
          (domains dataset).

(** The data model: a field is vertex- or element-associated on every domain
    that holds it. *)
Definition association_declared (field : string) (dataset : Node) : bool :=
  forallb (fun dom =>
             implb (holds field dom)
                   (declares field "vertex" dom
                    || declares field "element" dom))
          (domains dataset).

Definition disagreement : error :=
  AscentError "There is disagreement about the association".

(** A dataset of one domain that holds the field "x" with association
    [asc]. *)
Definition assoc_dataset (asc : string) : Node :=
  Object [("domain_0",
           Object [("fields",
                    Object [("x", Object [("association", Str asc);
                                          ("values", Float64 [1%Q])])])])
         ]%string.

(** Modelled from the spec: [array_min] and [array_max] are defined outside
    this file; by their contract they scan one array and return its extremum
    and the position at which it occurs. *)
Fixpoint arg_best (better : Q -> Q -> bool) (a : list Q) (i : Z)
         (best : Q * Z) : Q * Z :=
  match a with
  | [] => best
  | x :: a' =>
      arg_best better a' (i + 1) (if better x (fst best) then (x, i) else best)
  end.

Definition array_extremum_model (better : Q -> Q -> bool) (n : Node)
  : result (Q * Z) :=
  a <- float_values n ;;
  match a with
  | [] => Err (AscentError "empty array")
  | x :: a' => Ok (arg_best better a' 1 (x, 0))
  end.

Definition array_min_model : Node -> result (Q * Z) :=
  array_extremum_model Qltb.

Definition array_max_model : Node -> result (Q * Z) :=
  array_extremum_model (fun x y => Qltb y x).

(** The winner of a scan: no domain yet, or a domain that holds the field. *)
Definition winner_holds (dataset : Node) (field : string) (st : extremum)
  : Prop :=
  ext_domain st = -1 \/
  exists dom, child dataset (ext_domain st) = Ok dom /\ holds field dom = true.

(** What a successful extremum operation, with scan [scan], has done. *)
Definition extremum_ok (scan : Node -> string -> result extremum)
           (dataset : Node) (field : string) (r : Node) : Prop :=
  0 < number_of_children dataset /\
  exists dom0 assoc_str st loc,
    child dataset 0 = Ok dom0 /\
    holds field dom0 = true /\
    fetch_string dom0 (association_path field) = Ok assoc_str /\
    scan dataset field = Ok st /\
    (exists domw, child dataset (ext_domain st) = Ok domw /\
                  holds field domw = true) /\
    extremum_location dataset assoc_str st = Ok loc /\
    r = extremum_node 0 st loc.

(** A dataset whose first domain declares "f" vertex-associated and whose
    second domain, which holds the minimum, declares it
    element-associated. *)
Definition mixed_dataset : Node :=
  Object [("domain_0", mesh_domain 0 "vertex" [5%Q]);
          ("domain_1", mesh_domain 1 "element" [3; 1; 2]%Q)]%string.

(** As [mixed_dataset], with the maximum on the second domain. *)
Definition mixed_max_dataset : Node :=
  Object [("domain_0", mesh_domain 0 "vertex" [5%Q]);
          ("domain_1", mesh_domain 1 "element" [3; 7; 2]%Q)]%string.

(** The connectivity slice of cell [index] of an unstructured topology: the
    vertex count of the shape many entries, from [index * vertexCount] on. *)
Definition connectivity_slice (n_topo : Node) (index : Z) : result (list Z) :=
  ele_shape <- fetch_string n_topo ["elements"; "shape"]%string ;;
  num_indices <- get_num_indices ele_shape ;;
  n_topo_conn <- fetch n_topo ["elements"; "connectivity"]%string ;;
  conn_a <- int32_array n_topo_conn ;;
  mapM (fun i => array_get conn_a (index * num_indices + i))
       (range num_indices).

(** The arithmetic mean of the positions of the vertices [verts]. *)
Definition mean_position (n_coords : Node) (verts : list Z) : result vec3 :=
  ps <- mapM (get_explicit_vert n_coords) verts ;;
  let n := to_double (Z.of_nat (List.length verts)) in
  x <- ddiv (Qsum (map vx ps)) n ;;
  y <- ddiv (Qsum (map vy ps)) n ;;
  z <- ddiv (Qsum (map vz ps)) n ;;
  Ok (mkv x y z).

(** The corners of the structured cell with logical index (i, j, k) on a
    vertex grid of [vd0] by [vd1] vertices per plane: bottom face, then top
    face. *)
Definition structured_corners_3d (vd0 vd1 i j k : Z) : list Z :=
  let v := (k * vd1 + j) * vd0 + i in
  let plane := vd0 * vd1 in
  [v; v + 1; v + 1 + vd0; v + vd0;
   v + plane; v + plane + 1; v + plane + 1 + vd0; v + plane + vd0].

Definition explicit_coords (x y z : list Q) : Node :=
  Object [("type", Str "explicit");
          ("values", Object [("x", Float64 x);
                             ("y", Float64 y);
                             ("z", Float64 z)])]%string.

(** Two triangles on four vertices. *)
Definition two_tri_coords : Node :=
  explicit_coords [0; 6; 6; 12]%Q [0; 0; 6; 6]%Q [0; 0; 0; 0]%Q.

Definition two_tri_topo : Node :=
  Object [("type", Str "unstructured");
          ("coordset", Str "coords");
          ("elements", Object [("shape", Str "tri");
                               ("connectivity", Int32 [0; 1; 2; 1; 3; 2])])
         ]%string.

Definition two_tri_domain : Node :=
  Object [("coordsets", Object [("coords", two_tri_coords)]);
          ("topologies", Object [("mesh", two_tri_topo)])]%string.

(** A structured grid of 1 x 2 x 1 cells, that is 2 x 3 x 2 vertices, vertex
    (i, j, k) at position (i, j, k). *)
Definition grid_coords : Node :=
  explicit_coords [0; 1; 0; 1; 0; 1; 0; 1; 0; 1; 0; 1]%Q
                  [0; 0; 1; 1; 2; 2; 0; 0; 1; 1; 2; 2]%Q
                  [0; 0; 0; 0; 0; 0; 1; 1; 1; 1; 1; 1]%Q.

Definition grid_topo : Node :=
  Object [("type", Str "structured");
          ("coordset", Str "coords");
          ("elements",
           Object [("dims", Object [("i", scalar_i32 1);
                                    ("j", scalar_i32 2);
                                    ("k", scalar_i32 1)])])]%string.

Definition grid_domain : Node :=
  Object [("coordsets", Object [("coords", grid_coords)]);
          ("topologies", Object [("mesh", grid_topo)])]%string.

(** A structured 2D grid of 1 x 1 cells: [elements/dims] has no [k]. *)
Definition quad_topo : Node :=
  Object [("type", Str "structured");
          ("coordset", Str "coords");
          ("elements",
           Object [("dims", Object [("i", scalar_i32 1);
                                    ("j", scalar_i32 1)])])]%string.

Definition quad_domain : Node :=
  Object [("coordsets",
           Object [("coords",
                    explicit_coords [0; 1; 0; 1]%Q [0; 0; 1; 1]%Q
                                    [0; 0; 0; 0]%Q)]);
          ("topologies", Object [("mesh", quad_topo)])]%string.

(* ------------------------------------------------------------------ *)
(** ** detail::at_least_one, has_field, has_topology, is_scalar_field *)

(** [votes] lists the local values of the workers that take part in the
    reduction, the caller's included; the serial build has no reduction and
    [votes] is empty. *)
Definition at_least_one (votes : list bool) (local : bool) : bool :=
  let global_count :=
    fold_left (fun count (v : bool) => count + (if v then 1 else 0)) votes 0 in
  if 0 <? global_count then true else local.

(** The loop of [has_field] and of [has_topology] on one worker. *)
Definition has_path_scan (dataset : Node) (p : path) : result bool :=
  foldM (fun found i =>
           dom <- child dataset i ;;
           Ok (if negb found && has_path dom p then true else found))
        (domain_indices dataset) false.

(** [has_field] run by every worker of a fleet: the answer of each worker,
    in rank order. *)
Definition has_field (fleet : list Node) (field_name : string)
  : result (list bool) :=
  locals <- mapM (fun dataset => has_path_scan dataset (field_path field_name))
                 fleet ;;
  Ok (map (at_least_one locals) locals).

Definition has_topology (fleet : list Node) (topo_name : string)
  : result (list bool) :=
  locals <- mapM (fun dataset =>
                    has_path_scan dataset ["topologies"%string; topo_name])
                 fleet ;;
  Ok (map (at_least_one locals) locals).

Definition is_scalar_field (dataset : Node) (field_name : string)
  : result bool :=
  '(is_scalar, _) <-
    foldM (fun '(is_scalar, has_field) i =>
             dom <- child dataset i ;;
             if negb has_field && has_path dom (field_path field_name) then
               n_field <- fetch dom (field_path field_name) ;;
               n_values <- fetch n_field ["values"%string] ;;
               let num_children := number_of_children n_values in
               Ok (if num_children =? 0 then true else is_scalar, true)
             else Ok (is_scalar, has_field))
          (domain_indices dataset) (false, false) ;;
  Ok is_scalar.

(* ------------------------------------------------------------------ *)
(** ** field_nan_count, field_inf_count, get_state_var *)

Section Counts.

(** [array_nan_count] and [array_inf_count] are declared in
    ascent_conduit_reductions.hpp and defined outside this file; they are
    taken as the ["value"] they return. *)
Variable array_nan_count : Node -> result Q.
Variable array_inf_count : Node -> result Q.

Definition field_nan_count (dataset : Node) (field : string) : result Node :=
  nan_count <-
    foldM (fun nan_count i =>
             dom <- child dataset i ;;
             if has_path dom (field_path field) then
               n_values <- fetch dom (values_path field) ;;
               c <- array_nan_count n_values ;;
               Ok (nan_count + c)%Q
             else Ok nan_count)
          (domain_indices dataset) 0%Q ;;
  Ok (Object [("value", scalar_f64 nan_count)]%string).

Definition field_inf_count (dataset : Node) (field : string) : result Node :=
  inf_count <-
    foldM (fun inf_count i =>
             dom <- child dataset i ;;
             if has_path dom (field_path field) then
               n_values <- fetch dom (values_path field) ;;
               c <- array_inf_count n_values ;;
               Ok (inf_count + c)%Q
             else Ok inf_count)
          (domain_indices dataset) 0%Q ;;
  Ok (Object [("value", scalar_f64 inf_count)]%string).

End Counts.

Definition state_path (var_name : string) : path :=
  ["state"%string; var_name].

Definition get_state_var (dataset : Node) (var_name : string) : result Node :=
  '(has_state, state) <-
    foldM (fun '(has_state, state) i =>
             dom <- child dataset i ;;
             if negb has_state && has_path dom (state_path var_name) then
               st <- fetch dom (state_path var_name) ;;
               Ok (true, st)
             else Ok (has_state, state))
          (domain_indices dataset) (false, Empty) ;;
  if negb has_state
  then Err (AscentError "Unable to retrieve state variable")
  else Ok state.

(* ------------------------------------------------------------------ *)
(** ** field_type *)

(** The state of the loop of [field_type]. *)
Record type_scan : Type := mkTypeScan {
  ts_is_double : bool;
  ts_rank_has : bool;
  ts_error : bool
}.

Definition field_type_scan (dataset : Node) (field_name : string)
  : result type_scan :=
  foldM (fun st i =>
           dom <- child dataset i ;;
           if has_path dom (field_path field_name) then
             asc <- fetch_string dom (association_path field_name) ;;
             n_values <- fetch dom (values_path field_name) ;;
             if is_float32 n_values then
               Ok (mkTypeScan false true (ts_error st))
             else if negb (is_float64 n_values) then
               Ok (mkTypeScan (ts_is_double st) true true)
             else Ok (mkTypeScan (ts_is_double st) true (ts_error st))
           else Ok st)
        (domain_indices dataset) (mkTypeScan true false false).

Section Agreement.

(** [global_agreement] is declared in ascent_mpi_utils.hpp and defined
    outside this file; it is taken as a function of the local values of the
    workers, in rank order. *)
Variable global_agreement : list bool -> bool.

(** [field_type] run by every worker of a fleet: the answer of each worker,
    in rank order.  The vote on [is_double] is taken and not used. *)
Definition field_type (fleet : list Node) (field_name : string)
  : result (list string) :=
  locals <- mapM (fun dataset => field_type_scan dataset field_name) fleet ;;
  let error := global_agreement (map ts_error locals) in
  if error then
    Err (AscentError "Field is neither float or double")
  else
    let double_vote :=
      global_someone_agrees
        (map (fun st => ts_rank_has st && ts_is_double st) locals) in
    Ok (map (fun st => if ts_is_double st then "double" else "float")%string
            locals).

(** The state of the loop of [coord_type]. *)
Record coord_scan : Type := mkCoordScan {
  cs_is_float : bool;
  cs_has_array : bool;
  cs_error : bool
}.

(** The loop looks the topology up under ["topology/"]; the name of an
    unsupported type is read at ["/values/x"], whose first component is
    empty. *)
Definition coord_type_scan (dataset : Node) (topo_name : string)
  : result coord_scan :=
  let topo_path := ["topology"%string; topo_name] in
  foldM (fun st i =>
           dom <- child dataset i ;;
           if has_path dom topo_path then
             coord_name <- fetch_string dom (topo_path ++ ["coordset"%string]) ;;
             n_coords <- fetch dom ["coordsets"%string; coord_name] ;;
             coords_type <- fetch_string n_coords ["type"%string] ;;
             if negb (String.eqb coords_type "uniform") then
               n_x <- fetch n_coords ["values"; "x"]%string ;;
               if is_float32 n_x then
                 Ok (mkCoordScan true true (cs_error st))
               else
                 n_x' <- fetch n_coords ["values"; "x"]%string ;;
                 if negb (is_float64 n_x') then
                   _ <- fetch n_coords [""; "values"; "x"]%string ;;
                   Ok (mkCoordScan false true true)
                 else Ok (mkCoordScan (cs_is_float st) true (cs_error st))
             else Ok st
           else Ok st)
        (domain_indices dataset) (mkCoordScan false false false).

(** [coord_type] run by every worker of a fleet; the vote is collective, so
    every worker comes to the same result. *)
Definition coord_type (fleet : list Node) (topo_name : string)
  : result string :=
  locals <- mapM (fun dataset => coord_type_scan dataset topo_name) fleet ;;
  let error := global_agreement (map cs_error locals) in
  if error then
    Err (AscentError "Coords array is neither float or double")
  else
    let float_vote :=
      global_someone_agrees
        (map (fun st => cs_has_array st && cs_is_float st) locals) in
    Ok (if float_vote then "float" else "double")%string.

End Agreement.

(* ------------------------------------------------------------------ *)
(** ** topology_types, num_points, num_cells *)

(** [topo_types[k] += 1]. *)
Definition incr (k : nat) (topo_types : list Z) : list Z :=
  firstn k topo_types ++ [nth k topo_types 0 + 1] ++ skipn (S k) topo_types.

(** Serial build.  The loop runs once per domain and reads
    [dataset.child(0)] each time. *)
Definition topology_types (dataset : Node) (topo_name : string)
  : result (list Z) :=
  let num_domains := number_of_children dataset in
  foldM (fun topo_types (i : Z) =>
           dom <- child dataset 0 ;;
           if has_path dom ["topologies"%string; topo_name] then
             topo_type <-
               fetch_string dom ["topologies"%string; topo_name; "type"%string] ;;
             if String.eqb topo_type "points" then Ok (incr 0 topo_types)
             else if String.eqb topo_type "uniform" then Ok (incr 1 topo_types)
             else if String.eqb topo_type "rectilinear"
                  then Ok (incr 2 topo_types)
             else if String.eqb topo_type "structured"
                  then Ok (incr 3 topo_types)
             else if String.eqb topo_type "unstructured"
                  then Ok (incr 4 topo_types)
             else Ok topo_types
           else Ok topo_types)
        (range num_domains) [0; 0; 0; 0; 0].

(** [res = n[first] + off; if(has second) res *= n[second] + off; ...] with
    the numbers read by [read]. *)
Definition extent_product (read : path -> result Z) (n_coords : Node)
           (first second third : path) (off : Z) : result Z :=
  a <- read first ;;
  let res := a + off in
  res <- (if has_path n_coords second
          then b <- read second ;; Ok (int_mul res (b + off))
          else Ok res) ;;
  (if has_path n_coords third
   then c <- read third ;; Ok (int_mul res (c + off))
   else Ok res).

(** [n_coords[p].dtype().number_of_elements()]. *)
Definition fetch_count (n_coords : Node) (p : path) : result Z :=
  c <- fetch n_coords p ;; Ok (number_of_elements c).

Definition num_points (domain : Node) (topo_name : string) : result Z :=
  let res := 0 in
  n_topo <- fetch domain ["topologies"%string; topo_name] ;;
  c_name <- fetch_string n_topo ["coordset"%string] ;;
  n_coords <- fetch domain ["coordsets"%string; c_name] ;;
  c_type <- fetch_string n_coords ["type"%string] ;;
  res <- (if String.eqb c_type "uniform"
          then extent_product (fetch_int n_coords) n_coords
                              ["dims"; "i"]%string ["dims"; "j"]%string
                              ["dims"; "k"]%string 0
          else Ok res) ;;
  res <- (if String.eqb c_type "rectilinear"
          then extent_product (fetch_count n_coords) n_coords
                              ["values"; "x"]%string ["values"; "y"]%string
                              ["values"; "z"]%string 0
          else Ok res) ;;
  (if String.eqb c_type "explicit"
   then fetch_count n_coords ["values"; "x"]%string
   else Ok res).

Definition num_cells (domain : Node) (topo_name : string) : result Z :=
  n_topo <- fetch domain ["topologies"%string; topo_name] ;;
  topo_type <- fetch_string n_topo ["type"%string] ;;
  let res := -1 in
  res <- (if String.eqb topo_type "unstructured"
          then shape <- fetch_string n_topo ["elements"; "shape"]%string ;;
               conn_size <- fetch_count n_topo
                                        ["elements"; "connectiviy"]%string ;;
               per_cell <- get_num_indices shape ;;
               int_div conn_size per_cell
          else Ok res) ;;
  if String.eqb topo_type "points" then num_points domain topo_name
  else
    c_name <- fetch_string n_topo ["coordset"%string] ;;
    n_coords <- fetch domain ["coordsets"%string; c_name] ;;
    res <- (if String.eqb topo_type "uniform"
            then extent_product (fetch_int n_coords) n_coords
                                ["dims"; "i"]%string ["dims"; "j"]%string
                                ["dims"; "k"]%string (-1)
            else Ok res) ;;
    res <- (if String.eqb topo_type "rectilinear"
            then extent_product (fetch_count n_coords) n_coords
                                ["values"; "x"]%string ["values"; "y"]%string
                                ["values"; "z"]%string (-1)
            else Ok res) ;;
    (if String.eqb topo_type "explicit"
     then c <- fetch_count n_coords ["values"; "x"]%string ;; Ok (c - 1)
     else Ok res).

(* ------------------------------------------------------------------ *)
(** ** spatial_dims, field_topology *)

(** The state of the loop of [spatial_dims]; [sd_done] is set by [break]. *)
Record dims_scan : Type := mkDimsScan {
  sd_is_3d : bool;
  sd_rank_has : bool;
  sd_done : bool
}.

Definition spatial_dims_scan (dataset : Node) (topo_name : string)
  : result dims_scan :=
  let num_domains := number_of_children dataset in
  foldM (fun st i =>
           if sd_done st then Ok st
           else
             domain <- child dataset i ;;
             if negb (has_path domain ["topologies"%string; topo_name])
             then Ok st
             else
               n_topo <- fetch domain ["topologies"%string; topo_name] ;;
               c_name <- fetch_string n_topo ["coordset"%string] ;;
               n_coords <- fetch domain ["coordsets"%string; c_name] ;;
               c_type <- fetch_string n_coords ["type"%string] ;;
               if String.eqb c_type "uniform" then
                 Ok (mkDimsScan
                       (if has_path n_coords ["dims"; "k"]%string
                        then true else sd_is_3d st)
                       true true)
               else if String.eqb c_type "rectilinear"
                       || String.eqb c_type "explicit" then
                 Ok (mkDimsScan
                       (if has_path n_coords ["values"; "z"]%string
                        then true else sd_is_3d st)
                       true true)
               else Ok (mkDimsScan (sd_is_3d st) true false))
        (range num_domains) (mkDimsScan false false false).

(** [spatial_dims] run by every worker of a fleet; the two votes are
    collective, so every worker comes to the same result. *)
Definition spatial_dims (fleet : list Node) (topo_name : string)
  : result Z :=
  locals <- mapM (fun dataset => spatial_dims_scan dataset topo_name) fleet ;;
  let vote_3d :=
    global_someone_agrees
      (map (fun st => sd_rank_has st && sd_is_3d st) locals) in
  let vote_2d :=
    global_someone_agrees
      (map (fun st => sd_rank_has st && negb (sd_is_3d st)) locals) in
  if vote_2d && vote_3d then
    Err (AscentError "There is disagreement about the spatial dims")
  else Ok (if vote_3d then 3 else 2).

(** The loop of [field_topology] on one worker: the topology of the first
    domain that holds the field, the empty string when none does. *)
Definition field_topology_scan (dataset : Node) (field_name : string)
  : result string :=
  let num_domains := number_of_children dataset in
  '(topo_name, _) <-
    foldM (fun '(topo_name, done) i =>
             if (done : bool) then Ok (topo_name, done)
             else
               dom <- child dataset i ;;
               if has_path dom (field_path field_name) then
                 t <- fetch_string dom ["fields"%string; field_name;
                                        "topology"%string] ;;
                 Ok (t, true)
               else Ok (topo_name, done))
          (range num_domains) (""%string, false) ;;
  Ok topo_name.

(** [MPI_MAXLOC] on the pairs (value, rank): the rank of the first largest
    value. *)
Fixpoint maxloc_from (vals : list Z) (rank : nat) (best : Z * nat) : nat :=
  match vals with
  | [] => snd best
  | v :: vals' =>
      maxloc_from vals' (S rank) (if fst best <? v then (v, rank) else best)
  end.

Definition maxloc (vals : list Z) : nat :=
  match vals with
  | [] => 0%nat
  | v :: vals' => maxloc_from vals' 1 (v, 0%nat)
  end.

(** [field_topology] run by every worker of a fleet: the name of the worker
    that wins the reduction on the name lengths is broadcast to all. *)
Definition field_topology (fleet : list Node) (field_name : string)
  : result string :=
  locals <- mapM (fun dataset => field_topology_scan dataset field_name)
                 fleet ;;
  let winner :=
    maxloc (map (fun name => Z.of_nat (String.length name)) locals) in
  Ok (nth winner locals ""%string).

(* ------------------------------------------------------------------ *)
(** ** Notions used to state the further properties *)

(** The counts that [count] gives on the values of [field], one for every
    domain that holds it. *)
Fixpoint domain_counts (count : Node -> result Q) (doms : list Node)
         (field : string) : result (list Q) :=
  match doms with
  | [] => Ok []
  | dom :: doms' =>
      if has_path dom (field_path field) then
        n <- fetch dom (values_path field) ;;
        c <- count n ;;
        rest <- domain_counts count doms' field ;;
        Ok (c :: rest)
      else domain_counts count doms' field
  end.

(** A loop whose body acts on the first domain passing [test] and on no
    other. *)
Definition first_match {St : Type} (found : St -> bool) (test : Node -> bool)
           (act : St -> Node -> result St) (st : St) (dom : Node) : result St :=
  if negb (found st) && test dom then act st dom else Ok st.

(** A dataset of the domains [doms]. *)
Definition dataset_of (doms : list Node) : Node :=
  Object (map (fun dom => (""%string, dom)) doms).

(** A domain whose state holds the variable "cycle". *)
Definition cycle_domain (cycle : Z) : Node :=
  Object [("state", Object [("cycle", scalar_i32 cycle)])]%string.

(** A domain that holds "f" with the given values node and no topology. *)
Definition values_domain (values : Node) : Node :=
  Object [("fields",
           Object [("f", Object [("association", Str "vertex");
                                 ("values", values)])])]%string.

(** A worker has a domain that holds the field with float32 values. *)
Definition worker_has_float32 (field : string) (dataset : Node) : bool :=
  existsb (fun dom =>
             holds field dom
             && match fetch dom (values_path field) with
                | Ok n => is_float32 n
                | Err _ => false
                end)
          (domains dataset).

(** [n] in the slot of the topology type [ty], 0 in the other four. *)
Definition slot_counts (ty : string) (n : Z) : list Z :=
  [if String.eqb ty "points" then n else 0;
   if String.eqb ty "uniform" then n else 0;
   if String.eqb ty "rectilinear" then n else 0;
   if String.eqb ty "structured" then n else 0;
   if String.eqb ty "unstructured" then n else 0].

(** A domain with one topology "mesh" of type [ty] and no coordinates. *)
Definition typed_domain (ty : string) : Node :=
  Object [("topologies",
           Object [("mesh", Object [("type", Str ty);
                                    ("coordset", Str "coords")])])]%string.

(** The corners of the cell with logical index (i, j) on a 2D vertex grid of
    [vd0] vertices per row: a single ring. *)
Definition structured_corners_2d (vd0 i j : Z) : list Z :=
  let v := j * vd0 + i in
  [v; v + 1; v + 1 + vd0; v + vd0].

(** A uniform coordinate set of 3 x 4 x 2 vertices. *)
Definition box_coords : Node :=
  Object [("type", Str "uniform");
          ("dims", Object [("i", scalar_i32 3); ("j", scalar_i32 4);
                           ("k", scalar_i32 2)]);
          ("origin", Object [("x", scalar_f64 1); ("y", scalar_f64 0);
                             ("z", scalar_f64 0)]);
          ("spacing", Object [("dx", scalar_f64 (1 # 2));
                              ("dy", scalar_f64 2);
                              ("dz", scalar_f64 1)])]%string.

Definition box_uniform : UniformCoords :=
  mkUniformCoords (mkv 1 0 0) (mkv (1 # 2) 2 1) (mk3 3 4 2) false.



(** A domain over a rectilinear coordinate set with the given axes. *)
Definition rectilinear_coords (xs ys : list Q) (zs : option (list Q)) : Node :=
  Object [("type", Str "rectilinear");
          ("values",
           Object (("x", Float64 xs) :: ("y", Float64 ys)
                   :: match zs with
                      | None => []
                      | Some l => [("z", Float64 l)]
                      end))]%string.

Definition rectilinear_topo : Node :=
  Object [("type", Str "rectilinear"); ("coordset", Str "coords")]%string.

Definition rectilinear_domain (xs ys : list Q) (zs : option (list Q)) : Node :=
  Object [("coordsets", Object [("coords", rectilinear_coords xs ys zs)]);
          ("topologies", Object [("mesh", rectilinear_topo)])]%string.

(** The path that decides whether a coordinate set of type [c_type] is 3D. *)
Definition third_axis (c_type : string) : path :=
  if String.eqb c_type "uniform" then ["dims"; "k"]%string
  else ["values"; "z"]%string.

(** A domain with the topology "mesh" over a uniform coordinate set, with or
    without a third extent. *)
Definition uniform_domain (with_k : bool) : Node :=
  Object [("coordsets",
           Object [("coords",
                    Object [("type", Str "uniform");
                            ("dims",
                             Object (("i", scalar_i32 2) :: ("j", scalar_i32 2)
                                     :: if with_k then [("k", scalar_i32 2)]
                                        else []))])]);
          ("topologies",
           Object [("mesh", Object [("type", Str "uniform");
                                    ("coordset", Str "coords")])])]%string.

(** A worker with one domain, which holds "f" with the values 1/2 and 3/2:
    over [0, 2] in two bins its histogram is [1, 1]. *)
Definition hist_dataset : Node :=
  dataset_of [values_domain (Float64 [1 # 2; 3 # 2]%Q)].

(** The winner of an extremum scan is the extremum of one domain: the scan
    has kept its initial value and no domain, or its value and index are
    those that [array_ext] returns for the values of the tracked domain. *)
Definition winner_attained (array_ext : Node -> result (Q * Z)) (init : Q)
           (dataset : Node) (field : string) (st : extremum) : Prop :=
  (ext_domain st = -1 /\ ext_value st = init)
  \/ exists dom n,
      child dataset (ext_domain st) = Ok dom
      /\ fetch dom (values_path field) = Ok n
      /\ array_ext n = Ok (ext_value st, ext_index st).

(** The extremum [a] that [array_ext] finds on the domain at index [i]. *)
Definition domain_extremum (array_ext : Node -> result (Q * Z))
           (dataset : Node) (field : string) (i : Z) (a : Q) : Prop :=
  exists dom n idx,
    child dataset i = Ok dom
    /\ holds field dom = true
    /\ fetch dom (values_path field) = Ok n
    /\ array_ext n = Ok (a, idx).

(* ================================================================== *)
(** * Properties *)

(** ** The error monad and the loops *)

Lemma bind_ok_inv {A B : Type} (m : result A) (k : A -> result B) (b : B) :
  bind m k = Ok b -> exists a, m = Ok a /\ k a = Ok b.
Proof.
  destruct m as [a|e]; simpl; intros H; [exists a; auto | discriminate].
Qed.

Lemma Qltb_true (x y : Q) : Qltb x y = true <-> (x < y)%Q.
Proof.
  unfold Qltb. rewrite negb_true_iff.
  split; intros H.
  - apply Qnot_le_lt. intros Hle. apply Qle_bool_iff in Hle. congruence.
  - destruct (Qle_bool y x) eqn:E; auto.
    apply Qle_bool_iff in E. exfalso. apply (Qlt_not_le _ _ H E).
Qed.

Lemma Qltb_false (x y : Q) : Qltb x y = false <-> (y <= x)%Q.
Proof.
  unfold Qltb. rewrite negb_false_iff. apply Qle_bool_iff.
Qed.

Lemma array_get_nth {A : Type} (a : list A) (n : nat) :
  array_get a (Z.of_nat n) =
  match nth_error a n with Some x => Ok x | None => Err OutOfBounds end.
Proof.
  unfold array_get.
  destruct (Z.of_nat n <? 0) eqn:E; [apply Z.ltb_lt in E; lia|].
  now rewrite Nat2Z.id.
Qed.

Lemma array_get_ok {A : Type} (a : list A) (i : Z) (x : A) :
  array_get a i = Ok x ->
  0 <= i < Z.of_nat (List.length a) /\ nth_error a (Z.to_nat i) = Some x.
Proof.
  unfold array_get. destruct (i <? 0) eqn:E; [discriminate|].
  apply Z.ltb_ge in E.
  destruct (nth_error a (Z.to_nat i)) as [y|] eqn:N; [|discriminate].
  intros H; injection H as ->. split; [|reflexivity].
  assert (Hlt : (Z.to_nat i < List.length a)%nat)
    by (apply nth_error_Some; congruence).
  lia.
Qed.

(* ------------------------------------------------------------------ *)
(** ** Index arithmetic *)

Lemma wrap_int_small (z : Z) : - 2 ^ 31 <= z <= INT_MAX -> wrap_int z = z.
Proof.
  unfold wrap_int, INT_MAX. intros H.
  rewrite Z.mod_small by lia. lia.
Qed.

Lemma int_mul_small (a b : Z) :
  - 2 ^ 31 <= a * b <= INT_MAX -> int_mul a b = a * b.
Proof. apply wrap_int_small. Qed.




(* ------------------------------------------------------------------ *)
(** ** quantile *)

Lemma to_double_eq0 (z : Z) : z <> 0 -> Qeq_bool (to_double z) 0 = false.
Proof.
  intros Hz. destruct (Qeq_bool (to_double z) 0) eqn:E; [|reflexivity].
  apply Qeq_bool_iff in E. unfold to_double, Qeq in E. simpl in E. lia.
Qed.

Lemma bin_boundary_edge (h : hist_view) (bin : Z) :
  hv_num_bins h <> 0 -> bin_boundary h bin = Ok (bin_edge h bin).
Proof.
  intros Hn. unfold bin_boundary, ddiv.
  now rewrite (to_double_eq0 _ Hn).
Qed.

Lemma bin_edge_succ (h : hist_view) (bin : Z) :
  hv_num_bins h <> 0 ->
  (bin_edge h (bin + 1) == bin_edge h bin + bin_width h)%Q.
Proof.
  intros Hn. unfold bin_edge, bin_width, to_double.
  rewrite inject_Z_plus.
  assert (Hq : ~ (inject_Z (hv_num_bins h) == 0)%Q).
  { intros E. unfold Qeq in E. simpl in E. lia. }
  field. exact Hq.
Qed.

Lemma quantile_scan_ok (rest : list Q) (val : Q) (b0 bin : Z) :
  quantile_scan rest val b0 = Ok bin ->
  exists n c, bin = b0 + Z.of_nat n /\ nth_error rest n = Some c /\
              (val <= c)%Q /\
              forall m c', (m < n)%nat -> nth_error rest m = Some c' ->
                           (c' < val)%Q.
Proof.
  revert b0. induction rest as [|c rest IH]; intros b0; simpl; [discriminate|].
  destruct (Qltb c val) eqn:E.
  - intros H. destruct (IH _ H) as (n & c1 & -> & Hn & Hc & Hlt).
    exists (S n), c1. repeat split; auto; [lia|].
    intros [|m] c' Hm Hc'; simpl in Hc'.
    + injection Hc' as <-. now apply Qltb_true.
    + apply (Hlt m); [lia | assumption].
  - intros H; injection H as <-. exists 0%nat, c.
    repeat split; auto; [lia | now apply Qltb_false | intros m c' Hm; lia].
Qed.

Lemma quantile_scan_complete (rest : list Q) (val : Q) (b0 : Z) (n : nat) (c : Q) :
  nth_error rest n = Some c -> (val <= c)%Q ->
  (forall m c', (m < n)%nat -> nth_error rest m = Some c' -> (c' < val)%Q) ->
  quantile_scan rest val b0 = Ok (b0 + Z.of_nat n).
Proof.
  revert b0 n. induction rest as [|c0 rest IH]; intros b0 n Hn Hc Hlt.
  - destruct n; discriminate.
  - simpl. destruct n as [|n]; simpl in Hn.
    + injection Hn as ->.
      replace (Qltb c val) with false
        by (symmetry; now apply Qltb_false).
      f_equal. lia.
    + replace (Qltb c0 val) with true
        by (symmetry; apply Qltb_true; apply (Hlt 0%nat); [lia | reflexivity]).
      rewrite (IH (b0 + 1) n Hn Hc).
      * f_equal. lia.
      * intros m c' Hm Hc'. apply (Hlt (S m)); [lia | exact Hc'].
Qed.

Lemma quantile_scan_past_end (rest : list Q) (val : Q) (b0 : Z) :
  Forall (fun c => (c < val)%Q) rest ->
  quantile_scan rest val b0 = Err OutOfBounds.
Proof.
  intros H. revert b0. induction H as [|c rest Hc _ IH]; intros b0; simpl.
  - reflexivity.
  - replace (Qltb c val) with true by (symmetry; now apply Qltb_true).
    apply IH.
Qed.

Lemma smallest_bin_scan (cdf_bins : list Q) (val : Q) (b : Z) :
  smallest_bin_at_least cdf_bins val b ->
  quantile_scan cdf_bins val 0 = Ok b.
Proof.
  intros [(c & Hc & Hle) Hlt].
  destruct (array_get_ok _ _ _ Hc) as [Hb Hn].
  replace b with (0 + Z.of_nat (Z.to_nat b)) at 1 by lia.
  apply (quantile_scan_complete _ _ _ _ c Hn Hle).
  intros m c' Hm Hc'. apply (Hlt (Z.of_nat m)); [lia|].
  rewrite array_get_nth, Hc'. reflexivity.
Qed.

Lemma scan_smallest_bin (cdf_bins : list Q) (val : Q) (b : Z) :
  quantile_scan cdf_bins val 0 = Ok b ->
  smallest_bin_at_least cdf_bins val b.
Proof.
  intros H. destruct (quantile_scan_ok _ _ _ _ H) as (n & c & -> & Hn & Hc & Hlt).
  simpl. split.
  - exists c. rewrite array_get_nth, Hn. auto.
  - intros b' c' Hb' Hc'. destruct (array_get_ok _ _ _ Hc') as [_ Hn'].
    apply (Hlt (Z.to_nat b')); [lia | exact Hn'].
Qed.

(** The bin that [quantile] settles on, from the smallest bin reaching
    [val]. *)
Lemma quantile_bin_settled (cdf_bins : list Q) (val c : Q) (b : Z) :
  smallest_bin_at_least cdf_bins val b ->
  array_get cdf_bins b = Ok c ->
  quantile_bin cdf_bins val = Ok (if Qeq_bool c val then b else b - 1).
Proof.
  intros Hs Hc. unfold quantile_bin.
  rewrite (smallest_bin_scan _ _ _ Hs). simpl. rewrite Hc. simpl.
  destruct Hs as [(c1 & Hc1 & Hle) _].
  rewrite Hc in Hc1. injection Hc1 as <-.
  destruct (Qeq_bool c val) eqn:E.
  - apply Qeq_bool_iff in E.
    replace (Qltb val c) with false; [reflexivity|].
    symmetry. apply Qltb_false. rewrite E. apply Qle_refl.
  - apply Qeq_bool_neq in E.
    replace (Qltb val c) with true; [reflexivity|].
    symmetry. apply Qltb_true.
    apply Qle_lteq in Hle. destruct Hle as [Hlt|Heq]; [exact Hlt|].
    exfalso. apply E. now symmetry.
Qed.

Lemma quantile_value_lower (cdf : Node) (h : hist_view) (val c : Q) (b : Z) :
  read_hist cdf = Ok h -> hv_num_bins h <> 0 ->
  smallest_bin_at_least (hv_bins h) val b ->
  array_get (hv_bins h) b = Ok c ->
  quantile_value cdf val "lower"
  = Ok (Some (bin_edge h (if Qeq_bool c val then b else b - 1))).
Proof.
  intros Hr Hn Hs Hc. unfold quantile_value. rewrite Hr. simpl.
  rewrite (quantile_bin_settled _ _ _ _ Hs Hc). simpl.
  rewrite !bin_boundary_edge by assumption. reflexivity.
Qed.

Lemma quantile_value_higher (cdf : Node) (h : hist_view) (val c : Q) (b : Z) :
  read_hist cdf = Ok h -> hv_num_bins h <> 0 ->
  smallest_bin_at_least (hv_bins h) val b ->
  array_get (hv_bins h) b = Ok c ->
  quantile_value cdf val "higher"
  = Ok (Some (bin_edge h ((if Qeq_bool c val then b else b - 1) + 1))).
Proof.
  intros Hr Hn Hs Hc. unfold quantile_value. rewrite Hr. simpl.
  rewrite (quantile_bin_settled _ _ _ _ Hs Hc). simpl.
  rewrite !bin_boundary_edge by assumption. reflexivity.
Qed.

(** The bin that [quantile] settles on.  On a cdf node with a nonzero
    [num_bins], [quantile] finds the smallest bin [b] with [cdf[b] >= val]
    and settles on [b] when [cdf[b] = val] and on [b - 1] when
    [cdf[b] > val]; the boundaries [i] and [j = i + width] are those of the
    settled bin, "lower" returns [i] and "higher" returns [j].  So
    [quantile(cdf, cdf(b), "lower")] is the left boundary of bin [b] for
    every bin [b] whose cdf value is larger than the value of every bin
    before it. *)
Theorem quantile_settled_bin (cdf : Node) (h : hist_view) :
  read_hist cdf = Ok h -> hv_num_bins h <> 0 ->
  (forall (val c : Q) (b : Z),
      smallest_bin_at_least (hv_bins h) val b ->
      array_get (hv_bins h) b = Ok c ->
      let bin := if Qeq_bool c val then b else b - 1 in
      quantile_value cdf val "lower" = Ok (Some (bin_edge h bin)) /\
      quantile_value cdf val "higher" = Ok (Some (bin_edge h (bin + 1))) /\
      (bin_edge h (bin + 1) == bin_edge h bin + bin_width h)%Q)
  /\
  (forall (c : Q) (b : Z),
      array_get (hv_bins h) b = Ok c ->
      (forall b' c', 0 <= b' < b -> array_get (hv_bins h) b' = Ok c' ->
                     (c' < c)%Q) ->
      quantile_value cdf c "lower" = Ok (Some (bin_edge h b))).
Proof.
  intros Hr Hn. split.
  - intros val c b Hs Hc bin. subst bin. repeat split.
    + now apply quantile_value_lower.
    + now apply quantile_value_higher.
    + now apply bin_edge_succ.
  - intros c b Hc Hlt.
    assert (Hs : smallest_bin_at_least (hv_bins h) c b).
    { split; [exists c; split; [exact Hc | apply Qle_refl] | exact Hlt]. }
    rewrite (quantile_value_lower cdf h c c b Hr Hn Hs Hc).
    now rewrite Qeq_bool_refl.
Qed.

Lemma quantile_settled_bin_witness :
  let cdf := hist_node [1 # 2; 1]%Q 0 2 2 in
  let h := mkHistView [1 # 2; 1]%Q 2 0 2 in
  quantile_value cdf (3 # 4) "lower" = Ok (Some (bin_edge h 0)) /\
  quantile_value cdf 1 "lower" = Ok (Some (bin_edge h 1)).
Proof.
  intros cdf h.
  assert (Hn : hv_num_bins h <> 0) by (simpl; lia).
  destruct (quantile_settled_bin cdf h eq_refl Hn) as [H1 H2].
  split.
  - apply (H1 (3 # 4)%Q 1%Q 1).
    + split.
      * exists 1%Q. split; [reflexivity | unfold Qle; simpl; lia].
      * intros b' c' Hb' Hc'. assert (b' = 0) by lia. subst b'.
        injection Hc' as <-. unfold Qlt; simpl; lia.
    + reflexivity.
  - apply (H2 1%Q 1); [reflexivity|].
    intros b' c' Hb' Hc'. assert (b' = 0) by lia. subst b'.
    injection Hc' as <-. unfold Qlt; simpl; lia.
Defined.

(** C1.  The step back after the scan takes [quantile] off the bin that
    the claim names.  On the cdf [1/2, 1] over [0, 2] in two bins:
    for val = 3/4 the smallest bin reaching val is bin 1, with boundaries 1
    and 2, and the code returns 0 for "lower" and 1 for "higher", the
    boundaries of bin 0, whose cdf value 1/2 is below val; for val = 1/8,
    below the first cdf value, the smallest bin is bin 0 and the code
    settles on bin -1: "lower" returns -1, left of [min_val], and "linear"
    reads [cdf[-1]]. *)
Theorem quantile_step_back_divergence :
  let cdf := hist_node [1 # 2; 1]%Q 0 2 2 in
  let h := mkHistView [1 # 2; 1]%Q 2 0 2 in
  read_hist cdf = Ok h
  /\ (smallest_bin_at_least (hv_bins h) (3 # 4) 1
      /\ (bin_edge h 1 == 1)%Q
      /\ quantile_bin (hv_bins h) (3 # 4) = Ok 0
      /\ exists i j,
          quantile cdf (3 # 4) "lower"
          = Ok (Object [("value", scalar_f64 i)]%string)
          /\ quantile cdf (3 # 4) "higher"
             = Ok (Object [("value", scalar_f64 j)]%string)
          /\ (i == 0)%Q /\ (j == 1)%Q
          /\ ~ (i == bin_edge h 1)%Q)
  /\ (smallest_bin_at_least (hv_bins h) (1 # 8) 0
      /\ (bin_edge h 0 == hv_min_val h)%Q
      /\ quantile_bin (hv_bins h) (1 # 8) = Ok (-1)
      /\ (exists i,
             quantile cdf (1 # 8) "lower"
             = Ok (Object [("value", scalar_f64 i)]%string)
             /\ (i == -1)%Q /\ (i < hv_min_val h)%Q)
      /\ quantile cdf (1 # 8) "linear" = Err OutOfBounds).
Proof.
  cbv zeta. split; [reflexivity|]. split.
  - split.
    { split.
      - exists 1%Q. split; [reflexivity | unfold Qle; simpl; lia].
      - intros b' c' Hb' Hc'. assert (b' = 0) by lia. subst b'.
        injection Hc' as <-. unfold Qlt; simpl; lia. }
    split; [reflexivity|]. split; [reflexivity|].
    eexists. eexists.
    split; [vm_compute; reflexivity|]. split; [vm_compute; reflexivity|].
    split; [reflexivity|]. split; [reflexivity|].
    intros E; vm_compute in E; discriminate.
  - split.
    { split.
      - exists (1 # 2)%Q. split; [reflexivity | unfold Qle; simpl; lia].
      - intros b' c' Hb' Hc'. lia. }
    split; [reflexivity|]. split; [reflexivity|].
    split; [|vm_compute; reflexivity].
    eexists. split; [vm_compute; reflexivity|].
    split; [reflexivity | reflexivity].
Qed.

(** A bin without mass has the cdf value of the bin before it, and the scan
    stops at the first of them: with cdf = [1/2, 1/2, 1] over [0, 3],
    [quantile(cdf, cdf(1), "lower")] is 0, the left boundary of bin 0. *)
Example quantile_zero_mass_bin :
  array_get [1 # 2; 1 # 2; 1]%Q 1 = Ok (1 # 2)%Q
  /\ smallest_bin_at_least [1 # 2; 1 # 2; 1]%Q (1 # 2) 0
  /\ exists q, quantile_value (hist_node [1 # 2; 1 # 2; 1]%Q 0 3 3) (1 # 2) "lower"
               = Ok (Some q)
               /\ (q == 0)%Q.
Proof.
  split; [reflexivity|]. split.
  - split.
    + exists (1 # 2)%Q. split; [reflexivity | unfold Qle; simpl; lia].
    + intros b' c' Hb' Hc'. lia.
  - eexists. split; [vm_compute; reflexivity | reflexivity].
Qed.

Lemma quantile_scan_total (rest : list Q) (val : Q) (b0 : Z) :
  Exists (fun c => (val <= c)%Q) rest ->
  exists bin, quantile_scan rest val b0 = Ok bin.
Proof.
  intros H. revert b0. induction H as [c rest Hc | c rest _ IH]; intros b0; simpl.
  - exists b0. replace (Qltb c val) with false; [reflexivity|].
    symmetry. now apply Qltb_false.
  - destruct (Qltb c val); [apply IH | now exists b0].
Qed.

Lemma sorted_below_last (l : list Q) (x : Q) :
  StronglySorted Qle l ->
  nth_error l (List.length l - 1) = Some x ->
  Forall (fun c => (c <= x)%Q) l.
Proof.
  intros Hs. induction Hs as [|a l Hs IH Ha]; intros Hx; [constructor|].
  destruct l as [|a' l'].
  - simpl in Hx. injection Hx as ->. constructor; [apply Qle_refl | constructor].
  - assert (Hx' : nth_error (a' :: l') (List.length (a' :: l') - 1) = Some x).
    { simpl in *. now rewrite Nat.sub_0_r in *. }
    constructor; [|apply IH; exact Hx'].
    rewrite Forall_forall in Ha. apply Ha.
    eapply nth_error_In; exact Hx'.
Qed.

(** C6.  The scan of [quantile] is guarded by nothing but the cdf values.
    When the last entry [cdf[num_bins - 1]] is at least [val], the scan stops
    at a bin below [num_bins] without reading past the array; when the cdf
    is non-decreasing and [val] is larger than its last entry, the scan
    reads past the end of the array, and so does [quantile] whatever the
    interpolation. *)
Theorem quantile_scan_unguarded (cdf : Node) (h : hist_view) (val last : Q) :
  read_hist cdf = Ok h ->
  hv_num_bins h = Z.of_nat (List.length (hv_bins h)) ->
  array_get (hv_bins h) (hv_num_bins h - 1) = Ok last ->
  ((val <= last)%Q ->
   exists bin, quantile_scan (hv_bins h) val 0 = Ok bin /\
               0 <= bin < hv_num_bins h)
  /\
  (StronglySorted Qle (hv_bins h) -> (last < val)%Q ->
   quantile_scan (hv_bins h) val 0 = Err OutOfBounds /\
   forall interpolation, quantile cdf val interpolation = Err OutOfBounds).
Proof.
  intros Hr Hn Hlast.
  destruct (array_get_ok _ _ _ Hlast) as [Hrange Hnth].
  split.
  - intros Hle.
    assert (Hex : Exists (fun c => (val <= c)%Q) (hv_bins h)).
    { apply Exists_exists. exists last. split; [|exact Hle].
      eapply nth_error_In; exact Hnth. }
    destruct (quantile_scan_total _ _ 0 Hex) as [bin Hbin].
    exists bin. split; [exact Hbin|].
    destruct (quantile_scan_ok _ _ _ _ Hbin) as (n & c & -> & Hc & _).
    assert ((n < List.length (hv_bins h))%nat)
      by (apply nth_error_Some; congruence).
    lia.
  - intros Hs Hlt.
    assert (Hscan : quantile_scan (hv_bins h) val 0 = Err OutOfBounds).
    { apply quantile_scan_past_end.
      assert (Hb : Forall (fun c => (c <= last)%Q) (hv_bins h)).
      { apply sorted_below_last; [exact Hs|].
        replace (List.length (hv_bins h) - 1)%nat
          with (Z.to_nat (hv_num_bins h - 1)) by lia.
        exact Hnth. }
      eapply Forall_impl; [|exact Hb].
      intros c Hc. simpl in Hc. eapply Qle_lt_trans; eassumption. }
    split; [exact Hscan|].
    intros interpolation. unfold quantile, quantile_value, quantile_bin.
    rewrite Hr. simpl. rewrite Hscan. reflexivity.
Qed.

Lemma quantile_scan_unguarded_witness :
  let cdf := hist_node [1 # 2; 1]%Q 0 2 2 in
  let h := mkHistView [1 # 2; 1]%Q 2 0 2 in
  (exists bin, quantile_scan (hv_bins h) (3 # 4) 0 = Ok bin /\
               0 <= bin < hv_num_bins h)
  /\ quantile cdf (3 # 2) "lower" = Err OutOfBounds.
Proof.
  intros cdf h.
  split.
  - apply (quantile_scan_unguarded cdf h (3 # 4)%Q 1%Q eq_refl eq_refl eq_refl).
    unfold Qle; simpl; lia.
  - apply (quantile_scan_unguarded cdf h (3 # 2)%Q 1%Q eq_refl eq_refl eq_refl).
    + repeat constructor; unfold Qle; simpl; lia.
    + unfold Qlt; simpl; lia.
Defined.

(* ------------------------------------------------------------------ *)
(** ** Index loops as loops over the elements *)

Lemma foldM_ext_in {A St : Type} (f g : St -> A -> result St) (l : list A) (s : St) :
  (forall s a, In a l -> f s a = g s a) -> foldM f l s = foldM g l s.
Proof.
  revert s. induction l as [|a l IH]; intros s H; simpl; [reflexivity|].
  rewrite (H s a (or_introl eq_refl)).
  destruct (g s a) as [s'|e]; simpl; [|reflexivity].
  apply IH. intros s0 a0 Hin. apply H. now right.
Qed.

(** A loop that reads entry [i] of a sequence at iterate [i] is a loop over
    the entries. *)
Lemma foldM_read_loop {A St : Type} (get : Z -> result A)
      (g : St -> Z -> A -> result St) (l : list A) (off : nat) (s : St) :
  (forall n x, nth_error l n = Some x -> get (Z.of_nat (off + n)) = Ok x) ->
  foldM (fun s i => x <- get i ;; g s i x)
        (map Z.of_nat (seq off (List.length l))) s
  = foldM (fun s ix => g s (fst ix) (snd ix))
          (combine (map Z.of_nat (seq off (List.length l))) l) s.
Proof.
  revert off s. induction l as [|x l IH]; intros off s Hget; simpl.
  - reflexivity.
  - assert (Hx : get (Z.of_nat off) = Ok x).
    { specialize (Hget 0%nat x eq_refl). now rewrite Nat.add_0_r in Hget. }
    rewrite Hx. simpl.
    destruct (g s (Z.of_nat off) x) as [s'|e]; simpl; [|reflexivity].
    apply IH. intros n y Hn.
    replace (S off + n)%nat with (off + S n)%nat by lia.
    now apply Hget.
Qed.

Lemma foldM_combine_snd {A B St : Type} (g : St -> B -> result St)
      (ixs : list A) (l : list B) (s : St) :
  List.length ixs = List.length l ->
  foldM (fun s ix => g s (snd ix)) (combine ixs l) s = foldM g l s.
Proof.
  revert ixs s. induction l as [|x l IH]; intros [|i ixs] s Hlen; simpl in *;
    try reflexivity; try discriminate.
  destruct (g s x) as [s'|e]; simpl; [|reflexivity].
  apply IH. lia.
Qed.

Lemma child_nth (cs : list (string * Node)) (n : nat) (dom : Node) :
  nth_error (map snd cs) n = Some dom ->
  child (Object cs) (Z.of_nat (0 + n)) = Ok dom.
Proof.
  intros H. unfold child. simpl.
  destruct (Z.of_nat n <? 0) eqn:E; [apply Z.ltb_lt in E; lia|].
  rewrite Nat2Z.id. rewrite nth_error_map in H.
  destruct (nth_error cs n) as [[k c]|]; simpl in H; [|discriminate].
  now injection H as ->.
Qed.

(** The domains of a dataset, in order. *)
Lemma domain_loop {St : Type} (g : St -> Node -> result St) (dataset : Node) (s : St) :
  foldM (fun s i => dom <- child dataset i ;; g s dom)
        (domain_indices dataset) s
  = foldM g (map snd (children dataset)) s.
Proof.
  unfold domain_indices, range.
  destruct dataset as [|cs| | | | |]; try reflexivity.
  simpl number_of_children. rewrite Nat2Z.id. simpl children.
  rewrite <- (length_map snd cs).
  rewrite (foldM_read_loop (child (Object cs)) (fun s _ dom => g s dom)
             (map snd cs) 0 s (child_nth cs)).
  apply foldM_combine_snd.
  now rewrite length_map, length_seq.
Qed.

Lemma array_loop {A St : Type} (g : St -> A -> result St) (a : list A) (s : St) :
  foldM (fun s b => h <- array_get a b ;; g s h)
        (range (Z.of_nat (List.length a))) s
  = foldM g a s.
Proof.
  unfold range. rewrite Nat2Z.id.
  rewrite (foldM_read_loop (array_get a) (fun s _ h => g s h) a 0 s).
  - apply foldM_combine_snd. now rewrite length_map, length_seq.
  - intros n x Hn. simpl. now rewrite array_get_nth, Hn.
Qed.

Lemma mapM_ok_map {A B : Type} (f : A -> result B) (g : A -> B) (l : list A) :
  (forall a, In a l -> f a = Ok (g a)) -> mapM f l = Ok (map g l).
Proof.
  induction l as [|a l IH]; intros H; simpl; [reflexivity|].
  rewrite (H a (or_introl eq_refl)). simpl.
  rewrite IH by (intros a0 Hin; apply H; now right).
  reflexivity.
Qed.

Lemma mapM_read_loop {A B : Type} (f : A -> result B) (a : list A) (off : nat)
      (pre : list A) :
  List.length pre = off ->
  mapM (fun b => h <- array_get (pre ++ a) b ;; f h)
       (map Z.of_nat (seq off (List.length a)))
  = mapM f a.
Proof.
  revert off pre. induction a as [|x a IH]; intros off pre Hlen; simpl.
  - reflexivity.
  - rewrite array_get_nth, nth_error_app2 by lia.
    replace (off - List.length pre)%nat with 0%nat by lia. simpl.
    destruct (f x) as [y|e]; simpl; [|reflexivity].
    replace (pre ++ x :: a) with ((pre ++ [x]) ++ a)
      by (rewrite <- app_assoc; reflexivity).
    rewrite (IH (S off) (pre ++ [x])); [reflexivity|].
    rewrite length_app. simpl. lia.
Qed.

Lemma mapM_array_loop {A B : Type} (f : A -> result B) (a : list A) :
  mapM (fun b => h <- array_get a b ;; f h) (range (Z.of_nat (List.length a)))
  = mapM f a.
Proof.
  unfold range. rewrite Nat2Z.id.
  apply (mapM_read_loop f a 0 []). reflexivity.
Qed.

(* ------------------------------------------------------------------ *)
(** ** Sums of doubles *)

Lemma Qsum_fold (l : list Q) (a : Q) :
  (fold_left Qplus l a == a + Qsum l)%Q.
Proof.
  unfold Qsum. revert a. induction l as [|x l IH]; intros a; simpl.
  - ring.
  - rewrite (IH (a + x)%Q), (IH (0 + x)%Q). ring.
Qed.

Lemma Qsum_cons (x : Q) (l : list Q) : (Qsum (x :: l) == x + Qsum l)%Q.
Proof.
  unfold Qsum at 1. simpl. rewrite Qsum_fold. ring.
Qed.

Lemma Qsum_app (l1 l2 : list Q) : (Qsum (l1 ++ l2) == Qsum l1 + Qsum l2)%Q.
Proof.
  induction l1 as [|x l1 IH]; simpl.
  - unfold Qsum at 2. simpl. ring.
  - rewrite !Qsum_cons, IH. ring.
Qed.

(* ------------------------------------------------------------------ *)
(** ** field_sum, field_avg *)

Lemma field_sum_loop (doms : list Node) (field : string)
      (arrays : list (list Q)) (s : Q) (c : Z) :
  field_arrays doms field = Ok arrays ->
  exists s',
    foldM (fun (st : Q * Z) dom =>
             if has_path dom (field_path field) then
               n_values <- fetch dom (values_path field) ;;
               '(a_sum, a_count) <- array_sum n_values ;;
               Ok ((fst st + a_sum)%Q, snd st + a_count)
             else Ok st)
          doms (s, c)
    = Ok (s', c + Z.of_nat (List.length (List.concat arrays)))
    /\ (s' == s + Qsum (List.concat arrays))%Q.
Proof.
  revert arrays s c. induction doms as [|dom doms IH]; intros arrays s c;
    cbn [field_arrays foldM].
  - intros H; injection H as <-. exists s. simpl. split.
    + f_equal. f_equal. lia.
    + unfold Qsum; simpl. ring.
  - destruct (has_path dom (field_path field)).
    + destruct (fetch dom (values_path field)) as [n|e]; cbn [bind];
        [|discriminate].
      intros H. apply bind_ok_inv in H. destruct H as (a & Ha & H).
      apply bind_ok_inv in H. destruct H as (rest & Hrest & H).
      injection H as <-.
      assert (Hsum : array_sum n = Ok (Qsum a, Z.of_nat (List.length a))).
      { destruct n; simpl in Ha; try discriminate;
          injection Ha as ->; reflexivity. }
      rewrite Hsum. cbn [bind fst snd].
      destruct (IH rest (s + Qsum a)%Q (c + Z.of_nat (List.length a)) Hrest)
        as (s' & Hs' & Heq).
      exists s'. cbn [List.concat]. split.
      * rewrite Hs'. f_equal. f_equal. rewrite length_app. lia.
      * rewrite Heq, Qsum_app. ring.
    + intros H. apply IH. exact H.
Qed.

Lemma field_sum_value (dataset : Node) (field : string)
      (arrays : list (list Q)) :
  field_arrays (domains dataset) field = Ok arrays ->
  exists sum,
    field_sum dataset field
    = Ok (Object [("value", scalar_f64 sum);
                  ("count",
                   scalar_i64 (Z.of_nat (List.length (List.concat arrays))))]%string)
    /\ (sum == Qsum (List.concat arrays))%Q.
Proof.
  intros H. unfold field_sum.
  rewrite (foldM_ext_in _
             (fun st i =>
                dom <- child dataset i ;;
                (fun (st : Q * Z) dom =>
                   if has_path dom (field_path field) then
                     n_values <- fetch dom (values_path field) ;;
                     '(a_sum, a_count) <- array_sum n_values ;;
                     Ok ((fst st + a_sum)%Q, snd st + a_count)
                   else Ok st) st dom)).
  2:{ intros [s c] i _. reflexivity. }
  rewrite domain_loop.
  unfold domains in H.
  destruct (field_sum_loop _ _ _ 0%Q 0 H) as (s' & Hs' & Heq).
  rewrite Hs'. cbn [bind Z.add].
  exists s'. split; [reflexivity|]. rewrite Heq. ring.
Qed.

(** C3.  [field_sum] returns the sum of the field's values over the domains
    that hold the field, with their count; when the count is nonzero,
    [field_avg] returns that sum divided by that count, and when it is zero
    the division yields no number.  On the two-domain
    scenario, the sum is 45, the count 10 and the average 4.5. *)
Theorem field_sum_avg_spec :
  (forall (dataset : Node) (field : string) (arrays : list (list Q)),
      field_arrays (domains dataset) field = Ok arrays ->
      let values := List.concat arrays in
      let count := Z.of_nat (List.length values) in
      (exists sum,
          field_sum dataset field
          = Ok (Object [("value", scalar_f64 sum);
                        ("count", scalar_i64 count)]%string)
          /\ (sum == Qsum values)%Q)
      /\
      (count <> 0 ->
       exists avg,
         field_avg dataset field = Ok (Object [("value", scalar_f64 avg)]%string)
         /\ (avg == Qsum values / to_double count)%Q)
      /\
      (count = 0 -> field_avg dataset field = Err NotFinite))
  /\
  (exists sum avg,
      field_sum scenario_dataset "f"
      = Ok (Object [("value", scalar_f64 sum); ("count", scalar_i64 10)]%string)
      /\ (sum == 45)%Q
      /\ field_avg scenario_dataset "f"
         = Ok (Object [("value", scalar_f64 avg)]%string)
      /\ (avg == 9 # 2)%Q).
Proof.
  split.
  - intros dataset field arrays H values count.
    destruct (field_sum_value dataset field arrays H) as (sum & Hsum & Heq).
    split; [exists sum; auto|].
    split.
    + intros Hc. unfold field_avg. rewrite Hsum. simpl.
      unfold ddiv. fold values. fold count.
      rewrite (to_double_eq0 _ Hc). simpl.
      eexists. split; [reflexivity|].
      rewrite Heq. reflexivity.
    + intros Hc. unfold field_avg. rewrite Hsum. simpl.
      fold values. fold count. rewrite Hc. reflexivity.
  - eexists. eexists. split; [vm_compute; reflexivity|].
    split; [reflexivity|].
    split; [vm_compute; reflexivity | reflexivity].
Qed.

Lemma field_sum_avg_spec_witness :
  exists sum,
    field_sum scenario_dataset "f"
    = Ok (Object [("value", scalar_f64 sum); ("count", scalar_i64 10)]%string)
    /\ (sum == Qsum (map inject_Z [0; 1; 2; 3; 4; 5; 6; 7; 8; 9]%Z))%Q.
Proof.
  exact (proj1 (proj1 field_sum_avg_spec scenario_dataset "f"%string
                  [map inject_Z [0; 1; 2; 3; 4; 5; 6; 7; 8]; [inject_Z 9]]
                  eq_refl)).
Defined.

(* ------------------------------------------------------------------ *)
(** ** field_pdf, field_cdf *)

Lemma read_hist_bins (hist : Node) (h : hist_view) :
  read_hist hist = Ok h ->
  fetch hist (hist_path "value") = Ok (Float64 (hv_bins h)).
Proof.
  unfold read_hist, read_bins. intros H.
  apply bind_ok_inv in H. destruct H as (bins & Hb & H).
  apply bind_ok_inv in Hb. destruct Hb as (n & Hn & Hf).
  apply bind_ok_inv in H. destruct H as (nb & _ & H).
  apply bind_ok_inv in H. destruct H as (lo & _ & H).
  apply bind_ok_inv in H. destruct H as (hi & _ & H).
  injection H as <-. cbn [hv_bins].
  destruct n; try discriminate. injection Hf as ->. exact Hn.
Qed.

Lemma read_hist_sum (hist : Node) (h : hist_view) :
  read_hist hist = Ok h -> read_sum hist = Ok (Qsum (hv_bins h)).
Proof.
  intros H. unfold read_sum. now rewrite (read_hist_bins _ _ H).
Qed.

Lemma ddiv_ok (x y : Q) : ~ (y == 0)%Q -> ddiv x y = Ok (x / y)%Q.
Proof.
  intros Hy. unfold ddiv.
  destruct (Qeq_bool y 0) eqn:E; [|reflexivity].
  apply Qeq_bool_iff in E. contradiction.
Qed.

Lemma pdf_loop_ok (bins : list Q) (total : Q) :
  ~ (total == 0)%Q ->
  pdf_loop bins (Z.of_nat (List.length bins)) total = Ok (pdf_of total bins).
Proof.
  intros Ht. unfold pdf_loop. rewrite mapM_array_loop.
  apply mapM_ok_map. intros x _. now apply ddiv_ok.
Qed.

Lemma cdf_fold (bins : list Q) (total r0 : Q) (acc : list Q) :
  ~ (total == 0)%Q ->
  exists r,
    foldM (fun (st : Q * list Q) x =>
             p <- ddiv x total ;;
             Ok ((fst st + p)%Q, snd st ++ [(fst st + p)%Q]))
          bins (r0, acc)
    = Ok (r, acc ++ prefix_sums r0 (pdf_of total bins)).
Proof.
  intros Ht. revert r0 acc.
  induction bins as [|x bins IH]; intros r0 acc; cbn [foldM pdf_of map prefix_sums].
  - exists r0. now rewrite app_nil_r.
  - rewrite (ddiv_ok _ _ Ht). cbn [bind fst snd].
    destruct (IH (r0 + x / total)%Q (acc ++ [(r0 + x / total)%Q])) as (r & Hr).
    exists r. rewrite Hr. rewrite <- app_assoc. reflexivity.
Qed.

Lemma cdf_loop_ok (bins : list Q) (total : Q) :
  ~ (total == 0)%Q ->
  exists r, cdf_loop bins (Z.of_nat (List.length bins)) total
            = Ok (r, prefix_sums 0 (pdf_of total bins)).
Proof.
  intros Ht. unfold cdf_loop.
  rewrite (foldM_ext_in _
             (fun st b =>
                x <- array_get bins b ;;
                (fun (st : Q * list Q) x =>
                   p <- ddiv x total ;;
                   Ok ((fst st + p)%Q, snd st ++ [(fst st + p)%Q])) st x)).
  2:{ intros [r c] b _. reflexivity. }
  rewrite array_loop.
  destruct (cdf_fold bins total 0 [] Ht) as (r & Hr).
  exists r. exact Hr.
Qed.

Lemma prefix_sums_length (r0 : Q) (ps : list Q) :
  List.length (prefix_sums r0 ps) = List.length ps.
Proof.
  revert r0. induction ps as [|p ps IH]; intros r0; simpl; [reflexivity|].
  now rewrite IH.
Qed.

Lemma prefix_sums_nth (ps : list Q) (r0 : Q) (n : nat) (c : Q) :
  nth_error (prefix_sums r0 ps) n = Some c ->
  (c == r0 + Qsum (firstn (S n) ps))%Q.
Proof.
  revert r0 n. induction ps as [|p ps IH]; intros r0 n H.
  - destruct n; discriminate.
  - destruct n as [|n]; cbn [prefix_sums nth_error] in H.
    + injection H as <-. cbn [firstn]. rewrite Qsum_cons.
      unfold Qsum; simpl. ring.
    + apply IH in H. rewrite H.
      change (firstn (S (S n)) (p :: ps)) with (p :: firstn (S n) ps).
      rewrite Qsum_cons. ring.
Qed.

Lemma prefix_sums_sorted (ps : list Q) (r0 : Q) :
  Forall (fun p => (0 <= p)%Q) ps ->
  Forall (fun c => (r0 <= c)%Q) (prefix_sums r0 ps)
  /\ StronglySorted Qle (prefix_sums r0 ps).
Proof.
  intros H. revert r0. induction H as [|p ps Hp _ IH]; intros r0; simpl.
  - split; constructor.
  - destruct (IH (r0 + p)%Q) as [Hall Hs]. split.
    + constructor; [lra|].
      eapply Forall_impl; [|exact Hall]. intros c Hc. simpl in Hc. lra.
    + constructor; assumption.
Qed.

Lemma Qsum_pdf (total : Q) (bins : list Q) :
  ~ (total == 0)%Q -> (Qsum (pdf_of total bins) == Qsum bins / total)%Q.
Proof.
  intros Ht. induction bins as [|x bins IH]; cbn [pdf_of map].
  - unfold Qsum; simpl. field. exact Ht.
  - fold (pdf_of total bins). rewrite !Qsum_cons, IH. field. exact Ht.
Qed.

Lemma pdf_of_nonneg (total : Q) (bins : list Q) :
  (0 < total)%Q -> Forall (fun x => (0 <= x)%Q) bins ->
  Forall (fun p => (0 <= p)%Q) (pdf_of total bins).
Proof.
  intros Ht H. induction H as [|x bins Hx _ IH]; cbn [pdf_of map]; constructor.
  - apply Qle_shift_div_l; [exact Ht|]. lra.
  - exact IH.
Qed.

Lemma firstn_pdf_of (total : Q) (bins : list Q) (n : nat) :
  firstn n (pdf_of total bins) = pdf_of total (firstn n bins).
Proof. unfold pdf_of. apply firstn_map. Qed.

(** C5.  On a histogram with nonnegative counts and a positive total,
    [field_cdf] returns the running prefix sums of the pdf:
    [cdf[b]] is the sum of [bin[i] / total] over [i <= b], the cdf is
    non-decreasing and its last entry is 1; [field_pdf] returns
    [bin[i] / total], and these sum to 1. *)
Theorem field_cdf_pdf_spec (hist : Node) (h : hist_view) :
  read_hist hist = Ok h ->
  hv_num_bins h = Z.of_nat (List.length (hv_bins h)) ->
  Forall (fun x => (0 <= x)%Q) (hv_bins h) ->
  (0 < Qsum (hv_bins h))%Q ->
  let bins := hv_bins h in
  let total := Qsum bins in
  (exists cdf,
      field_cdf hist = Ok (dist_node cdf h)
      /\ cdf = prefix_sums 0 (pdf_of total bins)
      /\ List.length cdf = List.length bins
      /\ (forall b c, nth_error cdf b = Some c ->
                      (c == Qsum (pdf_of total (firstn (S b) bins)))%Q)
      /\ StronglySorted Qle cdf
      /\ (exists c, array_get cdf (hv_num_bins h - 1) = Ok c /\ (c == 1)%Q))
  /\
  (exists pdf,
      field_pdf hist = Ok (dist_node pdf h)
      /\ pdf = pdf_of total bins
      /\ (Qsum pdf == 1)%Q).
Proof.
  intros Hr Hn Hpos Htot bins total.
  assert (Ht : ~ (total == 0)%Q) by (subst total bins; lra).
  assert (Hone : (Qsum (pdf_of total bins) == 1)%Q).
  { rewrite Qsum_pdf by exact Ht. subst total. field. exact Ht. }
  split.
  - destruct (cdf_loop_ok bins total Ht) as (r & Hloop).
    exists (prefix_sums 0 (pdf_of total bins)).
    split.
    { unfold field_cdf. rewrite Hr, (read_hist_sum _ _ Hr). cbn [bind].
      rewrite Hn. fold bins. fold total. rewrite Hloop. reflexivity. }
    split; [reflexivity|].
    split; [now rewrite prefix_sums_length; unfold pdf_of; rewrite length_map|].
    split.
    { intros b c Hc. apply prefix_sums_nth in Hc.
      rewrite Hc, firstn_pdf_of. ring. }
    split.
    { apply prefix_sums_sorted. apply pdf_of_nonneg; [exact Htot | exact Hpos]. }
    assert (Hlen : (0 < List.length bins)%nat).
    { clear - Htot. subst bins.
      destruct (hv_bins h); [unfold Qsum in Htot; simpl in Htot; lra|].
      simpl. lia. }
    assert (Hplen : List.length (prefix_sums 0 (pdf_of total bins))
                    = List.length bins)
      by (rewrite prefix_sums_length; unfold pdf_of; now rewrite length_map).
    destruct (nth_error (prefix_sums 0 (pdf_of total bins))
                        (List.length bins - 1)) as [c|] eqn:Hc.
    + exists c. split.
      * rewrite Hn. fold bins.
        replace (Z.of_nat (List.length bins) - 1)
          with (Z.of_nat (List.length bins - 1)) by lia.
        now rewrite array_get_nth, Hc.
      * apply prefix_sums_nth in Hc. rewrite Hc.
        replace (S (List.length bins - 1)) with (List.length (pdf_of total bins))
          by (unfold pdf_of; rewrite length_map; lia).
        rewrite firstn_all, Hone. ring.
    + apply nth_error_None in Hc. lia.
  - exists (pdf_of total bins). split; [|split; [reflexivity | exact Hone]].
    unfold field_pdf. rewrite Hr, (read_hist_sum _ _ Hr). cbn [bind].
    rewrite Hn. fold bins. fold total. rewrite (pdf_loop_ok _ _ Ht). reflexivity.
Qed.

Lemma field_cdf_pdf_spec_witness :
  field_cdf (hist_node [1; 0; 3]%Q 0 3 3)
  = Ok (dist_node (prefix_sums 0 (pdf_of 4 [1; 0; 3]%Q))
                  (mkHistView [1; 0; 3]%Q 3 0 3)).
Proof.
  destruct (field_cdf_pdf_spec (hist_node [1; 0; 3]%Q 0 3 3)
              (mkHistView [1; 0; 3]%Q 3 0 3) eq_refl eq_refl)
    as [(cdf & Hcdf & Heq & _) _].
  - repeat constructor; unfold Qle; simpl; lia.
  - unfold Qlt; simpl; lia.
  - rewrite Hcdf, Heq. reflexivity.
Defined.

(* ------------------------------------------------------------------ *)
(** ** field_entropy *)

Lemma entropy_loop_fold (ln : Q -> Q) (bins : list Q) (sum : Q) :
  entropy_loop ln bins (Z.of_nat (List.length bins)) sum
  = foldM (entropy_step ln sum) bins 0%Q.
Proof.
  unfold entropy_loop.
  apply (array_loop (entropy_step ln sum) bins 0%Q).
Qed.

Lemma entropy_fold_skip_zero (ln : Q -> Q) (bins : list Q) (sum e : Q) :
  foldM (entropy_step ln sum) (filter nonzero bins) e
  = foldM (entropy_step ln sum) bins e.
Proof.
  revert e. induction bins as [|x bins IH]; intros e; cbn [filter foldM].
  - reflexivity.
  - unfold nonzero at 1. unfold entropy_step at 2.
    destruct (Qeq_bool x 0) eqn:E; cbn [negb bind].
    + apply IH.
    + cbn [foldM]. unfold entropy_step at 1. rewrite E. cbn [negb].
      destruct (ddiv x sum) as [p|err]; cbn [bind]; [apply IH | reflexivity].
Qed.

Lemma entropy_fold_sum (ln : Q -> Q) (bins : list Q) (total e : Q) :
  ~ (total == 0)%Q ->
  exists e',
    foldM (entropy_step ln total) bins e = Ok e'
    /\ (e' == e - Qsum (map (entropy_term ln total) bins))%Q.
Proof.
  intros Ht. revert e. induction bins as [|x bins IH]; intros e; cbn [foldM map].
  - exists e. split; [reflexivity|]. unfold Qsum; simpl. ring.
  - unfold entropy_step at 1. unfold entropy_term at 1.
    destruct (Qeq_bool x 0) eqn:E; cbn [negb bind].
    + destruct (IH e) as (e' & He' & Heq). exists e'. split; [exact He'|].
      rewrite Heq, Qsum_cons. ring.
    + rewrite (ddiv_ok _ _ Ht). cbn [bind].
      destruct (IH (e + - (x / total) * ln (x / total))%Q) as (e' & He' & Heq).
      exists e'. split; [exact He'|].
      rewrite Heq, Qsum_cons. ring.
Qed.

Lemma read_bins_sum (hist : Node) (bins : list Q) :
  read_bins hist = Ok bins -> read_sum hist = Ok (Qsum bins).
Proof.
  unfold read_bins, read_sum. intros H.
  apply bind_ok_inv in H. destruct H as (n & Hn & Hf).
  rewrite Hn. destruct n; try discriminate.
  injection Hf as ->. reflexivity.
Qed.

Lemma Qsum_zeros (k : nat) : (Qsum (repeat 0%Q k) == 0)%Q.
Proof.
  induction k as [|k IH]; cbn [repeat].
  - unfold Qsum; simpl. ring.
  - rewrite Qsum_cons, IH. ring.
Qed.

Lemma Qsum_one_hot (before after : nat) (c : Q) :
  (Qsum (one_hot before after c) == c)%Q.
Proof.
  unfold one_hot. rewrite !Qsum_app, !Qsum_zeros.
  cbn [app]. rewrite Qsum_cons. unfold Qsum at 1; simpl. ring.
Qed.

Lemma entropy_terms_zeros (ln : Q -> Q) (total : Q) (k : nat) :
  (Qsum (map (entropy_term ln total) (repeat 0%Q k)) == 0)%Q.
Proof.
  induction k as [|k IH]; cbn [repeat map].
  - unfold Qsum; simpl. ring.
  - rewrite Qsum_cons, IH. unfold entropy_term. simpl. ring.
Qed.

(** C7.  [field_entropy] computes the negated sum of [p * ln p] with
    [p = bin / total]; a zero-count bin leaves the running sum as it is,
    so the loop over the bins is the loop over the nonzero bins; and the
    entropy of a histogram with all its mass in one bin is 0, given that
    the logarithm of 1 is 0. *)
Theorem field_entropy_spec (ln : Q -> Q) (hist : Node) (bins : list Q) :
  read_bins hist = Ok bins ->
  read_num_bins hist = Ok (Z.of_nat (List.length bins)) ->
  let total := Qsum bins in
  (~ (total == 0)%Q ->
   exists e,
     field_entropy ln hist = Ok (Object [("value", scalar_f64 e)]%string)
     /\ (e == - Qsum (map (entropy_term ln total) bins))%Q)
  /\
  (forall sum,
      entropy_loop ln bins (Z.of_nat (List.length bins)) sum
      = entropy_loop ln (filter nonzero bins)
                     (Z.of_nat (List.length (filter nonzero bins))) sum)
  /\
  ((forall q, (q == 1)%Q -> (ln q == 0)%Q) ->
   forall before after c,
     bins = one_hot before after c -> ~ (c == 0)%Q ->
     exists e,
       field_entropy ln hist = Ok (Object [("value", scalar_f64 e)]%string)
       /\ (e == 0)%Q).
Proof.
  intros Hb Hn total.
  assert (Hmain : ~ (total == 0)%Q ->
                  exists e,
                    field_entropy ln hist
                    = Ok (Object [("value", scalar_f64 e)]%string)
                    /\ (e == - Qsum (map (entropy_term ln total) bins))%Q).
  { intros Ht. unfold field_entropy.
    rewrite Hb, Hn, (read_bins_sum _ _ Hb). cbn [bind].
    rewrite entropy_loop_fold.
    destruct (entropy_fold_sum ln bins total 0 Ht) as (e & He & Heq).
    fold total. rewrite He. cbn [bind].
    exists e. split; [reflexivity|]. rewrite Heq. ring. }
  split; [exact Hmain|].
  split.
  - intros sum. rewrite !entropy_loop_fold.
    symmetry. apply entropy_fold_skip_zero.
  - intros Hln before after c Hbins Hc.
    assert (Htot : (total == c)%Q)
      by (subst total; rewrite Hbins; apply Qsum_one_hot).
    assert (Ht : ~ (total == 0)%Q) by (rewrite Htot; exact Hc).
    destruct (Hmain Ht) as (e & He & Heq).
    exists e. split; [exact He|].
    rewrite Heq, Hbins. unfold one_hot.
    rewrite !map_app, !Qsum_app, !entropy_terms_zeros.
    cbn [map app]. rewrite Qsum_cons.
    unfold entropy_term.
    destruct (Qeq_bool c 0) eqn:E; [apply Qeq_bool_iff in E; contradiction|].
    assert (Hp : (c / total == 1)%Q) by (rewrite Htot; field; exact Hc).
    rewrite (Hln _ Hp). unfold Qsum; simpl. ring.
Qed.


Lemma field_entropy_spec_witness :
  let ln := fun q : Q => (q - 1)%Q in
  exists e,
    field_entropy ln (hist_node [0; 5; 0]%Q 0 3 3)
    = Ok (Object [("value", scalar_f64 e)]%string)
    /\ (e == 0)%Q.
Proof.
  intros ln.
  destruct (field_entropy_spec ln (hist_node [0; 5; 0]%Q 0 3 3) [0; 5; 0]%Q
              eq_refl eq_refl) as (_ & _ & H).
  apply (H (fun q Hq => ltac:(unfold ln; rewrite Hq; reflexivity))
           1%nat 1%nat 5%Q eq_refl).
  intros E. unfold Qeq in E. simpl in E. lia.
Defined.

(* ------------------------------------------------------------------ *)
(** ** field_histogram *)

Lemma array_get_nth_default (a : list Q) (k : nat) :
  (k < List.length a)%nat -> array_get a (Z.of_nat k) = Ok (nth k a 0%Q).
Proof.
  intros Hk. rewrite array_get_nth.
  destruct (nth_error a k) as [x|] eqn:E.
  - now rewrite (nth_error_nth _ _ _ E).
  - apply nth_error_None in E. lia.
Qed.

Lemma add_bins_ok (num_bins : Z) (bins dom_hist : list Q) :
  List.length bins = Z.to_nat num_bins ->
  (Z.to_nat num_bins <= List.length dom_hist)%nat ->
  add_bins num_bins bins dom_hist
  = Ok (map (fun k => (nth k bins 0 + nth k dom_hist 0)%Q)
            (seq 0 (Z.to_nat num_bins))).
Proof.
  intros Hb Hd. unfold add_bins, range.
  rewrite (mapM_ok_map _ (fun i => (nth (Z.to_nat i) bins 0
                                    + nth (Z.to_nat i) dom_hist 0)%Q)).
  - rewrite map_map. f_equal. apply map_ext. intros k. now rewrite Nat2Z.id.
  - intros i Hi. apply in_map_iff in Hi. destruct Hi as (k & <- & Hk).
    apply in_seq in Hk.
    rewrite !array_get_nth_default by lia. cbn [bind].
    now rewrite Nat2Z.id.
Qed.

Lemma nth_map_seq (f : nat -> Q) (n b : nat) :
  (b < n)%nat -> nth b (map f (seq 0 n)) 0%Q = f b.
Proof.
  intros Hb.
  rewrite (nth_indep _ 0%Q (f 0%nat)) by (now rewrite length_map, length_seq).
  rewrite map_nth, seq_nth by exact Hb. reflexivity.
Qed.

Lemma histogram_fold (array_histogram : Node -> Q -> Q -> Z -> result (list Q))
      (field : string) (min_val max_val : Q) (num_bins : Z)
      (doms : list Node) (hists : list (list Q)) (bins : list Q) :
  domain_histograms array_histogram doms field min_val max_val num_bins
  = Ok hists ->
  Forall (fun hst => (Z.to_nat num_bins <= List.length hst)%nat) hists ->
  List.length bins = Z.to_nat num_bins ->
  exists bins',
    foldM (fun bins dom =>
             if has_path dom (field_path field) then
               n_values <- fetch dom (values_path field) ;;
               dom_hist <- array_histogram n_values min_val max_val num_bins ;;
               add_bins num_bins bins dom_hist
             else Ok bins)
          doms bins = Ok bins'
    /\ List.length bins' = Z.to_nat num_bins
    /\ forall b, (b < Z.to_nat num_bins)%nat ->
                 (nth b bins' 0 == nth b bins 0 + bin_total hists b)%Q.
Proof.
  revert hists bins.
  induction doms as [|dom doms IH]; intros hists bins;
    cbn [domain_histograms foldM].
  - intros H _ Hlen. injection H as <-. exists bins.
    repeat split; auto. intros b _. unfold bin_total, Qsum; simpl. ring.
  - destruct (has_path dom (field_path field)).
    + destruct (fetch dom (values_path field)) as [n|e]; cbn [bind];
        [|discriminate].
      destruct (array_histogram n min_val max_val num_bins) as [hst|e];
        cbn [bind]; [|discriminate].
      intros H Hall Hlen.
      apply bind_ok_inv in H. destruct H as (rest & Hrest & H).
      injection H as <-.
      inversion Hall as [|? ? Hh Hall']; subst.
      rewrite (add_bins_ok _ _ _ Hlen Hh). cbn [bind].
      destruct (IH rest
                   (map (fun k => (nth k bins 0 + nth k hst 0)%Q)
                        (seq 0 (Z.to_nat num_bins)))
                   Hrest Hall')
        as (bins' & Hf & Hl & Hsum).
      { now rewrite length_map, length_seq. }
      exists bins'. repeat split; auto.
      intros b Hb. rewrite (Hsum b Hb), nth_map_seq by exact Hb.
      unfold bin_total. cbn [map]. rewrite Qsum_cons. ring.
    + intros H Hall Hlen. apply IH; assumption.
Qed.

(** The serial build of [field_histogram].  Whatever it returns carries
    [min_val], [max_val] and [num_bins] as they were passed in; for a
    [num_bins] that is not negative, when every domain holding the field has
    a histogram of [num_bins] bins, the value vector has [num_bins] entries,
    entry [b] being the sum of bin [b] over those domains; a negative
    [num_bins] fails at the allocation of the bins. *)
Theorem field_histogram_spec
        (array_histogram : Node -> Q -> Q -> Z -> result (list Q))
        (dataset : Node) (field : string) (min_val max_val : Q) (num_bins : Z) :
  (forall r,
      field_histogram array_histogram dataset field min_val max_val num_bins
      = Ok r ->
      fetch r ["min_val"%string] = Ok (scalar_f64 min_val)
      /\ fetch r ["max_val"%string] = Ok (scalar_f64 max_val)
      /\ fetch r ["num_bins"%string] = Ok (scalar_i32 num_bins))
  /\
  (0 <= num_bins ->
   forall hists,
      domain_histograms array_histogram (domains dataset) field
                        min_val max_val num_bins = Ok hists ->
      Forall (fun hst => (Z.to_nat num_bins <= List.length hst)%nat) hists ->
      exists bins,
        field_histogram array_histogram dataset field min_val max_val num_bins
        = Ok (Object [("value", Float64 bins);
                      ("min_val", scalar_f64 min_val);
                      ("max_val", scalar_f64 max_val);
                      ("num_bins", scalar_i32 num_bins)]%string)
        /\ List.length bins = Z.to_nat num_bins
        /\ forall b x, nth_error bins b = Some x ->
                       (x == bin_total hists b)%Q)
  /\
  (num_bins < 0 ->
   field_histogram array_histogram dataset field min_val max_val num_bins
   = Err BadArrayLength).
Proof.
  split; [|split].
  - intros r H. unfold field_histogram in H.
    apply bind_ok_inv in H. destruct H as (bins & _ & H).
    injection H as <-. repeat split; reflexivity.
  - intros Hn hists Hh Hall. unfold field_histogram, histogram_bins, new_array.
    destruct (Z.ltb_spec num_bins 0) as [Hneg|_]; [lia|]. cbn [bind].
    rewrite domain_loop.
    destruct (histogram_fold array_histogram field min_val max_val num_bins
                (map snd (children dataset)) hists
                (repeat 0%Q (Z.to_nat num_bins)) Hh Hall (repeat_length _ _))
      as (bins & Hf & Hl & Hsum).
    rewrite Hf. cbn [bind]. exists bins. repeat split; auto.
    intros b x Hx.
    assert (Hb : (b < Z.to_nat num_bins)%nat)
      by (rewrite <- Hl; apply nth_error_Some; congruence).
    rewrite <- (nth_error_nth _ _ 0%Q Hx), (Hsum b Hb).
    rewrite nth_repeat. ring.
  - intros Hneg. unfold field_histogram, histogram_bins, new_array.
    destruct (Z.ltb_spec num_bins 0) as [_|Hn]; [reflexivity | lia].
Qed.

Lemma field_histogram_spec_witness :
  (exists bins,
      field_histogram array_histogram_model scenario_dataset "f" 0 9 3
      = Ok (Object [("value", Float64 bins);
                    ("min_val", scalar_f64 0);
                    ("max_val", scalar_f64 9);
                    ("num_bins", scalar_i32 3)]%string)
      /\ List.length bins = 3%nat
      /\ forall b x, nth_error bins b = Some x ->
                     (x == bin_total [[3; 3; 3]; [0; 0; 0]]%Q b)%Q)
  /\ field_histogram array_histogram_model scenario_dataset "f" 0 9 (-1)
     = Err BadArrayLength.
Proof.
  split.
  - apply (proj1 (proj2 (field_histogram_spec array_histogram_model
                           scenario_dataset "f"%string 0%Q 9%Q 3)));
      [lia | vm_compute; reflexivity | repeat constructor].
  - apply (proj2 (proj2 (field_histogram_spec array_histogram_model
                           scenario_dataset "f"%string 0%Q 9%Q (-1)))).
    lia.
Defined.

(** *** The MPI build *)

Lemma allreduce_two_ones (recv : list Z) :
  allreduce_int_sum (map double_words [[1; 1]; [1; 1]]%Q) 2 recv
  = Ok ([0; 2145386496] ++ skipn 2 recv).
Proof.
  unfold allreduce_int_sum.
  match goal with
  | |- bind ?m _ = _ =>
      assert (E : m = Ok [0; 2145386496]) by (vm_compute; reflexivity);
      rewrite E
  end.
  reflexivity.
Qed.

Lemma histogram_mpi_rank (fresh : Z -> Z -> Z) (rank : Z) :
  (_ <- new_array 2 ;;
   let recv := map (fresh rank) (range (2 * 2)) in
   global <- allreduce_int_sum (map double_words [[1; 1]; [1; 1]]%Q) 2 recv ;;
   global_bins <- words_doubles global ;;
   Ok (histogram_node global_bins 0 2 2))
  = (v1 <- binary64_value (fresh rank 2 mod 2 ^ 32
                           + (fresh rank 3 mod 2 ^ 32) * 2 ^ 32) ;;
     Ok (histogram_node [inject_Z (2 ^ 1023); v1] 0 2 2)).
Proof.
  change (new_array 2) with (Ok tt). cbn [bind]. cbv zeta.
  rewrite allreduce_two_ones. cbn [bind].
  change (range (2 * 2)) with [0; 1; 2; 3].
  cbn [map skipn app words_doubles].
  assert (E : binary64_value (0 mod 2 ^ 32 + 2145386496 mod 2 ^ 32 * 2 ^ 32)
              = Ok (inject_Z (2 ^ 1023))) by (vm_compute; reflexivity).
  rewrite E. cbn [bind].
  destruct (binary64_value (fresh rank 2 mod 2 ^ 32
                            + (fresh rank 3 mod 2 ^ 32) * 2 ^ 32));
    reflexivity.
Qed.

(** C8, MPI build.  Two workers hold one domain each, with a histogram of
    [1, 1]: the element-wise sum over the domains is [2, 2], which is what
    the serial build returns on a worker holding both domains.  The MPI build
    reduces the two doubles of [bins] as two ints: the words of the first
    double are added as ints, which gives the double [2 ^ 1023], and the
    second double of the result is memory that was never written.  So
    whatever that memory holds, every worker's first bin is [2 ^ 1023] and
    not 2, unless the second double is an infinity or a NaN. *)
Theorem field_histogram_mpi_reduction (fresh : Z -> Z -> Z) :
  let fleet := [hist_dataset; hist_dataset] in
  mapM (fun dataset =>
          histogram_bins array_histogram_model dataset "f" 0 2 2) fleet
  = Ok [[1; 1]; [1; 1]]%Q
  /\ (bin_total [[1; 1]; [1; 1]]%Q 0 == 2)%Q
  /\ (bin_total [[1; 1]; [1; 1]]%Q 1 == 2)%Q
  /\ field_histogram array_histogram_model
       (dataset_of (domains hist_dataset ++ domains hist_dataset)) "f" 0 2 2
     = Ok (histogram_node [2; 2]%Q 0 2 2)
  /\ ~ (inject_Z (2 ^ 1023) == 2)%Q
  /\ match field_histogram_mpi array_histogram_model fresh fleet "f" 0 2 2 with
     | Ok rs =>
         List.length rs = 2%nat
         /\ Forall (fun r => exists v1,
                        r = histogram_node [inject_Z (2 ^ 1023); v1] 0 2 2) rs
     | Err e => e = NotFinite
     end.
Proof.
  cbv zeta.
  assert (Elocal : mapM (fun dataset =>
                           histogram_bins array_histogram_model dataset
                                          "f" 0 2 2)
                        [hist_dataset; hist_dataset]
                   = Ok [[1; 1]; [1; 1]]%Q) by (vm_compute; reflexivity).
  split; [exact Elocal|].
  split; [reflexivity|]. split; [reflexivity|].
  split; [vm_compute; reflexivity|].
  split; [intros E; vm_compute in E; discriminate|].
  unfold field_histogram_mpi. rewrite Elocal. cbn [bind].
  change (range (Z.of_nat (List.length [hist_dataset; hist_dataset])))
    with [0; 1].
  cbn [mapM]. rewrite !histogram_mpi_rank.
  destruct (binary64_value (fresh 0 2 mod 2 ^ 32
                            + (fresh 0 3 mod 2 ^ 32) * 2 ^ 32)) as [v0|e0] eqn:E0;
    cbn [bind].
  - destruct (binary64_value (fresh 1 2 mod 2 ^ 32
                              + (fresh 1 3 mod 2 ^ 32) * 2 ^ 32))
      as [v1|e1] eqn:E1; cbn [bind].
    + split; [reflexivity|].
      constructor; [now exists v0|]. constructor; [now exists v1|]. constructor.
    + revert E1. unfold binary64_value.
      destruct (_ =? 2047); [intros E; now injection E as <- | discriminate].
  - revert E0. unfold binary64_value.
    destruct (_ =? 2047); [intros E; now injection E as <- | discriminate].
Qed.

(* ------------------------------------------------------------------ *)
(** ** field_assoc *)

Lemma field_assoc_fold (field : string) (doms : list Node) (rank_has vertex : bool) :
  forallb (fun dom =>
             implb (holds field dom)
                   (declares field "vertex" dom
                    || declares field "element" dom)) doms = true ->
  foldM (fun (st : bool * bool) dom =>
           if has_path dom (field_path field) then
             asc <- fetch_string dom (association_path field) ;;
             Ok (true, if String.eqb asc "element" then false else snd st)
           else Ok st)
        doms (rank_has, vertex)
  = Ok (rank_has || existsb (holds field) doms,
        vertex && forallb (fun dom => implb (holds field dom)
                                            (declares field "vertex" dom))
                          doms).
Proof.
  revert rank_has vertex.
  induction doms as [|dom doms IH]; intros rank_has vertex Hwf;
    cbn [foldM existsb forallb].
  - now rewrite orb_false_r, andb_true_r.
  - cbn [forallb] in Hwf. apply andb_true_iff in Hwf. destruct Hwf as [Hd Hwf].
    unfold holds at 1 3. unfold holds at 1 in Hd.
    destruct (has_path dom (field_path field)); cbn [implb] in *.
    + unfold declares at 1 in Hd. unfold declares at 1 in Hd.
      unfold declares at 1.
      destruct (fetch_string dom (association_path field)) as [asc|e];
        cbn [bind]; [|discriminate].
      rewrite (IH _ _ Hwf). cbn [snd].
      rewrite orb_true_r. cbn [orb]. f_equal. f_equal.
      apply orb_true_iff in Hd. destruct Hd as [Hv|He].
      * apply String.eqb_eq in Hv. subst asc.
        change ("vertex" =? "element")%string with false.
        change ("vertex" =? "vertex")%string with true.
        destruct vertex; reflexivity.
      * rewrite He. apply String.eqb_eq in He. subst asc.
        change ("element" =? "vertex")%string with false.
        destruct vertex; reflexivity.
    + cbn [bind]. rewrite (IH _ _ Hwf). cbn [orb andb]. reflexivity.
Qed.

Lemma field_assoc_scan_ok (field : string) (dataset : Node) :
  association_declared field dataset = true ->
  field_assoc_scan dataset field
  = Ok (worker_has field dataset, worker_all_vertex field dataset).
Proof.
  intros Hwf. unfold field_assoc_scan.
  rewrite (foldM_ext_in _
             (fun st i =>
                dom <- child dataset i ;;
                (fun (st : bool * bool) dom =>
                   if has_path dom (field_path field) then
                     asc <- fetch_string dom (association_path field) ;;
                     Ok (true,
                         if String.eqb asc "element" then false else snd st)
                   else Ok st) st dom)).
  2:{ intros [rh v] i _. reflexivity. }
  rewrite domain_loop.
  apply (field_assoc_fold field (map snd (children dataset)) false true Hwf).
Qed.

Lemma existsb_map_pair {A B : Type} (f : B -> bool) (g : A -> B) (l : list A) :
  existsb f (map g l) = existsb (fun a => f (g a)) l.
Proof.
  induction l as [|a l IH]; simpl; [reflexivity | now rewrite IH].
Qed.

(** What [field_assoc] returns on a fleet whose domains declare a vertex or
    an element association for the field. *)
Lemma field_assoc_votes (fleet : list Node) (field : string) :
  forallb (association_declared field) fleet = true ->
  field_assoc fleet field
  = (if existsb (fun ds => worker_has field ds && worker_all_vertex field ds)
                fleet
        && existsb (fun ds => worker_has field ds
                              && negb (worker_all_vertex field ds)) fleet
     then Err disagreement
     else Ok (if existsb (fun ds => worker_has field ds
                                    && worker_all_vertex field ds) fleet
              then "vertex" else "element")%string).
Proof.
  intros Hwf. unfold field_assoc.
  rewrite (mapM_ok_map _ (fun ds => (worker_has field ds,
                                     worker_all_vertex field ds))).
  2:{ intros ds Hin. apply field_assoc_scan_ok.
      rewrite forallb_forall in Hwf. now apply Hwf. }
  cbn [bind]. unfold global_someone_agrees.
  rewrite !map_map, !existsb_map_pair. reflexivity.
Qed.

(** C4.  On a fleet whose domains declare a vertex or an element association
    for the field, each worker's vote is whether it holds the field and all
    its holding domains are vertex-associated; [field_assoc] raises the
    disagreement error exactly when the vertex vote and the element vote are
    both true, and otherwise returns "vertex" when the vertex vote is true
    and "element" when it is not; on a fleet of one worker the result is the
    local check and never the error. *)
Theorem field_assoc_spec (fleet : list Node) (field : string) :
  forallb (association_declared field) fleet = true ->
  let vertex_vote :=
    existsb (fun ds => worker_has field ds && worker_all_vertex field ds)
            fleet in
  let element_vote :=
    existsb (fun ds => worker_has field ds
                       && negb (worker_all_vertex field ds)) fleet in
  (field_assoc fleet field = Err disagreement
   <-> vertex_vote = true /\ element_vote = true)
  /\ ((vertex_vote = false \/ element_vote = false) ->
      field_assoc fleet field
      = Ok (if vertex_vote then "vertex" else "element")%string)
  /\ (forall ds, fleet = [ds] ->
                 field_assoc fleet field
                 = Ok (if worker_has field ds && worker_all_vertex field ds
                       then "vertex" else "element")%string).
Proof.
  intros Hwf vertex_vote element_vote.
  rewrite (field_assoc_votes fleet field Hwf).
  fold vertex_vote. fold element_vote.
  split; [|split].
  - destruct vertex_vote, element_vote; cbn; split;
      try discriminate; try tauto; intros [? ?]; discriminate.
  - intros [H|H]; rewrite H; [reflexivity|].
    now rewrite andb_false_r.
  - intros ds Hds. subst vertex_vote element_vote. subst fleet. cbn [existsb].
    rewrite !orb_false_r.
    destruct (worker_has field ds), (worker_all_vertex field ds); reflexivity.
Qed.

Lemma field_assoc_spec_witness :
  field_assoc [assoc_dataset "vertex"; assoc_dataset "element"] "x"
  = Err disagreement.
Proof.
  apply (proj1 (field_assoc_spec
                  [assoc_dataset "vertex"; assoc_dataset "element"]
                  "x"%string eq_refl)).
  split; reflexivity.
Defined.

(* ------------------------------------------------------------------ *)
(** ** field_min, field_max *)

Lemma foldM_invariant {A St : Type} (P : St -> Prop) (f : St -> A -> result St)
      (l : list A) (s r : St) :
  P s ->
  (forall s a s', In a l -> P s -> f s a = Ok s' -> P s') ->
  foldM f l s = Ok r -> P r.
Proof.
  revert s. induction l as [|a l IH]; intros s Hs Hstep; cbn [foldM].
  - intros H; injection H as <-. exact Hs.
  - intros H. apply bind_ok_inv in H. destruct H as (s' & Hf & H).
    apply (IH s').
    + apply (Hstep s a s'); [now left | exact Hs | exact Hf].
    + intros s0 a0 s0' Hin. apply Hstep. now right.
    + exact H.
Qed.

Lemma foldM_constant {A St : Type} (f : St -> A -> result St) (l : list A) (s : St) :
  (forall a, In a l -> f s a = Ok s) -> foldM f l s = Ok s.
Proof.
  induction l as [|a l IH]; intros H; cbn [foldM]; [reflexivity|].
  rewrite (H a (or_introl eq_refl)). cbn [bind].
  apply IH. intros a0 Hin. apply H. now right.
Qed.

Lemma child_negative (dataset : Node) (i : Z) :
  i < 0 -> child dataset i = Err ConduitError.
Proof.
  intros Hi. unfold child.
  destruct (i <? 0) eqn:E; [reflexivity | apply Z.ltb_ge in E; lia].
Qed.

Lemma child_in_range (dataset : Node) (i : Z) (dom : Node) :
  child dataset i = Ok dom -> 0 <= i < number_of_children dataset.
Proof.
  unfold child. destruct (i <? 0) eqn:E; [discriminate|].
  apply Z.ltb_ge in E.
  destruct (nth_error (children dataset) (Z.to_nat i)) as [[k c]|] eqn:N;
    [|discriminate].
  intros _.
  assert (Hlt : (Z.to_nat i < List.length (children dataset))%nat)
    by (apply nth_error_Some; congruence).
  destruct dataset; simpl in *; lia.
Qed.

Lemma child_of_index (dataset : Node) (i : Z) :
  In i (domain_indices dataset) -> exists dom, child dataset i = Ok dom.
Proof.
  unfold domain_indices, range. intros Hin.
  apply in_map_iff in Hin. destruct Hin as (k & <- & Hk).
  apply in_seq in Hk.
  unfold child. destruct (Z.of_nat k <? 0) eqn:E; [apply Z.ltb_lt in E; lia|].
  rewrite Nat2Z.id.
  destruct (nth_error (children dataset) k) as [[name c]|] eqn:N.
  - now exists c.
  - apply nth_error_None in N. destruct dataset; simpl in *; lia.
Qed.

Lemma association_holds (field : string) (dom : Node) (asc : string) :
  fetch_string dom (association_path field) = Ok asc ->
  holds field dom = true.
Proof.
  unfold fetch_string, association_path, holds, has_path, field_path.
  cbn [fetch].
  destruct dom as [|cs| | | | |]; try discriminate.
  destruct (lookup "fields" cs) as [[|cs1| | | | |]|]; try discriminate.
  destruct (lookup field cs1) as [n|]; [reflexivity | discriminate].
Qed.

Lemma first_association_fails (dataset : Node) (field : string) :
  (forall dom0, child dataset 0 = Ok dom0 -> holds field dom0 = false) ->
  first_domain_association dataset field = Err ConduitError.
Proof.
  intros H. unfold first_domain_association.
  destruct (child dataset 0) as [dom0|e] eqn:E; cbn [bind].
  - specialize (H dom0 eq_refl).
    destruct (fetch_string dom0 (association_path field)) as [asc|e] eqn:F.
    + apply association_holds in F. congruence.
    + revert F. unfold fetch_string.
      destruct (fetch dom0 (association_path field)) as [c|e'] eqn:G;
        cbn [bind].
      * exfalso. assert (Hh : holds field dom0 = true).
        { revert G. unfold association_path, holds, has_path, field_path.
          cbn [fetch].
          destruct dom0 as [|cs| | | | |]; try discriminate.
          destruct (lookup "fields" cs) as [[|cs1| | | | |]|]; try discriminate.
          destruct (lookup field cs1) as [n|]; [reflexivity | discriminate]. }
        congruence.
      * intros F; injection F as <-. revert G.
        unfold association_path. cbn [fetch].
        destruct dom0 as [|cs| | | | |]; try (intros G; injection G as <-; reflexivity).
        destruct (lookup "fields" cs) as [[|cs1| | | | |]|];
          try (intros G; injection G as <-; reflexivity).
        destruct (lookup field cs1) as [[|cs2| | | | |]|];
          try (intros G; injection G as <-; reflexivity).
        destruct (lookup "association" cs2);
          [discriminate | intros G; injection G as <-; reflexivity].
  - revert E. unfold child. destruct (0 <? 0); [intros E; now injection E as <-|].
    destruct (nth_error (children dataset) (Z.to_nat 0)) as [[k c]|];
      [discriminate | intros E; now injection E as <-].
Qed.

Ltac scan_step :=
  let H := fresh "H" in
  let dom := fresh "dom" in
  let Hdom := fresh "Hdom" in
  let Hh := fresh "Hh" in
  intros ? ? ? _ ? H;
  apply bind_ok_inv in H; destruct H as (dom & Hdom & H);
  destruct (has_path dom (field_path _)) eqn:Hh;
  [ apply bind_ok_inv in H; destruct H as (? & _ & H);
    apply bind_ok_inv in H; destruct H as ([? ?] & _ & H);
    match type of H with
    | (if ?c then _ else _) = _ =>
        destruct c;
        [ apply bind_ok_inv in H; destruct H as (? & _ & H);
          injection H as <-; right; exists dom; split; [exact Hdom | exact Hh]
        | injection H as <-; assumption ]
    end
  | injection H as <-; assumption ].

Lemma field_min_scan_winner (array_min : Node -> result (Q * Z))
      (dataset : Node) (field : string) (st : extremum) :
  field_min_scan array_min dataset field = Ok st ->
  winner_holds dataset field st.
Proof.
  unfold field_min_scan.
  apply (foldM_invariant (winner_holds dataset field)).
  - now left.
  - scan_step.
Qed.

Lemma field_max_scan_winner (array_max : Node -> result (Q * Z))
      (dataset : Node) (field : string) (st : extremum) :
  field_max_scan array_max dataset field = Ok st ->
  winner_holds dataset field st.
Proof.
  unfold field_max_scan.
  apply (foldM_invariant (winner_holds dataset field)).
  - now left.
  - scan_step.
Qed.

Lemma field_min_scan_untouched (array_min : Node -> result (Q * Z))
      (dataset : Node) (field : string) :
  (forall i dom, child dataset i = Ok dom -> holds field dom = false) ->
  field_min_scan array_min dataset field
  = Ok (mkExtremum DBL_MAX (-1) (-1) (-1)).
Proof.
  intros Hno. unfold field_min_scan. apply foldM_constant.
  intros i Hin. destruct (child_of_index _ _ Hin) as (dom & Hdom).
  rewrite Hdom. cbn [bind].
  specialize (Hno i dom Hdom). unfold holds in Hno. now rewrite Hno.
Qed.

Lemma field_max_scan_untouched (array_max : Node -> result (Q * Z))
      (dataset : Node) (field : string) :
  (forall i dom, child dataset i = Ok dom -> holds field dom = false) ->
  field_max_scan array_max dataset field
  = Ok (mkExtremum DBL_LOWEST (-1) (-1) (-1)).
Proof.
  intros Hno. unfold field_max_scan. apply foldM_constant.
  intros i Hin. destruct (child_of_index _ _ Hin) as (dom & Hdom).
  rewrite Hdom. cbn [bind].
  specialize (Hno i dom Hdom). unfold holds in Hno. now rewrite Hno.
Qed.

Lemma extremum_location_no_domain (dataset : Node) (assoc_str : string)
      (st : extremum) :
  ext_domain st = -1 ->
  assoc_str = "vertex"%string \/ assoc_str = "element"%string ->
  extremum_location dataset assoc_str st = Err ConduitError.
Proof.
  intros Hd [-> | ->]; unfold extremum_location; cbn [String.eqb];
    rewrite child_negative by lia; reflexivity.
Qed.

Lemma extremum_location_domain (dataset : Node) (assoc_str : string)
      (st : extremum) (loc : vec3) :
  extremum_location dataset assoc_str st = Ok loc ->
  exists dom, child dataset (ext_domain st) = Ok dom.
Proof.
  unfold extremum_location.
  destruct (String.eqb assoc_str "vertex");
    [|destruct (String.eqb assoc_str "element"); [|discriminate]];
    intros H; apply bind_ok_inv in H; destruct H as (dom & Hdom & _);
    now exists dom.
Qed.

Lemma extremum_success (scan : Node -> string -> result extremum)
      (dataset : Node) (field : string) (r : Node) :
  (forall st, scan dataset field = Ok st -> winner_holds dataset field st) ->
  (st <- scan dataset field ;;
   assoc_str <- first_domain_association dataset field ;;
   loc <- extremum_location dataset assoc_str st ;;
   Ok (extremum_node 0 st loc)) = Ok r ->
  extremum_ok scan dataset field r.
Proof.
  intros Hwin H.
  apply bind_ok_inv in H. destruct H as (st & Hst & H).
  apply bind_ok_inv in H. destruct H as (assoc_str & Hassoc & H).
  apply bind_ok_inv in H. destruct H as (loc & Hloc & H).
  injection H as <-.
  unfold first_domain_association in Hassoc.
  apply bind_ok_inv in Hassoc. destruct Hassoc as (dom0 & Hdom0 & Hasc).
  split; [pose proof (child_in_range _ _ _ Hdom0); lia|].
  exists dom0, assoc_str, st, loc.
  repeat split; auto.
  - eapply association_holds; exact Hasc.
  - destruct (extremum_location_domain _ _ _ _ Hloc) as (domw & Hdomw).
    destruct (Hwin st Hst) as [Hneg | (dom & Hdom & Hh)].
    + rewrite child_negative in Hdomw by lia. discriminate.
    + exists dom. auto.
Qed.

Lemma extremum_resolved (scan : Node -> string -> result extremum)
      (dataset : Node) (field : string) (st : extremum)
      (dom0 domw : Node) (assoc_str : string) (loc : vec3) :
  scan dataset field = Ok st ->
  child dataset 0 = Ok dom0 ->
  fetch_string dom0 (association_path field) = Ok assoc_str ->
  child dataset (ext_domain st) = Ok domw ->
  (assoc_str = "vertex"%string
   /\ vert_location domw (ext_index st) "" = Ok loc)
  \/ (assoc_str = "element"%string
      /\ element_location domw (ext_index st) "" = Ok loc) ->
  (st <- scan dataset field ;;
   assoc_str <- first_domain_association dataset field ;;
   loc <- extremum_location dataset assoc_str st ;;
   Ok (extremum_node 0 st loc)) = Ok (extremum_node 0 st loc).
Proof.
  intros Hscan Hdom0 Hassoc Hdomw Hloc.
  rewrite Hscan. cbn [bind].
  unfold first_domain_association. rewrite Hdom0. cbn [bind].
  rewrite Hassoc. cbn [bind].
  unfold extremum_location.
  destruct Hloc as [[-> Hloc] | [-> Hloc]].
  - change ("vertex" =? "vertex")%string with true. cbv iota.
    rewrite Hdomw. cbn [bind]. rewrite Hloc. reflexivity.
  - change ("element" =? "vertex")%string with false.
    change ("element" =? "element")%string with true. cbv iota.
    rewrite Hdomw. cbn [bind]. rewrite Hloc. reflexivity.
Qed.

(** C10.  [field_min] and [field_max] resolve the location of the winner
    with the association string of the first domain of the dataset: when
    the scan has a winner, the first domain declares "vertex" (or "element")
    and [vert_location] (or [element_location]) resolves the winner's index
    on the winner's domain, the operation returns that position, whatever
    the winner's own domain declares.  Conversely a successful [field_min]
    or [field_max] has read the association from the first domain: the
    dataset is not empty, its first domain holds the field, and the winner
    is a domain that holds the field.  When the first domain is missing or
    lacks the field, the association lookup fails and so do both operations;
    when no domain holds the field the tracked domain stays -1, and the
    lookup of domain -1 is an error. *)
Theorem field_extremum_first_domain
        (array_min array_max : Node -> result (Q * Z))
        (dataset : Node) (field : string) :
  (forall r, field_min array_min dataset field = Ok r ->
             extremum_ok (field_min_scan array_min) dataset field r)
  /\ (forall r, field_max array_max dataset field = Ok r ->
                extremum_ok (field_max_scan array_max) dataset field r)
  /\ ((forall dom0, child dataset 0 = Ok dom0 -> holds field dom0 = false) ->
      first_domain_association dataset field = Err ConduitError
      /\ is_ok (field_min array_min dataset field) = false
      /\ is_ok (field_max array_max dataset field) = false)
  /\ ((forall i dom, child dataset i = Ok dom -> holds field dom = false) ->
      exists st_min st_max,
        field_min_scan array_min dataset field = Ok st_min
        /\ ext_domain st_min = -1
        /\ field_max_scan array_max dataset field = Ok st_max
        /\ ext_domain st_max = -1)
  /\ (forall st assoc_str,
         ext_domain st = -1 ->
         assoc_str = "vertex"%string \/ assoc_str = "element"%string ->
         extremum_location dataset assoc_str st = Err ConduitError)
  /\ (forall st dom0 domw assoc_str loc,
         field_min_scan array_min dataset field = Ok st ->
         child dataset 0 = Ok dom0 ->
         fetch_string dom0 (association_path field) = Ok assoc_str ->
         child dataset (ext_domain st) = Ok domw ->
         (assoc_str = "vertex"%string
          /\ vert_location domw (ext_index st) "" = Ok loc)
         \/ (assoc_str = "element"%string
             /\ element_location domw (ext_index st) "" = Ok loc) ->
         field_min array_min dataset field = Ok (extremum_node 0 st loc))
  /\ (forall st dom0 domw assoc_str loc,
         field_max_scan array_max dataset field = Ok st ->
         child dataset 0 = Ok dom0 ->
         fetch_string dom0 (association_path field) = Ok assoc_str ->
         child dataset (ext_domain st) = Ok domw ->
         (assoc_str = "vertex"%string
          /\ vert_location domw (ext_index st) "" = Ok loc)
         \/ (assoc_str = "element"%string
             /\ element_location domw (ext_index st) "" = Ok loc) ->
         field_max array_max dataset field = Ok (extremum_node 0 st loc)).
Proof.
  split; [|split; [|split; [|split; [|split; [|split]]]]].
  - intros r H. apply extremum_success; [|exact H].
    intros st. apply field_min_scan_winner.
  - intros r H. apply extremum_success; [|exact H].
    intros st. apply field_max_scan_winner.
  - intros Hno. pose proof (first_association_fails _ _ Hno) as Hf.
    split; [exact Hf|].
    unfold field_min, field_max. rewrite Hf.
    split.
    + destruct (field_min_scan array_min dataset field); reflexivity.
    + destruct (field_max_scan array_max dataset field); reflexivity.
  - intros Hno. eexists. eexists.
    rewrite (field_min_scan_untouched _ _ _ Hno).
    rewrite (field_max_scan_untouched _ _ _ Hno).
    repeat split.
  - intros st assoc_str. apply extremum_location_no_domain.
  - intros st dom0 domw assoc_str loc. unfold field_min.
    apply extremum_resolved.
  - intros st dom0 domw assoc_str loc. unfold field_max.
    apply extremum_resolved.
Qed.

(** On [mixed_dataset] the minimum, and on [mixed_max_dataset] the maximum,
    is entry 1 of domain 1, which declares the field element-associated;
    both operations return the position of vertex 1, as the first domain
    declares the field vertex-associated. *)
Lemma field_extremum_first_domain_witness :
  extremum_ok (field_min_scan array_min_model) mixed_dataset "f"
    (Object [("rank", scalar_i32 0);
             ("domain_id", scalar_i32 1);
             ("position", Float64 [1; 0; 0]%Q);
             ("value", scalar_f64 1)]%string)
  /\ field_min array_min_model mixed_dataset "f"
     = Ok (extremum_node 0 (mkExtremum 1 1 1 1) (mkv 1 0 0))
  /\ field_max array_max_model mixed_max_dataset "f"
     = Ok (extremum_node 0 (mkExtremum 7 1 1 1) (mkv 1 0 0))
  /\ extremum_ok (field_max_scan array_max_model) mixed_max_dataset "f"
       (extremum_node 0 (mkExtremum 7 1 1 1) (mkv 1 0 0)).
Proof.
  pose proof (field_extremum_first_domain array_min_model array_max_model
                mixed_dataset "f"%string) as (Hmin & _ & _ & _ & _ & Hmin' & _).
  pose proof (field_extremum_first_domain array_min_model array_max_model
                mixed_max_dataset "f"%string)
    as (_ & Hmax & _ & _ & _ & _ & Hmax').
  assert (Emax : field_max array_max_model mixed_max_dataset "f"
                 = Ok (extremum_node 0 (mkExtremum 7 1 1 1) (mkv 1 0 0))).
  { apply (Hmax' (mkExtremum 7 1 1 1) (mesh_domain 0 "vertex" [5%Q])
                 (mesh_domain 1 "element" [3; 7; 2]%Q) "vertex"%string
                 (mkv 1 0 0)); try (vm_compute; reflexivity).
    left. split; [reflexivity | vm_compute; reflexivity]. }
  split; [|split; [|split]].
  - apply Hmin. vm_compute. reflexivity.
  - apply (Hmin' (mkExtremum 1 1 1 1) (mesh_domain 0 "vertex" [5%Q])
                 (mesh_domain 1 "element" [3; 1; 2]%Q) "vertex"%string
                 (mkv 1 0 0)); try (vm_compute; reflexivity).
    left. split; [reflexivity | vm_compute; reflexivity].
  - exact Emax.
  - apply Hmax. exact Emax.
Defined.

(** The minimum of [mixed_dataset] is entry 1 of domain 1, which declares the
    field element-associated; the position returned is that of vertex 1, as
    the first domain declares the field vertex-associated. *)
Example field_min_mixed_association :
  field_min array_min_model mixed_dataset "f"
  = Ok (Object [("rank", scalar_i32 0);
                ("domain_id", scalar_i32 1);
                ("position", Float64 [1; 0; 0]%Q);
                ("value", scalar_f64 1)]%string)
  /\ (dom <- child mixed_dataset 1 ;;
      Ok (declares "f" "element" dom)) = Ok true
  /\ (dom <- child mixed_dataset 1 ;; vert_location dom 1 "")
     = Ok (mkv 1 0 0)
  /\ (dom <- child mixed_dataset 1 ;; element_location dom 1 "")
     = Ok (mkv (3 # 2) (1 # 2) (1 # 2)).
Proof. repeat split; vm_compute; reflexivity. Qed.

(** The scenario of the spec: the maximum 9 is found on domain 1. *)
Example field_max_scenario :
  field_max array_max_model scenario_dataset "f"
  = Ok (Object [("rank", scalar_i32 0);
                ("domain_id", scalar_i32 1);
                ("position", Float64 [0; 0; 0]%Q);
                ("value", scalar_f64 9)]%string).
Proof. vm_compute. reflexivity. Qed.

(* ------------------------------------------------------------------ *)
(** ** element_location on explicit coordinates *)

Lemma fetch_object (cs : list (string * Node)) (k : string) (p : path) :
  fetch (Object cs) (k :: p)
  = match lookup k cs with
    | Some c => fetch c p
    | None => Err ConduitError
    end.
Proof. reflexivity. Qed.

Lemma fetch_here (n : Node) : fetch n [] = Ok n.
Proof. reflexivity. Qed.

Lemma push_back_loop (get : Z -> result Z) (l : list Z) (indices : list Z) :
  foldM (fun indices i => c <- get i ;; Ok (indices ++ [c])) l indices
  = (cs <- mapM get l ;; Ok (indices ++ cs)).
Proof.
  revert indices. induction l as [|i l IH]; intros indices; cbn [foldM mapM bind].
  - now rewrite app_nil_r.
  - destruct (get i) as [c|e]; cbn [bind]; [|reflexivity].
    rewrite IH. destruct (mapM get l) as [cs|e]; cbn [bind]; [|reflexivity].
    now rewrite <- app_assoc.
Qed.

(** On an unstructured topology the vertex list that [get_element_indices]
    hands to [get_explicit_element] is the connectivity slice after as many
    zeros as the shape has vertices: [resize] followed by [push_back]. *)
Lemma get_element_indices_unstructured (n_topo : Node) (index : Z)
      (ele_shape : string) (num_indices : Z) (slice : list Z) :
  fetch_string n_topo ["type"%string] = Ok "unstructured"%string ->
  fetch_string n_topo ["elements"; "shape"]%string = Ok ele_shape ->
  get_num_indices ele_shape = Ok num_indices ->
  connectivity_slice n_topo index = Ok slice ->
  get_element_indices n_topo index []
  = Ok (repeat 0 (Z.to_nat num_indices) ++ slice).
Proof.
  intros Ht Hs Hn Hslice. unfold get_element_indices. rewrite Ht. cbn [bind].
  change ("unstructured" =? "unstructured")%string with true. cbv iota.
  unfold connectivity_slice in Hslice. rewrite Hs in Hslice.
  cbn [bind] in Hslice. rewrite Hn in Hslice. cbn [bind] in Hslice.
  clear Ht. unfold fetch_string in *.
  destruct n_topo as [|cs| | | | |]; try discriminate.
  rewrite !fetch_object in *.
  destruct (lookup "elements" cs) as [n_topo_eles|]; [|discriminate].
  rewrite fetch_here. cbn [bind]. rewrite Hs. cbn [bind]. rewrite Hn. cbn [bind].
  destruct (fetch n_topo_eles ["connectivity"%string]) as [n_conn|e];
    cbn [bind] in *; [|discriminate].
  destruct (int32_array n_conn) as [conn_a|e]; cbn [bind] in *; [|discriminate].
  rewrite push_back_loop, Hslice. cbn [bind].
  unfold resize. rewrite firstn_nil. cbn [List.length app].
  now rewrite Nat.sub_0_r.
Qed.

(** C2 fails on the code.  Cell 1 of [two_tri_domain] has the vertices 1, 3
    and 2, whose mean position is (8, 4, 0); [element_location] averages
    three copies of vertex 0 with them and returns (4, 2, 0).  Cell 0 of the
    2 x 3 x 2 vertex grid has the corners 0 1 3 2 6 7 9 8 and the centroid
    (1/2, 1/2, 1/2); the code takes the vertices 0 1 4 3 4 5 8 7 and returns
    (1/2, 1, 1/4).  On a structured 2D topology the lookup of
    [elements/dims/k] fails. *)
Theorem element_location_explicit_divergence :
  (get_element_indices two_tri_topo 1 [] = Ok [0; 0; 0; 1; 3; 2]
   /\ connectivity_slice two_tri_topo 1 = Ok [1; 3; 2]
   /\ exists v m,
        element_location two_tri_domain 1 "" = Ok v
        /\ mean_position two_tri_coords [1; 3; 2] = Ok m
        /\ (vx v == 4 /\ vy v == 2 /\ vz v == 0)%Q
        /\ (vx m == 8 /\ vy m == 4 /\ vz m == 0)%Q)
  /\
  (get_element_indices grid_topo 0 [] = Ok [0; 1; 4; 3; 4; 5; 8; 7]
   /\ structured_corners_3d 2 3 0 0 0 = [0; 1; 3; 2; 6; 7; 9; 8]
   /\ exists v m,
        element_location grid_domain 0 "" = Ok v
        /\ mean_position grid_coords (structured_corners_3d 2 3 0 0 0) = Ok m
        /\ (vx v == 1 # 2 /\ vy v == 1 /\ vz v == 1 # 4)%Q
        /\ (vx m == 1 # 2 /\ vy m == 1 # 2 /\ vz m == 1 # 2)%Q)
  /\
  (get_element_indices quad_topo 0 [] = Err ConduitError
   /\ element_location quad_domain 0 "" = Err ConduitError).
Proof.
  split; [|split].
  - split; [vm_compute; reflexivity|].
    split; [vm_compute; reflexivity|].
    eexists. eexists.
    split; [vm_compute; reflexivity|].
    split; [vm_compute; reflexivity|].
    repeat split; reflexivity.
  - split; [vm_compute; reflexivity|].
    split; [vm_compute; reflexivity|].
    eexists. eexists.
    split; [vm_compute; reflexivity|].
    split; [vm_compute; reflexivity|].
    repeat split; reflexivity.
  - split; vm_compute; reflexivity.
Qed.

(* ================================================================== *)
(** * Further properties of the operations *)

(** ** detail::at_least_one, has_field, has_topology *)

Lemma vote_count_from (votes : list bool) (c : Z) :
  fold_left (fun count (v : bool) => count + (if v then 1 else 0)) votes c
  = c + fold_left (fun count (v : bool) => count + (if v then 1 else 0)) votes 0.
Proof.
  revert c. induction votes as [|v votes IH]; intros c; cbn [fold_left].
  - lia.
  - rewrite (IH (c + _)), (IH (0 + _)). lia.
Qed.

Lemma vote_count_positive (votes : list bool) :
  (0 <? fold_left (fun count (v : bool) => count + (if v then 1 else 0))
                  votes 0)
  = existsb (fun v => v) votes.
Proof.
  induction votes as [|v votes IH]; cbn [fold_left existsb]; [reflexivity|].
  rewrite vote_count_from.
  assert (Hnn : forall l,
             0 <= fold_left (fun count (v : bool) =>
                               count + (if v then 1 else 0)) l 0).
  { induction l as [|x l IHl]; cbn [fold_left]; [lia|].
    rewrite vote_count_from. destruct x; lia. }
  specialize (Hnn votes).
  destruct v; cbn [orb].
  - apply Z.ltb_lt. lia.
  - rewrite <- IH. f_equal.
Qed.

Lemma at_least_one_or (votes : list bool) (local : bool) :
  In local votes ->
  at_least_one votes local = existsb (fun v => v) votes.
Proof.
  intros Hin. unfold at_least_one.
  rewrite vote_count_positive.
  destruct (existsb (fun v => v) votes) eqn:E; [reflexivity|].
  destruct local; [|reflexivity].
  assert (Hex : existsb (fun v => v) votes = true)
    by (apply existsb_exists; exists true; auto).
  congruence.
Qed.

(** The reduction of [at_least_one] is the disjunction of the workers' local
    values, for every worker that takes part in it; without a reduction the
    local value is returned. *)
Theorem at_least_one_is_disjunction (votes : list bool) (local : bool) :
  In local votes ->
  at_least_one votes local = global_someone_agrees votes
  /\ at_least_one [] local = local.
Proof.
  intros Hin. split; [|reflexivity].
  unfold global_someone_agrees. now apply at_least_one_or.
Qed.

Lemma at_least_one_is_disjunction_witness :
  at_least_one [false; true; false] false = true
  /\ at_least_one [] false = false.
Proof.
  exact (at_least_one_is_disjunction [false; true; false] false
           (or_introl eq_refl)).
Defined.

Lemma has_path_scan_ok (dataset : Node) (p : path) :
  has_path_scan dataset p
  = Ok (existsb (fun dom => has_path dom p) (domains dataset)).
Proof.
  unfold has_path_scan.
  rewrite (domain_loop
             (fun found dom =>
                Ok (if negb found && has_path dom p then true else found))).
  unfold domains. generalize (map snd (children dataset)) as doms.
  assert (H : forall doms found,
             foldM (fun found dom =>
                      Ok (if negb found && has_path dom p then true else found))
                   doms found
             = Ok (found || existsb (fun dom => has_path dom p) doms)).
  { induction doms as [|dom doms IH]; intros found; cbn [foldM existsb bind].
    - now rewrite orb_false_r.
    - rewrite IH. f_equal.
      destruct found, (has_path dom p); reflexivity. }
  intros doms. apply (H doms false).
Qed.

Lemma at_least_one_all (locals : list bool) :
  map (at_least_one locals) locals
  = map (fun _ => existsb (fun v => v) locals) locals.
Proof.
  apply map_ext_in. intros local Hin.
  apply (at_least_one_or locals local Hin).
Qed.

Lemma existsb_scan (fleet : list Node) (p : path) :
  existsb (fun v => v)
          (map (fun ds => existsb (fun dom => has_path dom p) (domains ds)) fleet)
  = existsb (fun ds => existsb (fun dom => has_path dom p) (domains ds)) fleet.
Proof. rewrite existsb_map_pair. reflexivity. Qed.

Lemma has_field_ok (fleet : list Node) (name : string) :
  has_field fleet name
  = Ok (map (fun _ => existsb (worker_has name) fleet) fleet).
Proof.
  unfold has_field.
  rewrite (mapM_ok_map _ (fun ds => existsb (holds name) (domains ds)))
    by (intros ds _; apply has_path_scan_ok).
  cbn [bind]. rewrite at_least_one_all, map_map.
  unfold holds. rewrite existsb_scan. reflexivity.
Qed.

(** [has_field] and [has_topology] never fail, and every worker of the fleet
    gets the same answer: whether some domain of some worker has the field,
    or the topology. *)
Theorem has_field_has_topology_spec (fleet : list Node) (name : string) :
  has_field fleet name
  = Ok (map (fun _ => existsb (worker_has name) fleet) fleet)
  /\ has_topology fleet name
     = Ok (map (fun _ =>
                  existsb (fun ds =>
                             existsb (fun dom =>
                                        has_path dom ["topologies"%string; name])
                                     (domains ds)) fleet) fleet).
Proof.
  split.
  - apply has_field_ok.
  - unfold has_topology.
    rewrite (mapM_ok_map _
               (fun ds => existsb (fun dom =>
                                     has_path dom ["topologies"%string; name])
                                  (domains ds)))
      by (intros ds _; apply has_path_scan_ok).
    cbn [bind]. rewrite at_least_one_all, map_map, existsb_scan. reflexivity.
Qed.

Lemma association_declared_absent (field : string) (dataset : Node) :
  worker_has field dataset = false -> association_declared field dataset = true.
Proof.
  unfold worker_has, association_declared.
  induction (domains dataset) as [|dom doms IH]; cbn [existsb forallb];
    [reflexivity|].
  intros H. apply orb_false_iff in H. destruct H as [Hd Hr].
  rewrite Hd, (IH Hr). reflexivity.
Qed.

(** When no domain of any worker holds the field, which is when [has_field]
    answers false, [field_assoc] raises nothing and answers "element". *)
Theorem field_assoc_absent_field (fleet : list Node) (field : string) :
  existsb (worker_has field) fleet = false ->
  has_field fleet field = Ok (map (fun _ => false) fleet)
  /\ field_assoc fleet field = Ok "element"%string.
Proof.
  intros Hno. split.
  - rewrite has_field_ok, Hno. reflexivity.
  - assert (Hall : forall ds, In ds fleet -> worker_has field ds = false).
    { intros ds Hin. destruct (worker_has field ds) eqn:E; [|reflexivity].
      assert (existsb (worker_has field) fleet = true)
        by (apply existsb_exists; exists ds; auto).
      congruence. }
    rewrite field_assoc_votes.
    + assert (Hv : existsb (fun ds => worker_has field ds
                                      && worker_all_vertex field ds) fleet
                   = false).
      { apply not_true_iff_false. intros H. apply existsb_exists in H.
        destruct H as (ds & Hin & H). rewrite (Hall ds Hin) in H. discriminate. }
      rewrite Hv. reflexivity.
    + apply forallb_forall. intros ds Hin.
      apply association_declared_absent. now apply Hall.
Qed.

Lemma field_assoc_absent_field_witness :
  has_field [assoc_dataset "vertex"; Object []] "y" = Ok [false; false]
  /\ field_assoc [assoc_dataset "vertex"; Object []] "y" = Ok "element"%string.
Proof.
  exact (field_assoc_absent_field [assoc_dataset "vertex"; Object []]
           "y"%string eq_refl).
Defined.

(* ------------------------------------------------------------------ *)
(** ** Loops that stop at the first match *)

Lemma foldM_append {A St : Type} (f : St -> A -> result St) (l1 l2 : list A)
      (s : St) :
  foldM f (l1 ++ l2) s = (s' <- foldM f l1 s ;; foldM f l2 s').
Proof.
  revert s. induction l1 as [|a l1 IH]; intros s; cbn [app foldM bind];
    [reflexivity|].
  destruct (f s a) as [s'|e]; cbn [bind]; [apply IH | reflexivity].
Qed.

Lemma domains_dataset_of (doms : list Node) : domains (dataset_of doms) = doms.
Proof.
  unfold domains, dataset_of. cbn [children]. rewrite map_map.
  cbn [snd]. apply map_id.
Qed.

Lemma first_match_skip {St : Type} (found : St -> bool) (test : Node -> bool)
      (act : St -> Node -> result St) (doms : list Node) (st : St) :
  Forall (fun dom => test dom = false) doms ->
  foldM (first_match found test act) doms st = Ok st.
Proof.
  induction 1 as [|dom doms Hd _ IH]; cbn [foldM]; [reflexivity|].
  unfold first_match at 1. rewrite Hd, andb_false_r. cbn [bind]. exact IH.
Qed.

Lemma first_match_done {St : Type} (found : St -> bool) (test : Node -> bool)
      (act : St -> Node -> result St) (doms : list Node) (st : St) :
  found st = true ->
  foldM (first_match found test act) doms st = Ok st.
Proof.
  intros Hf. induction doms as [|dom doms IH]; cbn [foldM]; [reflexivity|].
  unfold first_match at 1. rewrite Hf. cbn [negb andb bind]. exact IH.
Qed.

Lemma first_match_hit {St : Type} (found : St -> bool) (test : Node -> bool)
      (act : St -> Node -> result St) (pre post : list Node) (dom : Node)
      (st : St) :
  found st = false ->
  Forall (fun d => test d = false) pre ->
  test dom = true ->
  (forall st', act st dom = Ok st' -> found st' = true) ->
  foldM (first_match found test act) (pre ++ dom :: post) st = act st dom.
Proof.
  intros Hf Hpre Hd Hact.
  rewrite foldM_append, (first_match_skip _ _ _ _ _ Hpre). cbn [bind foldM].
  unfold first_match at 1. rewrite Hf, Hd. cbn [negb andb].
  destruct (act st dom) as [st'|e] eqn:E; cbn [bind]; [|reflexivity].
  apply first_match_done. now apply Hact.
Qed.

(* ------------------------------------------------------------------ *)
(** ** is_scalar_field, get_state_var *)

Lemma is_scalar_field_loop (dataset : Node) (field_name : string) :
  is_scalar_field dataset field_name
  = ('(is_scalar, _) <-
       foldM (first_match snd (holds field_name)
                (fun (st : bool * bool) dom =>
                   n_field <- fetch dom (field_path field_name) ;;
                   n_values <- fetch n_field ["values"%string] ;;
                   Ok (if number_of_children n_values =? 0
                       then true else fst st, true)))
             (domains dataset) (false, false) ;;
     Ok is_scalar).
Proof.
  unfold is_scalar_field, domains. rewrite <- domain_loop.
  f_equal. apply foldM_ext_in. intros [is_scalar found] i _. reflexivity.
Qed.

(** [is_scalar_field] is decided by the first domain that holds the field:
    the answer is whether its values node has no children, whatever the later
    domains hold; it is an error when that domain has no values, and false
    when no domain holds the field. *)
Theorem is_scalar_field_first_domain (dataset : Node) (field_name : string) :
  (forall pre dom post n_field,
      domains dataset = pre ++ dom :: post ->
      Forall (fun d => holds field_name d = false) pre ->
      fetch dom (field_path field_name) = Ok n_field ->
      is_scalar_field dataset field_name
      = (n_values <- fetch n_field ["values"%string] ;;
         Ok (number_of_children n_values =? 0)))
  /\ (Forall (fun d => holds field_name d = false) (domains dataset) ->
      is_scalar_field dataset field_name = Ok false).
Proof.
  split.
  - intros pre dom post n_field Hdoms Hpre Hfield.
    rewrite is_scalar_field_loop, Hdoms.
    rewrite first_match_hit; auto.
    + rewrite Hfield. cbn [bind].
      destruct (fetch n_field ["values"%string]) as [n_values|e]; cbn [bind];
        [|reflexivity].
      cbn [fst]. destruct (number_of_children n_values =? 0); reflexivity.
    + unfold holds, has_path. now rewrite Hfield.
    + intros st' H. apply bind_ok_inv in H. destruct H as (? & _ & H).
      apply bind_ok_inv in H. destruct H as (? & _ & H).
      now injection H as <-.
  - intros Hno. rewrite is_scalar_field_loop.
    now rewrite (first_match_skip _ _ _ _ _ Hno).
Qed.

Lemma is_scalar_field_first_domain_witness :
  is_scalar_field
    (dataset_of [cycle_domain 7; values_domain (Float64 [1%Q]);
                 values_domain (Object [("u", Float64 [1%Q])]%string)]) "f"
  = Ok true.
Proof.
  apply (proj1 (is_scalar_field_first_domain _ "f"%string)
               [cycle_domain 7] (values_domain (Float64 [1%Q]))
               [values_domain (Object [("u", Float64 [1%Q])]%string)]
               (Object [("association", Str "vertex");
                        ("values", Float64 [1%Q])]%string)).
  - reflexivity.
  - repeat constructor.
  - reflexivity.
Defined.

Lemma get_state_var_loop (dataset : Node) (var_name : string) :
  get_state_var dataset var_name
  = ('(has_state, state) <-
       foldM (first_match fst (fun dom => has_path dom (state_path var_name))
                (fun (st : bool * Node) dom =>
                   s <- fetch dom (state_path var_name) ;;
                   Ok (true, s)))
             (domains dataset) (false, Empty) ;;
     if negb has_state
     then Err (AscentError "Unable to retrieve state variable")
     else Ok state).
Proof.
  unfold get_state_var, domains. rewrite <- domain_loop.
  f_equal. apply foldM_ext_in. intros [has_state state] i _. reflexivity.
Qed.

(** [get_state_var] returns the variable of the first domain whose state has
    it, and raises its error exactly when no domain has it. *)
Theorem get_state_var_first_domain (dataset : Node) (var_name : string) :
  (forall pre dom post state,
      domains dataset = pre ++ dom :: post ->
      Forall (fun d => has_path d (state_path var_name) = false) pre ->
      fetch dom (state_path var_name) = Ok state ->
      get_state_var dataset var_name = Ok state)
  /\ (Forall (fun d => has_path d (state_path var_name) = false)
             (domains dataset) <->
      get_state_var dataset var_name
      = Err (AscentError "Unable to retrieve state variable")).
Proof.
  assert (Hhit : forall pre dom post state,
             domains dataset = pre ++ dom :: post ->
             Forall (fun d => has_path d (state_path var_name) = false) pre ->
             fetch dom (state_path var_name) = Ok state ->
             get_state_var dataset var_name = Ok state).
  { intros pre dom post state Hdoms Hpre Hfetch.
    rewrite get_state_var_loop, Hdoms.
    rewrite first_match_hit; auto.
    - rewrite Hfetch. reflexivity.
    - unfold has_path. now rewrite Hfetch.
    - intros st' H. apply bind_ok_inv in H. destruct H as (? & _ & H).
      now injection H as <-. }
  split; [exact Hhit|].
  split.
  - intros Hno. rewrite get_state_var_loop.
    now rewrite (first_match_skip _ _ _ _ _ Hno).
  - intros Herr.
    assert (Hsplit : forall doms,
               Forall (fun d => has_path d (state_path var_name) = false) doms
               \/ exists pre dom post,
                   doms = pre ++ dom :: post
                   /\ Forall (fun d => has_path d (state_path var_name) = false)
                             pre
                   /\ has_path dom (state_path var_name) = true).
    { induction doms as [|d doms IH]; [left; constructor|].
      destruct (has_path d (state_path var_name)) eqn:E.
      - right. exists [], d, doms. repeat split; auto.
      - destruct IH as [IH | (pre & dom & post & -> & Hpre & Hd)].
        + left. now constructor.
        + right. exists (d :: pre), dom, post. repeat split; auto. }
    destruct (Hsplit (domains dataset))
      as [Hno | (pre & dom & post & Hdoms & Hpre & Hd)]; [exact Hno|].
    exfalso. unfold has_path in Hd.
    destruct (fetch dom (state_path var_name)) as [state|e] eqn:E;
      [|discriminate].
    rewrite (Hhit pre dom post state Hdoms Hpre E) in Herr. discriminate.
Qed.

Lemma get_state_var_first_domain_witness :
  get_state_var (dataset_of [values_domain Empty; cycle_domain 7;
                             cycle_domain 9]) "cycle"
  = Ok (scalar_i32 7).
Proof.
  apply (proj1 (get_state_var_first_domain _ "cycle"%string)
               [values_domain Empty] (cycle_domain 7) [cycle_domain 9]).
  - reflexivity.
  - repeat constructor.
  - reflexivity.
Defined.

(* ------------------------------------------------------------------ *)
(** ** field_nan_count, field_inf_count *)

Lemma count_fold (count : Node -> result Q) (field : string)
      (doms : list Node) (counts : list Q) (c0 : Q) :
  domain_counts count doms field = Ok counts ->
  exists c,
    foldM (fun acc dom =>
             if has_path dom (field_path field) then
               n_values <- fetch dom (values_path field) ;;
               c <- count n_values ;;
               Ok (acc + c)%Q
             else Ok acc)
          doms c0 = Ok c
    /\ (c == c0 + Qsum counts)%Q
    /\ (counts = [] -> c = c0).
Proof.
  revert counts c0. induction doms as [|dom doms IH]; intros counts c0;
    cbn [domain_counts foldM].
  - intros H; injection H as <-. exists c0. repeat split.
    unfold Qsum; simpl. ring.
  - destruct (has_path dom (field_path field)).
    + destruct (fetch dom (values_path field)) as [n|e]; cbn [bind];
        [|discriminate].
      destruct (count n) as [x|e]; cbn [bind]; [|discriminate].
      intros H. apply bind_ok_inv in H. destruct H as (rest & Hrest & H).
      injection H as <-.
      destruct (IH rest (c0 + x)%Q Hrest) as (c & Hc & Heq & _).
      exists c. split; [exact Hc|]. split; [|discriminate].
      rewrite Heq, Qsum_cons. ring.
    + cbn [bind]. apply IH.
Qed.

(** [field_nan_count] and [field_inf_count] return the sum of the counts of
    the domains that hold the field, and exactly 0 when no domain holds
    it. *)
Theorem field_nan_inf_count_spec (array_nan_count array_inf_count : Node -> result Q)
        (dataset : Node) (field : string) :
  (forall counts,
      domain_counts array_nan_count (domains dataset) field = Ok counts ->
      exists c,
        field_nan_count array_nan_count dataset field
        = Ok (Object [("value", scalar_f64 c)]%string)
        /\ (c == Qsum counts)%Q)
  /\ (forall counts,
         domain_counts array_inf_count (domains dataset) field = Ok counts ->
         exists c,
           field_inf_count array_inf_count dataset field
           = Ok (Object [("value", scalar_f64 c)]%string)
           /\ (c == Qsum counts)%Q)
  /\ (Forall (fun d => holds field d = false) (domains dataset) ->
      field_nan_count array_nan_count dataset field
      = Ok (Object [("value", scalar_f64 0)]%string)
      /\ field_inf_count array_inf_count dataset field
         = Ok (Object [("value", scalar_f64 0)]%string)).
Proof.
  assert (Hnone : forall count doms,
             Forall (fun d => holds field d = false) doms ->
             domain_counts count doms field = Ok []).
  { intros count doms H. induction H as [|d doms Hd _ IH];
      cbn [domain_counts]; [reflexivity|].
    unfold holds in Hd. now rewrite Hd. }
  split; [|split].
  - intros counts H. unfold field_nan_count. rewrite domain_loop.
    destruct (count_fold array_nan_count field _ counts 0%Q H)
      as (c & Hc & Heq & _).
    unfold domains in Hc. rewrite Hc. cbn [bind].
    exists c. split; [reflexivity|]. rewrite Heq. ring.
  - intros counts H. unfold field_inf_count. rewrite domain_loop.
    destruct (count_fold array_inf_count field _ counts 0%Q H)
      as (c & Hc & Heq & _).
    unfold domains in Hc. rewrite Hc. cbn [bind].
    exists c. split; [reflexivity|]. rewrite Heq. ring.
  - intros Hno. split.
    + unfold field_nan_count. rewrite domain_loop.
      destruct (count_fold array_nan_count field _ [] 0%Q
                  (Hnone array_nan_count _ Hno)) as (c & Hc & _ & Hz).
      unfold domains in Hc. rewrite Hc, (Hz eq_refl). reflexivity.
    + unfold field_inf_count. rewrite domain_loop.
      destruct (count_fold array_inf_count field _ [] 0%Q
                  (Hnone array_inf_count _ Hno)) as (c & Hc & _ & Hz).
      unfold domains in Hc. rewrite Hc, (Hz eq_refl). reflexivity.
Qed.

Lemma field_nan_inf_count_spec_witness :
  let count := fun n : Node => Ok (to_double (number_of_elements n)) in
  exists c,
    field_nan_count count scenario_dataset "f"
    = Ok (Object [("value", scalar_f64 c)]%string)
    /\ (c == Qsum [9; 1])%Q.
Proof.
  intros count.
  apply (proj1 (field_nan_inf_count_spec count count scenario_dataset
                  "f"%string)).
  reflexivity.
Defined.

(* ------------------------------------------------------------------ *)
(** ** field_type *)

Lemma mapM_ok_nth {A B : Type} (f : A -> result B) (l : list A) (l' : list B) :
  mapM f l = Ok l' ->
  List.length l' = List.length l
  /\ forall r a b, nth_error l r = Some a -> nth_error l' r = Some b ->
                   f a = Ok b.
Proof.
  revert l'. induction l as [|x l IH]; intros l' H; cbn [mapM] in H.
  - injection H as <-. split; [reflexivity|]. intros [|r] a b Ha; discriminate.
  - apply bind_ok_inv in H. destruct H as (y & Hy & H).
    apply bind_ok_inv in H. destruct H as (ys & Hys & H).
    injection H as <-. destruct (IH ys Hys) as [Hlen Hnth].
    split; [simpl; now rewrite Hlen|].
    intros [|r] a b Ha Hb; cbn [nth_error] in *.
    + injection Ha as <-. injection Hb as <-. exact Hy.
    + now apply (Hnth r).
Qed.

Lemma field_type_fold (field : string) (doms : list Node) (st0 st : type_scan) :
  foldM (fun st dom =>
           if has_path dom (field_path field) then
             asc <- fetch_string dom (association_path field) ;;
             n_values <- fetch dom (values_path field) ;;
             if is_float32 n_values then
               Ok (mkTypeScan false true (ts_error st))
             else if negb (is_float64 n_values) then
               Ok (mkTypeScan (ts_is_double st) true true)
             else Ok (mkTypeScan (ts_is_double st) true (ts_error st))
           else Ok st)
        doms st0 = Ok st ->
  ts_is_double st
  = ts_is_double st0
    && negb (existsb (fun dom =>
                        holds field dom
                        && match fetch dom (values_path field) with
                           | Ok n => is_float32 n
                           | Err _ => false
                           end) doms).
Proof.
  revert st0. induction doms as [|dom doms IH]; intros st0;
    cbn [foldM existsb].
  - intros H; injection H as <-. now rewrite andb_true_r.
  - unfold holds at 1.
    destruct (has_path dom (field_path field)); cbn [andb orb].
    + intros H. apply bind_ok_inv in H. destruct H as (st1 & H1 & H).
      apply bind_ok_inv in H1. destruct H1 as (asc & _ & H1).
      apply bind_ok_inv in H1. destruct H1 as (n & Hn & H1).
      rewrite Hn. rewrite (IH st1 H).
      destruct (is_float32 n); cbn [orb negb].
      * injection H1 as <-. cbn [ts_is_double]. now rewrite andb_false_r.
      * destruct (negb (is_float64 n)); injection H1 as <-; reflexivity.
    + cbn [bind]. apply IH.
Qed.

(** [field_type] takes a vote and does not use it: when it raises nothing,
    the answer of each worker is "float" exactly when one of its own domains
    holds the field with float32 values, and "double" otherwise, whatever
    the other workers hold. *)
Theorem field_type_local_answer (global_agreement : list bool -> bool)
        (fleet : list Node) (field : string) (answers : list string) :
  field_type global_agreement fleet field = Ok answers ->
  List.length answers = List.length fleet
  /\ forall r dataset a,
      nth_error fleet r = Some dataset ->
      nth_error answers r = Some a ->
      a = (if worker_has_float32 field dataset then "float" else "double")%string.
Proof.
  unfold field_type. intros H.
  apply bind_ok_inv in H. destruct H as (locals & Hlocals & H).
  destruct (global_agreement (map ts_error locals)); [discriminate|].
  injection H as <-.
  destruct (mapM_ok_nth _ _ _ Hlocals) as [Hlen Hnth].
  split; [now rewrite length_map|].
  intros r dataset a Hds Ha.
  rewrite nth_error_map in Ha.
  destruct (nth_error locals r) as [st|] eqn:Hst; [|discriminate].
  injection Ha as <-.
  specialize (Hnth r dataset st Hds Hst).
  unfold field_type_scan in Hnth. rewrite domain_loop in Hnth.
  apply field_type_fold in Hnth. cbn [ts_is_double andb] in Hnth.
  unfold worker_has_float32, domains. rewrite Hnth.
  destruct (existsb _ _); reflexivity.
Qed.

Lemma field_type_local_answer_witness :
  List.length ["float"; "double"]%string = 2%nat
  /\ forall r dataset a,
      nth_error [dataset_of [values_domain (Float32 [1%Q])];
                 dataset_of [values_domain (Float64 [1%Q])]] r
      = Some dataset ->
      nth_error ["float"; "double"]%string r = Some a ->
      a = (if worker_has_float32 "f" dataset then "float" else "double")%string.
Proof.
  exact (field_type_local_answer (existsb (fun v => v))
           [dataset_of [values_domain (Float32 [1%Q])];
            dataset_of [values_domain (Float64 [1%Q])]]
           "f"%string ["float"; "double"]%string eq_refl).
Defined.

(* ------------------------------------------------------------------ *)
(** ** topology_types *)

Lemma fetch_prefix (p q : path) (n c : Node) :
  fetch n (p ++ q) = Ok c -> exists m, fetch n p = Ok m /\ fetch m q = Ok c.
Proof.
  revert n. induction p as [|k p IH]; intros n H.
  - exists n. split; [reflexivity | exact H].
  - cbn [app] in H. destruct n as [|cs| | | | |]; try discriminate.
    rewrite fetch_object in *.
    destruct (lookup k cs) as [c'|]; [|discriminate].
    now apply IH.
Qed.

Lemma fetch_error (n : Node) (p : path) (e : error) :
  fetch n p = Err e -> e = ConduitError.
Proof.
  revert n. induction p as [|k p IH]; intros n H; [discriminate|].
  destruct n as [|cs| | | | |]; try (injection H as <-; reflexivity).
  rewrite fetch_object in H.
  destruct (lookup k cs) as [c'|]; [now apply (IH c') | now injection H as <-].
Qed.

Lemma fetch_string_error (n : Node) (p : path) (e : error) :
  fetch_string n p = Err e -> e = ConduitError.
Proof.
  unfold fetch_string. destruct (fetch n p) as [c|e'] eqn:E; cbn [bind].
  - destruct c; intros H; try discriminate; now injection H as <-.
  - intros H; injection H as <-. eapply fetch_error; exact E.
Qed.

Lemma incr_slot (k : nat) (a b c d e : Z) :
  (k < 5)%nat ->
  incr k [a; b; c; d; e]
  = [if (k =? 0)%nat then a + 1 else a; if (k =? 1)%nat then b + 1 else b;
     if (k =? 2)%nat then c + 1 else c; if (k =? 3)%nat then d + 1 else d;
     if (k =? 4)%nat then e + 1 else e].
Proof.
  intros Hk. destruct k as [|[|[|[|[|k]]]]]; try reflexivity. lia.
Qed.

Lemma constant_loop (h : list Z -> list Z) (l : list Z) (s : list Z) :
  foldM (fun s (_ : Z) => Ok (h s)) l s
  = Ok (fold_left (fun s _ => h s) l s).
Proof.
  revert s. induction l as [|i l IH]; intros s; cbn [foldM fold_left bind];
    [reflexivity | apply IH].
Qed.

Lemma incr_repeated (k : nat) (l : list Z) (a b c d e : Z) :
  (k < 5)%nat ->
  fold_left (fun s _ => incr k s) l [a; b; c; d; e]
  = [if (k =? 0)%nat then a + Z.of_nat (List.length l) else a;
     if (k =? 1)%nat then b + Z.of_nat (List.length l) else b;
     if (k =? 2)%nat then c + Z.of_nat (List.length l) else c;
     if (k =? 3)%nat then d + Z.of_nat (List.length l) else d;
     if (k =? 4)%nat then e + Z.of_nat (List.length l) else e].
Proof.
  intros Hk. revert a b c d e.
  induction l as [|i l IH]; intros a b c d e; cbn [fold_left List.length].
  - destruct k as [|[|[|[|[|k]]]]]; cbn; rewrite ?Z.add_0_r; reflexivity.
  - rewrite incr_slot by exact Hk. rewrite IH.
    destruct k as [|[|[|[|[|k]]]]]; cbn [Nat.eqb]; try lia;
      repeat (f_equal; try lia).
Qed.

Lemma fold_left_id {A B : Type} (l : list B) (s : A) :
  fold_left (fun s _ => s) l s = s.
Proof. induction l as [|i l IH]; cbn [fold_left]; auto. Qed.

(** [topology_types] reads the first domain at every iteration: the count of
    the first domain's topology type is the number of domains and the other
    counts are 0, whatever the other domains hold; all counts are 0 when the
    first domain lacks the topology. *)
Theorem topology_types_first_domain (dataset : Node) (topo_name : string)
        (dom0 : Node) :
  child dataset 0 = Ok dom0 ->
  (forall ty,
      fetch_string dom0 ["topologies"%string; topo_name; "type"%string] = Ok ty ->
      topology_types dataset topo_name
      = Ok (slot_counts ty (number_of_children dataset)))
  /\ (has_path dom0 ["topologies"%string; topo_name] = false ->
      topology_types dataset topo_name = Ok [0; 0; 0; 0; 0]).
Proof.
  intros Hdom0.
  assert (Hlen : Z.of_nat (List.length (range (number_of_children dataset)))
                 = number_of_children dataset).
  { unfold range. rewrite length_map, length_seq.
    pose proof (child_in_range _ _ _ Hdom0). lia. }
  split.
  - intros ty Hty. unfold topology_types. rewrite Hdom0. cbn [bind].
    assert (Hhas : has_path dom0 ["topologies"%string; topo_name] = true).
    { unfold fetch_string in Hty.
      apply bind_ok_inv in Hty. destruct Hty as (c & Hc & _).
      change ["topologies"%string; topo_name; "type"%string]
        with (["topologies"%string; topo_name] ++ ["type"%string])%list in Hc.
      apply fetch_prefix in Hc. destruct Hc as (m & Hm & _).
      unfold has_path. now rewrite Hm. }
    rewrite Hhas, Hty. cbn [bind]. unfold slot_counts.
    destruct (String.eqb_spec ty "points") as [->|_].
    { change (foldM (fun s (_ : Z) => Ok (incr 0 s))
                    (range (number_of_children dataset)) [0; 0; 0; 0; 0]
              = Ok [number_of_children dataset; 0; 0; 0; 0]).
      rewrite constant_loop, (incr_repeated 0) by lia.
      cbn [Nat.eqb]. now rewrite Hlen. }
    destruct (String.eqb_spec ty "uniform") as [->|_].
    { change (foldM (fun s (_ : Z) => Ok (incr 1 s))
                    (range (number_of_children dataset)) [0; 0; 0; 0; 0]
              = Ok [0; number_of_children dataset; 0; 0; 0]).
      rewrite constant_loop, (incr_repeated 1) by lia.
      cbn [Nat.eqb]. now rewrite Hlen. }
    destruct (String.eqb_spec ty "rectilinear") as [->|_].
    { change (foldM (fun s (_ : Z) => Ok (incr 2 s))
                    (range (number_of_children dataset)) [0; 0; 0; 0; 0]
              = Ok [0; 0; number_of_children dataset; 0; 0]).
      rewrite constant_loop, (incr_repeated 2) by lia.
      cbn [Nat.eqb]. now rewrite Hlen. }
    destruct (String.eqb_spec ty "structured") as [->|_].
    { change (foldM (fun s (_ : Z) => Ok (incr 3 s))
                    (range (number_of_children dataset)) [0; 0; 0; 0; 0]
              = Ok [0; 0; 0; number_of_children dataset; 0]).
      rewrite constant_loop, (incr_repeated 3) by lia.
      cbn [Nat.eqb]. now rewrite Hlen. }
    destruct (String.eqb_spec ty "unstructured") as [->|_].
    { change (foldM (fun s (_ : Z) => Ok (incr 4 s))
                    (range (number_of_children dataset)) [0; 0; 0; 0; 0]
              = Ok [0; 0; 0; 0; number_of_children dataset]).
      rewrite constant_loop, (incr_repeated 4) by lia.
      cbn [Nat.eqb]. now rewrite Hlen. }
    rewrite (constant_loop (fun s => s)). now rewrite fold_left_id.
  - intros Hno. unfold topology_types. rewrite Hdom0. cbn [bind].
    rewrite Hno.
    rewrite (constant_loop (fun s => s)). now rewrite fold_left_id.
Qed.

Lemma topology_types_first_domain_witness :
  topology_types (dataset_of [typed_domain "uniform";
                              typed_domain "unstructured";
                              typed_domain "unstructured"]) "mesh"
  = Ok [0; 3; 0; 0; 0].
Proof.
  apply (proj1 (topology_types_first_domain
                  (dataset_of [typed_domain "uniform";
                               typed_domain "unstructured";
                               typed_domain "unstructured"])
                  "mesh"%string (typed_domain "uniform") eq_refl)
               "uniform"%string).
  reflexivity.
Defined.

(* ------------------------------------------------------------------ *)
(** ** num_cells *)

Lemma has_path_false (n : Node) (p : path) :
  has_path n p = false -> fetch n p = Err ConduitError.
Proof.
  unfold has_path. destruct (fetch n p) as [c|e] eqn:E; [discriminate|].
  intros _. f_equal. eapply fetch_error; exact E.
Qed.

(** [num_cells] reads the connectivity of an unstructured topology at
    ["elements/connectiviy"]: on a topology without a child of that name the
    lookup fails, whatever ["elements/connectivity"] holds. *)
Theorem num_cells_unstructured_lookup (domain : Node) (topo_name : string)
        (n_topo : Node) :
  fetch domain ["topologies"%string; topo_name] = Ok n_topo ->
  fetch_string n_topo ["type"%string] = Ok "unstructured"%string ->
  has_path n_topo ["elements"; "connectiviy"]%string = false ->
  num_cells domain topo_name = Err ConduitError.
Proof.
  intros Htopo Hty Hno. unfold num_cells. rewrite Htopo. cbn [bind].
  rewrite Hty. cbn [bind].
  change ("unstructured" =? "unstructured")%string with true. cbv iota.
  destruct (fetch_string n_topo ["elements"; "shape"]%string) as [shape|e] eqn:E;
    cbn [bind].
  - unfold fetch_count. rewrite (has_path_false _ _ Hno). reflexivity.
  - f_equal. eapply fetch_string_error; exact E.
Qed.

Lemma num_cells_unstructured_lookup_witness :
  num_cells two_tri_domain "mesh" = Err ConduitError.
Proof.
  apply (num_cells_unstructured_lookup two_tri_domain "mesh"%string
           two_tri_topo); reflexivity.
Defined.

(** [num_cells] has no case for a structured topology: when the topology and
    its coordinate set are there, the result is -1. *)
Theorem num_cells_structured (domain : Node) (topo_name c_name : string)
        (n_topo n_coords : Node) :
  fetch domain ["topologies"%string; topo_name] = Ok n_topo ->
  fetch_string n_topo ["type"%string] = Ok "structured"%string ->
  fetch_string n_topo ["coordset"%string] = Ok c_name ->
  fetch domain ["coordsets"%string; c_name] = Ok n_coords ->
  num_cells domain topo_name = Ok (-1).
Proof.
  intros Htopo Hty Hc Hcoords. unfold num_cells.
  rewrite Htopo. cbn [bind]. rewrite Hty. cbn [bind].
  change ("structured" =? "unstructured")%string with false.
  change ("structured" =? "points")%string with false.
  change ("structured" =? "uniform")%string with false.
  change ("structured" =? "rectilinear")%string with false.
  change ("structured" =? "explicit")%string with false.
  cbv iota. cbn [bind]. rewrite Hc. cbn [bind]. rewrite Hcoords. reflexivity.
Qed.

Lemma num_cells_structured_witness : num_cells grid_domain "mesh" = Ok (-1).
Proof.
  apply (num_cells_structured grid_domain "mesh"%string "coords"%string
           grid_topo grid_coords); reflexivity.
Defined.

(* ------------------------------------------------------------------ *)
(** ** get_explicit_vert, get_element_indices *)

Lemma coord_array_error (is_f64 : bool) (n_coords : Node) (p : path) (e : error) :
  coord_array is_f64 n_coords p = Err e -> e = ConduitError.
Proof.
  unfold coord_array. destruct (fetch n_coords p) as [c|e'] eqn:E; cbn [bind].
  - destruct is_f64, c; intros H; try discriminate; now injection H as <-.
  - intros H; injection H as <-. eapply fetch_error; exact E.
Qed.

(** [get_explicit_vert] reads the z array whatever the dimension: on a
    coordinate set without ["values/z"] it fails with a lookup error for
    every index. *)
Theorem get_explicit_vert_needs_z (n_coords : Node) (index : Z) :
  has_path n_coords ["values"; "z"]%string = false ->
  get_explicit_vert n_coords index = Err ConduitError.
Proof.
  intros Hno. unfold get_explicit_vert.
  destruct (fetch n_coords ["values"; "x"]%string) as [nx|e] eqn:Ex; cbn [bind].
  2:{ f_equal. eapply fetch_error; exact Ex. }
  destruct (coord_array _ n_coords ["values"; "x"]%string) as [x_a|e] eqn:Ea;
    cbn [bind].
  2:{ f_equal. eapply coord_array_error; exact Ea. }
  destruct (coord_array _ n_coords ["values"; "y"]%string) as [y_a|e] eqn:Eb;
    cbn [bind].
  2:{ f_equal. eapply coord_array_error; exact Eb. }
  unfold coord_array at 1. rewrite (has_path_false _ _ Hno). reflexivity.
Qed.

Lemma get_explicit_vert_needs_z_witness :
  get_explicit_vert
    (Object [("type", Str "explicit");
             ("values", Object [("x", Float64 [0; 1]%Q);
                                ("y", Float64 [0; 1]%Q)])]%string) 0
  = Err ConduitError.
Proof.
  apply get_explicit_vert_needs_z. reflexivity.
Defined.

Lemma get_element_indices_unstructured_witness :
  get_element_indices two_tri_topo 1 [] = Ok (repeat 0 3 ++ [1; 3; 2]).
Proof.
  apply (get_element_indices_unstructured two_tri_topo 1 "tri"%string 3
           [1; 3; 2]); reflexivity.
Defined.

(** On a topology that is not unstructured, [get_element_indices] tests for
    ["elements/dims/j"] where it reads ["elements/dims/k"]: it fails when
    [k] is missing, and a list it returns has eight entries, never four. *)
Theorem get_element_indices_structured (n_topo : Node) (index : Z)
        (indices : list Z) (mesh_type : string) :
  fetch_string n_topo ["type"%string] = Ok mesh_type ->
  String.eqb mesh_type "unstructured" = false ->
  (forall r, get_element_indices n_topo index indices = Ok r ->
             List.length r = 8%nat)
  /\ (has_path n_topo ["elements"; "dims"; "k"]%string = false ->
      get_element_indices n_topo index indices = Err ConduitError).
Proof.
  intros Hty Hne. unfold get_element_indices. rewrite Hty. cbn [bind].
  rewrite Hne.
  assert (Hint : forall p e, fetch_int n_topo p = Err e -> e = ConduitError).
  { intros p e. unfold fetch_int.
    destruct (fetch n_topo p) as [c|e'] eqn:E; cbn [bind].
    - destruct c as [| | |[|? ?]|[|? ?]|[|? ?]|[|? ?]]; intros H;
        try discriminate; now injection H as <-.
    - intros H; injection H as <-. eapply fetch_error; exact E. }
  split.
  - intros r H.
    apply bind_ok_inv in H. destruct H as (i & _ & H).
    apply bind_ok_inv in H. destruct H as (j & Hj & H).
    assert (Hhas : has_path n_topo ["elements"; "dims"; "j"]%string = true).
    { unfold fetch_int in Hj. apply bind_ok_inv in Hj.
      destruct Hj as (c & Hc & _). unfold has_path. now rewrite Hc. }
    rewrite Hhas in H.
    apply bind_ok_inv in H. destruct H as ([vd2 is_2d] & Hk & H).
    apply bind_ok_inv in Hk. destruct Hk as (k & _ & Hk).
    injection Hk as <- <-.
    apply bind_ok_inv in H. destruct H as (element_index & _ & H).
    injection H as <-. reflexivity.
  - intros Hno.
    destruct (fetch_int n_topo ["elements"; "dims"; "i"]%string) as [i|e] eqn:Ei;
      cbn [bind].
    2:{ f_equal. eapply Hint; exact Ei. }
    destruct (fetch_int n_topo ["elements"; "dims"; "j"]%string) as [j|e] eqn:Ej;
      cbn [bind].
    2:{ f_equal. eapply Hint; exact Ej. }
    assert (Hhas : has_path n_topo ["elements"; "dims"; "j"]%string = true).
    { unfold fetch_int in Ej. apply bind_ok_inv in Ej.
      destruct Ej as (c & Hc & _). unfold has_path. now rewrite Hc. }
    rewrite Hhas. unfold fetch_int at 1.
    rewrite (has_path_false _ _ Hno). reflexivity.
Qed.

Lemma get_element_indices_structured_witness :
  get_element_indices quad_topo 0 [] = Err ConduitError.
Proof.
  apply (proj2 (get_element_indices_structured quad_topo 0 []
                  "structured"%string eq_refl eq_refl)).
  reflexivity.
Defined.

(* ------------------------------------------------------------------ *)
(** ** Uniform grids *)

Lemma logical_index_3d_grid (idx dims : int3) (index i j k : Z) :
  at0 dims * at1 dims <= INT_MAX ->
  0 <= i < at0 dims -> 0 <= j < at1 dims -> 0 <= k ->
  index = i + j * at0 dims + k * at0 dims * at1 dims ->
  logical_index_3d idx index dims = Ok (mk3 i j k).
Proof.
  destruct dims as [dx dy dz]; cbn [at0 at1 at2].
  intros Hplane Hi Hj Hk ->.
  assert (Hx : 0 < dx) by lia.
  assert (Hy : 0 < dy) by lia.
  assert (Hjk : 0 <= j + k * dy) by nia.
  assert (E3 : i + j * dx + k * dx * dy = i + (j + k * dy) * dx) by ring.
  unfold logical_index_3d, int_mod, int_div; cbn [at0 at1 at2].
  rewrite int_mul_small by (unfold INT_MAX in *; nia).
  destruct (Z.eqb_spec dx 0) as [->|_]; [lia|].
  destruct (Z.eqb_spec dy 0) as [->|_]; [lia|].
  destruct (Z.eqb_spec (dx * dy) 0) as [E|_]; [nia|].
  cbn [bind]. rewrite E3.
  rewrite Z.rem_mod_nonneg by nia.
  rewrite (Z.quot_div_nonneg (i + (j + k * dy) * dx) dx) by nia.
  rewrite Z.mod_add by lia.
  rewrite Z.div_add by lia.
  rewrite (Z.mod_small i dx), (Z.div_small i dx) by lia.
  rewrite Z.add_0_l.
  rewrite Z.rem_mod_nonneg by nia.
  rewrite Z.mod_add by lia.
  rewrite (Z.mod_small j dy) by lia.
  rewrite Z.quot_div_nonneg by nia.
  replace (i + (j + k * dy) * dx) with ((i + j * dx) + k * (dx * dy)) by ring.
  rewrite Z.div_add by nia.
  rewrite (Z.div_small (i + j * dx) (dx * dy)) by nia.
  reflexivity.
Qed.

Lemma logical_index_2d_grid (idx dims : int3) (index i j : Z) :
  0 <= i < at0 dims -> 0 <= j ->
  index = i + j * at0 dims ->
  logical_index_2d idx index dims = Ok (mk3 i j (at2 idx)).
Proof.
  destruct dims as [dx dy dz]; cbn [at0 at1 at2].
  intros Hi Hj ->.
  unfold logical_index_2d, int_mod, int_div; cbn [at0 at1 at2].
  destruct (Z.eqb_spec dx 0) as [->|_]; [lia|].
  cbn [bind].
  rewrite Z.rem_mod_nonneg by nia.
  rewrite Z.quot_div_nonneg by nia.
  rewrite Z.mod_add, Z.div_add by lia.
  rewrite Z.mod_small, Z.div_small by lia.
  reflexivity.
Qed.

Lemma uniform_vert_3d (n_coords : Node) (coords : UniformCoords)
      (index i j k : Z) :
  populate n_coords = Ok coords -> m_is_2d coords = false ->
  at0 (m_dims coords) * at1 (m_dims coords) <= INT_MAX ->
  0 <= i < at0 (m_dims coords) -> 0 <= j < at1 (m_dims coords) -> 0 <= k ->
  index = i + j * at0 (m_dims coords)
          + k * at0 (m_dims coords) * at1 (m_dims coords) ->
  get_uniform_vert n_coords index
  = Ok (vadd3 (m_origin coords) (mk3 i j k) (m_spacing coords)).
Proof.
  intros Hp H3 Hplane Hi Hj Hk Hidx. unfold get_uniform_vert.
  rewrite Hp. cbn [bind]. rewrite H3.
  now rewrite (logical_index_3d_grid zero3 _ index i j k Hplane Hi Hj Hk Hidx).
Qed.

Lemma uniform_vert_2d (n_coords : Node) (coords : UniformCoords)
      (index i j : Z) :
  populate n_coords = Ok coords -> m_is_2d coords = true ->
  0 <= i < at0 (m_dims coords) -> 0 <= j ->
  index = i + j * at0 (m_dims coords) ->
  get_uniform_vert n_coords index
  = Ok (vadd3 (m_origin coords) (mk3 i j 0) (m_spacing coords)).
Proof.
  intros Hp H2 Hi Hj Hidx. unfold get_uniform_vert.
  rewrite Hp. cbn [bind]. rewrite H2.
  now rewrite (logical_index_2d_grid zero3 _ index i j Hi Hj Hidx).
Qed.

(** On a uniform coordinate set, [get_uniform_vert] at the linear index of
    the grid point (i, j, k) is origin + (i, j, k) * spacing, per axis,
    provided the linear index is an int and, in 3D, so is the number
    [dims.x * dims.y] of points of a plane; in 2D the index is
    [i + j * dims.x] and the z part is the origin's. *)
Theorem get_uniform_vert_grid (n_coords : Node) (coords : UniformCoords)
        (i j k : Z) :
  populate n_coords = Ok coords ->
  0 <= i < at0 (m_dims coords) -> 0 <= j < at1 (m_dims coords) -> 0 <= k ->
  (m_is_2d coords = false ->
   at0 (m_dims coords) * at1 (m_dims coords) <= INT_MAX ->
   i + j * at0 (m_dims coords)
   + k * at0 (m_dims coords) * at1 (m_dims coords) <= INT_MAX ->
   get_uniform_vert n_coords
     (i + j * at0 (m_dims coords)
      + k * at0 (m_dims coords) * at1 (m_dims coords))
   = Ok (vadd3 (m_origin coords) (mk3 i j k) (m_spacing coords)))
  /\ (m_is_2d coords = true ->
      i + j * at0 (m_dims coords) <= INT_MAX ->
      get_uniform_vert n_coords (i + j * at0 (m_dims coords))
      = Ok (vadd3 (m_origin coords) (mk3 i j 0) (m_spacing coords))).
Proof.
  intros Hp Hi Hj Hk. split; intros Hd.
  - intros Hplane _. now apply uniform_vert_3d.
  - intros _. apply uniform_vert_2d; auto. lia.
Qed.

Lemma get_uniform_vert_grid_witness :
  let n_coords :=
    Object [("type", Str "uniform");
            ("dims", Object [("i", scalar_i32 3); ("j", scalar_i32 3)]);
            ("origin", Object [("x", scalar_f64 0); ("y", scalar_f64 0)]);
            ("spacing", Object [("dx", scalar_f64 (1 # 2));
                                ("dy", scalar_f64 2)])]%string in
  get_uniform_vert n_coords (2 + 1 * 3)
  = Ok (vadd3 (mkv 0 0 0) (mk3 2 1 0) (mkv (1 # 2) 2 1))
  /\ get_uniform_vert box_coords (2 + 1 * 3 + 1 * 3 * 4)
     = Ok (vadd3 (mkv 1 0 0) (mk3 2 1 1) (mkv (1 # 2) 2 1)).
Proof.
  intros n_coords. split.
  - refine (proj2 (get_uniform_vert_grid n_coords
                     (mkUniformCoords (mkv 0 0 0) (mkv (1 # 2) 2 1)
                                      (mk3 3 3 1) true)
                     2 1 0 eq_refl _ _ _) eq_refl _);
      unfold INT_MAX; cbn; lia.
  - refine (proj1 (get_uniform_vert_grid box_coords box_uniform
                     2 1 1 eq_refl _ _ _) eq_refl _ _);
      unfold INT_MAX; cbn; lia.
Defined.

Lemma uniform_element_3d (n_coords : Node) (coords : UniformCoords)
      (index i j k : Z) :
  populate n_coords = Ok coords -> m_is_2d coords = false ->
  (at0 (m_dims coords) - 1) * (at1 (m_dims coords) - 1) <= INT_MAX ->
  0 <= i < at0 (m_dims coords) - 1 -> 0 <= j < at1 (m_dims coords) - 1 ->
  0 <= k ->
  index = i + j * (at0 (m_dims coords) - 1)
          + k * (at0 (m_dims coords) - 1) * (at1 (m_dims coords) - 1) ->
  get_uniform_element n_coords index
  = Ok (mkv (vx (m_origin coords) + to_double i * vx (m_spacing coords)
             + vx (m_spacing coords) * half)%Q
            (vy (m_origin coords) + to_double j * vy (m_spacing coords)
             + vy (m_spacing coords) * half)%Q
            (vz (m_origin coords) + to_double k * vz (m_spacing coords)
             + vz (m_spacing coords) * half)%Q).
Proof.
  intros Hp H3 Hplane Hi Hj Hk Hidx. unfold get_uniform_element.
  rewrite Hp. cbn [bind]. rewrite H3.
  rewrite (logical_index_3d_grid zero3 _ index i j k); auto.
Qed.

Lemma uniform_element_2d (n_coords : Node) (coords : UniformCoords)
      (index i j : Z) :
  populate n_coords = Ok coords -> m_is_2d coords = true ->
  0 <= i < at0 (m_dims coords) - 1 -> 0 <= j ->
  index = i + j * (at0 (m_dims coords) - 1) ->
  get_uniform_element n_coords index
  = Ok (mkv (vx (m_origin coords) + to_double i * vx (m_spacing coords)
             + vx (m_spacing coords) * half)%Q
            (vy (m_origin coords) + to_double j * vy (m_spacing coords)
             + vy (m_spacing coords) * half)%Q
            (vz (m_origin coords) + to_double 0 * vz (m_spacing coords)
             + vz (m_spacing coords) * half)%Q).
Proof.
  intros Hp H2 Hi Hj Hidx. unfold get_uniform_element.
  rewrite Hp. cbn [bind]. rewrite H2.
  rewrite (logical_index_2d_grid zero3 _ index i j); auto.
Qed.

(** On a uniform coordinate set whose corner indices are ints and, in 3D,
    whose number [dims.x * dims.y] of points of a plane is an int, the
    position [get_uniform_element] gives for the cell (i, j, k) is the mean
    of the positions [get_uniform_vert] gives for its eight corners.  In 2D
    this holds for x and y over the four corners, while z is the origin's z
    plus half the z spacing, where the corners have the origin's z. *)
Theorem get_uniform_element_centroid (n_coords : Node) (coords : UniformCoords)
        (i j k : Z) :
  populate n_coords = Ok coords ->
  0 <= i < at0 (m_dims coords) - 1 -> 0 <= j < at1 (m_dims coords) - 1 ->
  0 <= k ->
  (m_is_2d coords = false ->
   at0 (m_dims coords) * at1 (m_dims coords) <= INT_MAX ->
   (i + 1) + (j + 1) * at0 (m_dims coords)
   + (k + 1) * at0 (m_dims coords) * at1 (m_dims coords) <= INT_MAX ->
   exists c corners,
     get_uniform_element n_coords
       (i + j * (at0 (m_dims coords) - 1)
        + k * (at0 (m_dims coords) - 1) * (at1 (m_dims coords) - 1)) = Ok c
     /\ mapM (get_uniform_vert n_coords)
             (structured_corners_3d (at0 (m_dims coords)) (at1 (m_dims coords))
                                    i j k) = Ok corners
     /\ (vx c == Qsum (map vx corners) / 8)%Q
     /\ (vy c == Qsum (map vy corners) / 8)%Q
     /\ (vz c == Qsum (map vz corners) / 8)%Q)
  /\
  (m_is_2d coords = true ->
   (i + 1) + (j + 1) * at0 (m_dims coords) <= INT_MAX ->
   exists c corners,
     get_uniform_element n_coords (i + j * (at0 (m_dims coords) - 1)) = Ok c
     /\ mapM (get_uniform_vert n_coords)
             (structured_corners_2d (at0 (m_dims coords)) i j) = Ok corners
     /\ (vx c == Qsum (map vx corners) / 4)%Q
     /\ (vy c == Qsum (map vy corners) / 4)%Q
     /\ (vz c == vz (m_origin coords) + vz (m_spacing coords) / 2)%Q
     /\ Forall (fun v => (vz v == vz (m_origin coords))%Q) corners).
Proof.
  intros Hp Hi Hj Hk.
  destruct coords as [[ox oy oz] [sx sy sz] [dx dy dz] is_2d].
  cbn [m_dims m_origin m_spacing m_is_2d at0 at1 at2 vx vy vz] in *.
  split; intros Hd; subst is_2d.
  - intros Hplane _.
    assert (Hcells : (dx - 1) * (dy - 1) <= INT_MAX) by nia.
    rewrite (uniform_element_3d _ _ _ i j k Hp eq_refl) by (cbn; auto).
    unfold structured_corners_3d. cbn [mapM].
    rewrite (uniform_vert_3d _ _ _ i j k Hp eq_refl)
      by first [exact Hplane | cbn; first [lia | ring]].
    rewrite (uniform_vert_3d _ _ _ (i + 1) j k Hp eq_refl)
      by first [exact Hplane | cbn; first [lia | ring]].
    rewrite (uniform_vert_3d _ _ _ (i + 1) (j + 1) k Hp eq_refl)
      by first [exact Hplane | cbn; first [lia | ring]].
    rewrite (uniform_vert_3d _ _ _ i (j + 1) k Hp eq_refl)
      by first [exact Hplane | cbn; first [lia | ring]].
    rewrite (uniform_vert_3d _ _ _ i j (k + 1) Hp eq_refl)
      by first [exact Hplane | cbn; first [lia | ring]].
    rewrite (uniform_vert_3d _ _ _ (i + 1) j (k + 1) Hp eq_refl)
      by first [exact Hplane | cbn; first [lia | ring]].
    rewrite (uniform_vert_3d _ _ _ (i + 1) (j + 1) (k + 1) Hp eq_refl)
      by first [exact Hplane | cbn; first [lia | ring]].
    rewrite (uniform_vert_3d _ _ _ i (j + 1) (k + 1) Hp eq_refl)
      by first [exact Hplane | cbn; first [lia | ring]].
    cbn [bind]. eexists. eexists.
    split; [reflexivity|]. split; [reflexivity|].
    unfold vadd3, Qsum, to_double, half.
    cbn [map fold_left vx vy vz m_origin m_spacing at0 at1 at2].
    rewrite !inject_Z_plus.
    repeat split; field.
  - intros _.
    rewrite (uniform_element_2d _ _ _ i j Hp eq_refl) by (cbn; auto; lia).
    unfold structured_corners_2d. cbn [mapM].
    rewrite (uniform_vert_2d _ _ _ i j Hp eq_refl)
      by (cbn; first [lia | ring]).
    rewrite (uniform_vert_2d _ _ _ (i + 1) j Hp eq_refl)
      by (cbn; first [lia | ring]).
    rewrite (uniform_vert_2d _ _ _ (i + 1) (j + 1) Hp eq_refl)
      by (cbn; first [lia | ring]).
    rewrite (uniform_vert_2d _ _ _ i (j + 1) Hp eq_refl)
      by (cbn; first [lia | ring]).
    cbn [bind]. eexists. eexists.
    split; [reflexivity|]. split; [reflexivity|].
    unfold vadd3, Qsum, to_double, half.
    cbn [map fold_left vx vy vz m_origin m_spacing at0 at1 at2].
    rewrite !inject_Z_plus.
    split; [field|]. split; [field|]. split; [field|].
    repeat constructor; cbn [vz]; ring.
Qed.

Lemma get_uniform_element_centroid_witness :
  exists c corners,
    get_uniform_element box_coords (1 + 2 * (3 - 1) + 0 * (3 - 1) * (4 - 1))
    = Ok c
    /\ mapM (get_uniform_vert box_coords) (structured_corners_3d 3 4 1 2 0)
       = Ok corners
    /\ (vx c == Qsum (map vx corners) / 8)%Q
    /\ (vy c == Qsum (map vy corners) / 8)%Q
    /\ (vz c == Qsum (map vz corners) / 8)%Q.
Proof.
  refine (proj1 (get_uniform_element_centroid box_coords box_uniform 1 2 0
                   eq_refl _ _ _) eq_refl _ _); unfold INT_MAX; cbn; lia.
Defined.

(* ------------------------------------------------------------------ *)
(** ** Rectilinear grids: the indices that resolve *)



















(* ------------------------------------------------------------------ *)
(** ** quantile: the interpolation modes *)

Lemma quantile_value_settled (cdf : Node) (h : hist_view) (val c : Q) (b : Z)
      (interpolation : string) :
  read_hist cdf = Ok h -> hv_num_bins h <> 0 ->
  smallest_bin_at_least (hv_bins h) val b ->
  array_get (hv_bins h) b = Ok c ->
  let bin := if Qeq_bool c val then b else b - 1 in
  let i := bin_edge h bin in
  let j := bin_edge h (bin + 1) in
  quantile_value cdf val interpolation
  = (if String.eqb interpolation "linear" then
       c1 <- array_get (hv_bins h) (bin + 1) ;;
       c0 <- array_get (hv_bins h) bin ;;
       if Qeq_bool (c1 - c0) 0 then Ok (Some i)
       else
         r <- ddiv ((j - i) * (val - c0))%Q (c1 - c0)%Q ;;
         Ok (Some (i + r)%Q)
     else if String.eqb interpolation "lower" then Ok (Some i)
     else if String.eqb interpolation "higher" then Ok (Some j)
     else if String.eqb interpolation "midpoint" then
       Ok (Some ((i + j) / 2)%Q)
     else if String.eqb interpolation "nearest" then
       Ok (Some (if Qltb (val - i) (j - val) then i else j))
     else Ok None).
Proof.
  intros Hr Hn Hs Hc bin i j. unfold quantile_value. rewrite Hr. cbn [bind].
  rewrite (quantile_bin_settled _ _ _ _ Hs Hc). cbn [bind].
  rewrite !bin_boundary_edge by assumption. reflexivity.
Qed.

Lemma bin_width_positive (h : hist_view) :
  0 < hv_num_bins h -> (hv_min_val h < hv_max_val h)%Q -> (0 < bin_width h)%Q.
Proof.
  intros Hn Hlt. unfold bin_width.
  apply Qlt_shift_div_l.
  - unfold to_double, Qlt. simpl. lia.
  - lra.
Qed.

Lemma bin_width_nonneg (h : hist_view) :
  0 < hv_num_bins h -> (hv_min_val h <= hv_max_val h)%Q -> (0 <= bin_width h)%Q.
Proof.
  intros Hn Hle. unfold bin_width.
  apply Qle_shift_div_l.
  - unfold to_double, Qlt. simpl. lia.
  - lra.
Qed.

(** The "linear" mode of [quantile].  When [val] lies strictly between the
    cdf values of the bins [b - 1] and [b], the result lies strictly between
    the left boundaries of these two bins, at the fraction
    [(val - cdf[b-1]) / (cdf[b] - cdf[b-1])] of a bin width; when [val] is
    the cdf value of bin [b], first of its value and not the last bin, the
    result is the left boundary of bin [b]. *)
Theorem quantile_linear_between (cdf : Node) (h : hist_view) (val : Q) (b : Z) :
  read_hist cdf = Ok h -> 0 < hv_num_bins h ->
  (hv_min_val h < hv_max_val h)%Q ->
  smallest_bin_at_least (hv_bins h) val b ->
  (forall c0 c1,
      array_get (hv_bins h) (b - 1) = Ok c0 ->
      array_get (hv_bins h) b = Ok c1 ->
      (val < c1)%Q ->
      exists q,
        quantile_value cdf val "linear" = Ok (Some q)
        /\ (bin_edge h (b - 1) < q /\ q < bin_edge h b)%Q
        /\ (q == bin_edge h (b - 1)
                 + bin_width h * ((val - c0) / (c1 - c0)))%Q)
  /\
  (forall c0 c1,
      array_get (hv_bins h) b = Ok c0 ->
      array_get (hv_bins h) (b + 1) = Ok c1 ->
      (c0 == val)%Q ->
      exists q,
        quantile_value cdf val "linear" = Ok (Some q)
        /\ (q == bin_edge h b)%Q).
Proof.
  intros Hr Hn Hmm Hs.
  assert (Hn0 : hv_num_bins h <> 0) by lia.
  pose proof (bin_width_positive h Hn Hmm) as Hw.
  split.
  - intros c0 c1 Hc0 Hc1 Hlt.
    assert (Hc0lt : (c0 < val)%Q).
    { destruct Hs as [_ Hbefore]. apply (Hbefore (b - 1)); [|exact Hc0].
      apply array_get_ok in Hc0. lia. }
    rewrite (quantile_value_settled cdf h val c1 b "linear" Hr Hn0 Hs Hc1).
    change ("linear" =? "linear")%string with true. cbv iota.
    assert (E : Qeq_bool c1 val = false).
    { destruct (Qeq_bool c1 val) eqn:E; [|reflexivity].
      apply Qeq_bool_iff in E. lra. }
    rewrite E. replace (b - 1 + 1) with b by lia.
    rewrite Hc1, Hc0. cbn [bind].
    assert (Hd : ~ (c1 - c0 == 0)%Q) by lra.
    assert (E0 : Qeq_bool (c1 - c0) 0 = false).
    { destruct (Qeq_bool (c1 - c0) 0) eqn:E0; [|reflexivity].
      apply Qeq_bool_iff in E0. contradiction. }
    rewrite E0, (ddiv_ok _ _ Hd). cbn [bind].
    eexists. split; [reflexivity|].
    pose proof (bin_edge_succ h (b - 1) Hn0) as Hj.
    replace (b - 1 + 1) with b in Hj by lia.
    assert (Hfrac : ((bin_edge h b - bin_edge h (b - 1)) * (val - c0)
                     / (c1 - c0)
                     == bin_width h * ((val - c0) / (c1 - c0)))%Q).
    { rewrite Hj. field. exact Hd. }
    assert (Ht0 : (0 < (val - c0) / (c1 - c0))%Q).
    { apply Qlt_shift_div_l; lra. }
    assert (Ht1 : ((val - c0) / (c1 - c0) < 1)%Q).
    { apply Qlt_shift_div_r; lra. }
    assert (Hlo : (0 < bin_width h * ((val - c0) / (c1 - c0)))%Q).
    { apply Qmult_lt_0_compat; assumption. }
    assert (Hhi : (bin_width h * ((val - c0) / (c1 - c0)) < bin_width h)%Q).
    { rewrite <- (Qmult_1_r (bin_width h)) at 2.
      apply Qmult_lt_l; assumption. }
    rewrite Hfrac. repeat split; try lra.
  - intros c0 c1 Hc0 Hc1 Heq.
    rewrite (quantile_value_settled cdf h val c0 b "linear" Hr Hn0 Hs Hc0).
    change ("linear" =? "linear")%string with true. cbv iota.
    rewrite (Qeq_eq_bool _ _ Heq), Hc1, Hc0. cbn [bind].
    destruct (Qeq_bool (c1 - c0) 0) eqn:E0.
    + eexists. split; [reflexivity | reflexivity].
    + assert (Hd : ~ (c1 - c0 == 0)%Q) by (now apply Qeq_bool_neq).
      rewrite (ddiv_ok _ _ Hd). cbn [bind].
      eexists. split; [reflexivity|].
      rewrite <- Heq. field. exact Hd.
Qed.

Lemma quantile_linear_between_witness :
  exists q,
    quantile_value (hist_node [1 # 4; 3 # 4; 1]%Q 0 3 3) (1 # 2) "linear"
    = Ok (Some q)
    /\ (bin_edge (mkHistView [1 # 4; 3 # 4; 1]%Q 3 0 3) (1 - 1) < q
        /\ q < bin_edge (mkHistView [1 # 4; 3 # 4; 1]%Q 3 0 3) 1)%Q
    /\ (q == bin_edge (mkHistView [1 # 4; 3 # 4; 1]%Q 3 0 3) (1 - 1)
             + bin_width (mkHistView [1 # 4; 3 # 4; 1]%Q 3 0 3)
               * (((1 # 2) - (1 # 4)) / ((3 # 4) - (1 # 4))))%Q.
Proof.
  assert (Hs : smallest_bin_at_least [1 # 4; 3 # 4; 1]%Q (1 # 2) 1).
  { split.
    - exists (3 # 4)%Q. split; [reflexivity | unfold Qle; simpl; lia].
    - intros b' c' Hb' Hc'. assert (b' = 0) by lia. subst b'.
      injection Hc' as <-. unfold Qlt; simpl; lia. }
  refine (proj1 (quantile_linear_between
                   (hist_node [1 # 4; 3 # 4; 1]%Q 0 3 3)
                   (mkHistView [1 # 4; 3 # 4; 1]%Q 3 0 3) (1 # 2) 1
                   eq_refl _ _ Hs) (1 # 4)%Q (3 # 4)%Q eq_refl eq_refl _).
  - cbn. lia.
  - unfold Qlt; simpl; lia.
  - unfold Qlt; simpl; lia.
Defined.

(** The "linear" mode of [quantile] reads the cdf entries at the settled
    bin and at the next one, unguarded: below the first cdf value the settled
    bin is -1, and at a value first reached in the last bin the next entry is
    past the end; both reads are out of range. *)
Theorem quantile_linear_ends (cdf : Node) (h : hist_view) (val : Q) :
  read_hist cdf = Ok h -> hv_num_bins h <> 0 ->
  (forall c, array_get (hv_bins h) 0 = Ok c -> (val < c)%Q ->
             quantile cdf val "linear" = Err OutOfBounds)
  /\
  (forall b c,
      smallest_bin_at_least (hv_bins h) val b ->
      array_get (hv_bins h) b = Ok c -> (c == val)%Q ->
      b = Z.of_nat (List.length (hv_bins h)) - 1 ->
      quantile cdf val "linear" = Err OutOfBounds).
Proof.
  intros Hr Hn. split.
  - intros c Hc Hlt.
    assert (Hs : smallest_bin_at_least (hv_bins h) val 0).
    { split; [exists c; split; [exact Hc | lra]|]. intros b' c' Hb'. lia. }
    unfold quantile.
    rewrite (quantile_value_settled cdf h val c 0 "linear" Hr Hn Hs Hc).
    change ("linear" =? "linear")%string with true. cbv iota.
    assert (E : Qeq_bool c val = false).
    { destruct (Qeq_bool c val) eqn:E; [|reflexivity].
      apply Qeq_bool_iff in E. lra. }
    rewrite E. change (0 - 1 + 1) with 0. rewrite Hc. cbn [bind].
    reflexivity.
  - intros b c Hs Hc Heq Hlast.
    unfold quantile.
    rewrite (quantile_value_settled cdf h val c b "linear" Hr Hn Hs Hc).
    change ("linear" =? "linear")%string with true. cbv iota.
    rewrite (Qeq_eq_bool _ _ Heq).
    assert (Hnext : array_get (hv_bins h) (b + 1) = Err OutOfBounds).
    { unfold array_get. destruct (b + 1 <? 0); [reflexivity|].
      destruct (nth_error (hv_bins h) (Z.to_nat (b + 1))) eqn:N; [|reflexivity].
      assert (Hlt : (Z.to_nat (b + 1) < List.length (hv_bins h))%nat)
        by (apply nth_error_Some; congruence).
      lia. }
    rewrite Hnext. reflexivity.
Qed.

Lemma quantile_linear_ends_witness :
  quantile (hist_node [1 # 4; 3 # 4; 1]%Q 0 3 3) (1 # 8) "linear"
  = Err OutOfBounds.
Proof.
  refine (proj1 (quantile_linear_ends (hist_node [1 # 4; 3 # 4; 1]%Q 0 3 3)
                   (mkHistView [1 # 4; 3 # 4; 1]%Q 3 0 3) (1 # 8)
                   eq_refl _) (1 # 4)%Q eq_refl _).
  - cbn. lia.
  - unfold Qlt; simpl; lia.
Defined.

(** The other modes of [quantile], with [i] and [j] the boundaries of the
    settled bin: [i <= j], "midpoint" is [(i + j) / 2] and lies between them,
    "nearest" is one of the two, and an interpolation that is none of the
    five names gives an empty node and no error. *)
Theorem quantile_modes (cdf : Node) (h : hist_view) (val c : Q) (b : Z) :
  read_hist cdf = Ok h -> 0 < hv_num_bins h ->
  (hv_min_val h <= hv_max_val h)%Q ->
  smallest_bin_at_least (hv_bins h) val b ->
  array_get (hv_bins h) b = Ok c ->
  let bin := if Qeq_bool c val then b else b - 1 in
  let i := bin_edge h bin in
  let j := bin_edge h (bin + 1) in
  (i <= j)%Q
  /\ quantile_value cdf val "midpoint" = Ok (Some ((i + j) / 2)%Q)
  /\ (i <= (i + j) / 2 /\ (i + j) / 2 <= j)%Q
  /\ (exists n, quantile_value cdf val "nearest" = Ok (Some n)
                /\ (n = i \/ n = j))
  /\ (forall interpolation,
         String.eqb interpolation "linear" = false ->
         String.eqb interpolation "lower" = false ->
         String.eqb interpolation "higher" = false ->
         String.eqb interpolation "midpoint" = false ->
         String.eqb interpolation "nearest" = false ->
         quantile cdf val interpolation = Ok Empty).
Proof.
  intros Hr Hn Hmm Hs Hc bin i j.
  assert (Hn0 : hv_num_bins h <> 0) by lia.
  pose proof (bin_width_nonneg h Hn Hmm) as Hw.
  pose proof (bin_edge_succ h bin Hn0) as Hj. fold i in Hj. fold j in Hj.
  assert (Hij : (i <= j)%Q) by lra.
  split; [exact Hij|].
  split.
  { now rewrite (quantile_value_settled cdf h val c b "midpoint" Hr Hn0 Hs Hc). }
  split.
  { split.
    - apply Qle_shift_div_l; lra.
    - apply Qle_shift_div_r; lra. }
  split.
  { rewrite (quantile_value_settled cdf h val c b "nearest" Hr Hn0 Hs Hc).
    change ("nearest" =? "linear")%string with false.
    change ("nearest" =? "lower")%string with false.
    change ("nearest" =? "higher")%string with false.
    change ("nearest" =? "midpoint")%string with false.
    change ("nearest" =? "nearest")%string with true. cbv iota.
    fold bin. fold i. fold j.
    eexists. split; [reflexivity|].
    destruct (Qltb (val - i) (j - val)); auto. }
  intros s H1 H2 H3 H4 H5. unfold quantile.
  rewrite (quantile_value_settled cdf h val c b s Hr Hn0 Hs Hc).
  now rewrite H1, H2, H3, H4, H5.
Qed.

Lemma quantile_modes_witness :
  quantile (hist_node [1 # 4; 3 # 4; 1]%Q 0 3 3) (1 # 2) "cubic" = Ok Empty.
Proof.
  assert (Hs : smallest_bin_at_least [1 # 4; 3 # 4; 1]%Q (1 # 2) 1).
  { split.
    - exists (3 # 4)%Q. split; [reflexivity | unfold Qle; simpl; lia].
    - intros b' c' Hb' Hc'. assert (b' = 0) by lia. subst b'.
      injection Hc' as <-. unfold Qlt; simpl; lia. }
  refine (proj2 (proj2 (proj2 (proj2
            (quantile_modes (hist_node [1 # 4; 3 # 4; 1]%Q 0 3 3)
               (mkHistView [1 # 4; 3 # 4; 1]%Q 3 0 3) (1 # 2) (3 # 4) 1
               eq_refl _ _ Hs eq_refl))))
            "cubic"%string eq_refl eq_refl eq_refl eq_refl eq_refl).
  - cbn. lia.
  - unfold Qle; simpl; lia.
Defined.

(* ------------------------------------------------------------------ *)
(** ** coord_type, spatial_dims *)

Lemma child_in_domains (dataset : Node) (i : Z) (dom : Node) :
  child dataset i = Ok dom -> In dom (domains dataset).
Proof.
  unfold child, domains. destruct (i <? 0); [discriminate|].
  destruct (nth_error (children dataset) (Z.to_nat i)) as [[k c]|] eqn:N;
    [|discriminate].
  intros H; injection H as <-.
  apply in_map_iff. exists (k, c). split; [reflexivity|].
  eapply nth_error_In; exact N.
Qed.

Lemma coord_type_scan_untouched (dataset : Node) (topo_name : string) :
  (forall dom, In dom (domains dataset) ->
               has_path dom ["topology"%string; topo_name] = false) ->
  coord_type_scan dataset topo_name = Ok (mkCoordScan false false false).
Proof.
  intros Hno. unfold coord_type_scan. apply foldM_constant.
  intros i Hin. destruct (child_of_index _ _ Hin) as (dom & Hdom).
  rewrite Hdom. cbn [bind].
  now rewrite (Hno dom (child_in_domains _ _ _ Hdom)).
Qed.

(** [coord_type] looks the topology up under ["topology/"]: on a fleet whose
    domains have no such path, whatever they hold under ["topologies/"],
    the arrays are not inspected and the answer is "double", provided the
    agreement on a flag that no worker raised is negative. *)
Theorem coord_type_topology_path (global_agreement : list bool -> bool)
        (fleet : list Node) (topo_name : string) :
  (forall dataset dom,
      In dataset fleet -> In dom (domains dataset) ->
      has_path dom ["topology"%string; topo_name] = false) ->
  global_agreement (map (fun _ => false) fleet) = false ->
  coord_type global_agreement fleet topo_name = Ok "double"%string.
Proof.
  intros Hno Hga. unfold coord_type.
  rewrite (mapM_ok_map _ (fun _ => mkCoordScan false false false)).
  2:{ intros ds Hin. apply coord_type_scan_untouched.
      intros dom Hdom. now apply (Hno ds dom). }
  cbn [bind]. rewrite !map_map. cbn [cs_error cs_has_array cs_is_float andb].
  rewrite Hga. unfold global_someone_agrees.
  assert (Hf : existsb (fun v : bool => v) (map (fun _ : Node => false) fleet)
               = false).
  { clear. induction fleet as [|ds fleet IH]; [reflexivity | exact IH]. }
  rewrite Hf. reflexivity.
Qed.

Lemma coord_type_topology_path_witness :
  coord_type (existsb (fun v => v))
             [dataset_of [rectilinear_domain [0; 1]%Q [0; 1]%Q None]] "mesh"
  = Ok "double"%string.
Proof.
  apply coord_type_topology_path; [|reflexivity].
  intros dataset dom [<- | []] [<- | []]. reflexivity.
Defined.

Lemma spatial_dims_scan_loop (dataset : Node) (topo_name : string) :
  spatial_dims_scan dataset topo_name
  = foldM (first_match sd_done
             (fun dom => has_path dom ["topologies"%string; topo_name])
             (fun st domain =>
                n_topo <- fetch domain ["topologies"%string; topo_name] ;;
                c_name <- fetch_string n_topo ["coordset"%string] ;;
                n_coords <- fetch domain ["coordsets"%string; c_name] ;;
                c_type <- fetch_string n_coords ["type"%string] ;;
                if String.eqb c_type "uniform" then
                  Ok (mkDimsScan
                        (if has_path n_coords ["dims"; "k"]%string
                         then true else sd_is_3d st)
                        true true)
                else if String.eqb c_type "rectilinear"
                        || String.eqb c_type "explicit" then
                  Ok (mkDimsScan
                        (if has_path n_coords ["values"; "z"]%string
                         then true else sd_is_3d st)
                        true true)
                else Ok (mkDimsScan (sd_is_3d st) true false)))
          (domains dataset) (mkDimsScan false false false).
Proof.
  unfold spatial_dims_scan, domains. rewrite <- domain_loop.
  apply foldM_ext_in. intros st i Hin.
  destruct (child_of_index _ _ Hin) as (dom & Hdom). rewrite Hdom.
  cbn [bind]. unfold first_match.
  destruct (sd_done st); cbn [negb andb]; [reflexivity|].
  destruct (has_path dom ["topologies"%string; topo_name]); reflexivity.
Qed.

(** On one worker, [spatial_dims] is decided by the first domain that has
    the topology: with a uniform, rectilinear or explicit coordinate set
    there, the answer is 3 when that set has a third axis and 2 when it has
    none, whatever the later domains hold, and no disagreement is raised. *)
Theorem spatial_dims_first_domain
        (dataset : Node) (topo_name c_name c_type : string)
        (pre post : list Node) (dom n_topo n_coords : Node) :
  domains dataset = pre ++ dom :: post ->
  Forall (fun d => has_path d ["topologies"%string; topo_name] = false) pre ->
  fetch dom ["topologies"%string; topo_name] = Ok n_topo ->
  fetch_string n_topo ["coordset"%string] = Ok c_name ->
  fetch dom ["coordsets"%string; c_name] = Ok n_coords ->
  fetch_string n_coords ["type"%string] = Ok c_type ->
  c_type = "uniform"%string \/ c_type = "rectilinear"%string
  \/ c_type = "explicit"%string ->
  spatial_dims [dataset] topo_name
  = Ok (if has_path n_coords (third_axis c_type) then 3 else 2).
Proof.
  intros Hdoms Hpre Htopo Hc Hcoords Hty Hkind.
  unfold spatial_dims. cbn [mapM].
  rewrite spatial_dims_scan_loop, Hdoms.
  rewrite first_match_hit; auto.
  - rewrite Htopo. cbn [bind]. rewrite Hc. cbn [bind].
    rewrite Hcoords. cbn [bind]. rewrite Hty. cbn [bind].
    unfold third_axis, global_someone_agrees.
    destruct Hkind as [-> | [-> | ->]]; cbn [String.eqb Ascii.eqb Bool.eqb orb];
      cbn [bind map existsb sd_rank_has sd_is_3d andb orb negb];
      destruct (has_path n_coords _); reflexivity.
  - unfold has_path. now rewrite Htopo.
  - intros st' H. rewrite Htopo in H. cbn [bind] in H.
    rewrite Hc in H. cbn [bind] in H. rewrite Hcoords in H. cbn [bind] in H.
    rewrite Hty in H. cbn [bind] in H.
    destruct Hkind as [-> | [-> | ->]];
      cbn [String.eqb Ascii.eqb Bool.eqb orb] in H;
      injection H as <-; reflexivity.
Qed.

Lemma spatial_dims_first_domain_witness :
  spatial_dims [dataset_of [cycle_domain 0; uniform_domain false;
                            uniform_domain true]] "mesh"
  = Ok 2.
Proof.
  apply (spatial_dims_first_domain
           (dataset_of [cycle_domain 0; uniform_domain false;
                        uniform_domain true])
           "mesh"%string "coords"%string "uniform"%string
           [cycle_domain 0] [uniform_domain true] (uniform_domain false)
           (Object [("type", Str "uniform"); ("coordset", Str "coords")]%string)
           (Object [("type", Str "uniform");
                    ("dims", Object [("i", scalar_i32 2);
                                     ("j", scalar_i32 2)])]%string));
    try reflexivity.
  - repeat constructor.
  - now left.
Defined.

(* ------------------------------------------------------------------ *)
(** ** field_topology *)

Lemma maxloc_from_spec (vals pre : list Z) (bv : Z) (br : nat) :
  (br < List.length pre)%nat ->
  nth br pre 0 = bv ->
  (forall v, In v pre -> v <= bv) ->
  let w := maxloc_from vals (List.length pre) (bv, br) in
  (w < List.length (pre ++ vals))%nat
  /\ forall v, In v (pre ++ vals) -> v <= nth w (pre ++ vals) 0.
Proof.
  revert pre bv br. induction vals as [|x vals IH]; intros pre bv br Hbr Hnth Hmax;
    cbn [maxloc_from snd fst].
  - rewrite app_nil_r. split; [exact Hbr|].
    intros v Hv. rewrite Hnth. now apply Hmax.
  - replace (pre ++ x :: vals) with ((pre ++ [x]) ++ vals)
      by (rewrite <- app_assoc; reflexivity).
    replace (S (List.length pre)) with (List.length (pre ++ [x]))
      by (rewrite length_app; simpl; lia).
    destruct (bv <? x) eqn:E.
    + apply Z.ltb_lt in E. apply IH.
      * rewrite length_app. simpl. lia.
      * rewrite app_nth2 by lia. now rewrite Nat.sub_diag.
      * intros v Hv. apply in_app_or in Hv. destruct Hv as [Hv|[<-|[]]]; [|lia].
        specialize (Hmax v Hv). lia.
    + apply Z.ltb_ge in E. apply IH.
      * rewrite length_app. simpl. lia.
      * rewrite app_nth1 by lia. exact Hnth.
      * intros v Hv. apply in_app_or in Hv. destruct Hv as [Hv|[<-|[]]]; [|lia].
        now apply Hmax.
Qed.

Lemma maxloc_spec (vals : list Z) :
  vals <> [] ->
  (maxloc vals < List.length vals)%nat
  /\ forall v, In v vals -> v <= nth (maxloc vals) vals 0.
Proof.
  destruct vals as [|x vals]; [contradiction|]. intros _.
  unfold maxloc.
  apply (maxloc_from_spec vals [x] x 0); simpl; [lia | reflexivity|].
  intros v [<-|[]]. lia.
Qed.

(** [field_topology] hands every worker the name found by the worker whose
    name is longest: no worker's name is longer than the result; so when the
    workers that found a name all found the same one, that name is the
    result; on one worker it is that worker's own name. *)
Theorem field_topology_longest (fleet : list Node) (field_name : string)
        (locals : list string) :
  mapM (fun dataset => field_topology_scan dataset field_name) fleet
  = Ok locals ->
  locals <> [] ->
  exists w,
    field_topology fleet field_name = Ok w
    /\ In w locals
    /\ (forall l, In l locals -> (String.length l <= String.length w)%nat)
    /\ (forall t, t <> ""%string -> In t locals ->
                  (forall l, In l locals -> l = t \/ l = ""%string) -> w = t)
    /\ (forall l, locals = [l] -> w = l).
Proof.
  intros Hlocals Hne. unfold field_topology. rewrite Hlocals. cbn [bind].
  set (vals := map (fun name => Z.of_nat (String.length name)) locals).
  assert (Hvne : vals <> [])
    by (subst vals; destruct locals; [contradiction | discriminate]).
  destruct (maxloc_spec vals Hvne) as [Hlt Hmax].
  assert (Hlen : List.length vals = List.length locals)
    by (subst vals; apply length_map).
  set (w := nth (maxloc vals) locals ""%string).
  assert (Hin : In w locals) by (apply nth_In; lia).
  assert (Hw : nth (maxloc vals) vals 0 = Z.of_nat (String.length w)).
  { subst vals w.
    change 0 with ((fun name => Z.of_nat (String.length name)) ""%string).
    apply map_nth. }
  assert (Hlong : forall l, In l locals ->
                            (String.length l <= String.length w)%nat).
  { intros l Hl.
    assert (Z.of_nat (String.length l) <= nth (maxloc vals) vals 0).
    { apply Hmax. subst vals. apply in_map_iff. now exists l. }
    lia. }
  exists w. repeat split; auto.
  - intros t Ht Hint Hall.
    destruct (Hall w Hin) as [E|E]; [exact E|].
    specialize (Hlong t Hint). rewrite E in Hlong.
    destruct t; [contradiction | simpl in Hlong; lia].
  - intros l El. subst locals. destruct Hin as [<-|[]]. reflexivity.
Qed.

Lemma field_topology_longest_witness :
  exists w,
    field_topology [dataset_of [cycle_domain 0]; scenario_dataset] "f" = Ok w
    /\ In w [""; "mesh"]%string
    /\ (forall l, In l [""; "mesh"]%string ->
                  (String.length l <= String.length w)%nat)
    /\ (forall t, t <> ""%string -> In t [""; "mesh"]%string ->
                  (forall l, In l [""; "mesh"]%string ->
                             l = t \/ l = ""%string) -> w = t)
    /\ (forall l, [""; "mesh"]%string = [l] -> w = l).
Proof.
  apply (field_topology_longest [dataset_of [cycle_domain 0]; scenario_dataset]
           "f"%string [""; "mesh"]%string eq_refl).
  discriminate.
Defined.

(* ------------------------------------------------------------------ *)
(** ** A histogram without counts *)

Lemma read_hist_parts (hist : Node) (h : hist_view) :
  read_hist hist = Ok h ->
  read_bins hist = Ok (hv_bins h) /\ read_num_bins hist = Ok (hv_num_bins h).
Proof.
  unfold read_hist. intros H.
  apply bind_ok_inv in H. destruct H as (bins & Hb & H).
  apply bind_ok_inv in H. destruct H as (nb & Hn & H).
  apply bind_ok_inv in H. destruct H as (lo & _ & H).
  apply bind_ok_inv in H. destruct H as (hi & _ & H).
  injection H as <-. auto.
Qed.

Lemma entropy_zeros (ln : Q -> Q) (sum e : Q) (n : nat) :
  foldM (entropy_step ln sum) (repeat 0%Q n) e = Ok e.
Proof.
  induction n as [|n IH]; cbn [repeat foldM]; [reflexivity|].
  unfold entropy_step at 1. cbn [Qeq_bool negb bind]. exact IH.
Qed.

(** On a histogram with at least one bin and all counts zero, [field_pdf]
    and [field_cdf] divide zero by zero and yield no number, while
    [field_entropy] skips every bin and returns 0. *)
Theorem zero_histogram (ln : Q -> Q) (hist : Node) (h : hist_view) (n : nat) :
  read_hist hist = Ok h ->
  hv_bins h = repeat 0%Q (S n) ->
  hv_num_bins h = Z.of_nat (S n) ->
  field_pdf hist = Err NotFinite
  /\ field_cdf hist = Err NotFinite
  /\ field_entropy ln hist = Ok (Object [("value", scalar_f64 0)]%string).
Proof.
  intros Hr Hb Hn.
  pose proof (read_hist_sum _ _ Hr) as Hsum.
  destruct (read_hist_parts _ _ Hr) as [Hbins Hnum].
  assert (Hlen : hv_num_bins h = Z.of_nat (List.length (hv_bins h)))
    by (rewrite Hn, Hb, repeat_length; reflexivity).
  assert (Hz : Qeq_bool (Qsum (hv_bins h)) 0 = true).
  { apply Qeq_bool_iff. rewrite Hb. apply Qsum_zeros. }
  assert (Hdiv : forall x, ddiv x (Qsum (hv_bins h)) = Err NotFinite)
    by (intros x; unfold ddiv; now rewrite Hz).
  split; [|split].
  - unfold field_pdf. rewrite Hr, Hsum. cbn [bind].
    unfold pdf_loop. rewrite Hlen, mapM_array_loop.
    rewrite Hb at 1. cbn [repeat mapM]. now rewrite Hdiv.
  - unfold field_cdf. rewrite Hr, Hsum. cbn [bind].
    unfold cdf_loop.
    rewrite (foldM_ext_in _
               (fun st b =>
                  x <- array_get (hv_bins h) b ;;
                  (fun (st : Q * list Q) x =>
                     p <- ddiv x (Qsum (hv_bins h)) ;;
                     Ok ((fst st + p)%Q, snd st ++ [(fst st + p)%Q])) st x)).
    2:{ intros [r c] b _. reflexivity. }
    rewrite Hlen, array_loop.
    rewrite Hb at 1. cbn [repeat foldM]. now rewrite Hdiv.
  - unfold field_entropy. rewrite Hbins, Hnum, Hsum. cbn [bind].
    rewrite Hlen, entropy_loop_fold, Hb, entropy_zeros. reflexivity.
Qed.

Lemma zero_histogram_witness :
  field_pdf (hist_node [0; 0]%Q 0 2 2) = Err NotFinite
  /\ field_cdf (hist_node [0; 0]%Q 0 2 2) = Err NotFinite
  /\ field_entropy (fun q => q) (hist_node [0; 0]%Q 0 2 2)
     = Ok (Object [("value", scalar_f64 0)]%string).
Proof.
  exact (zero_histogram (fun q => q) (hist_node [0; 0]%Q 0 2 2)
           (mkHistView [0; 0]%Q 2 0 2) 1 eq_refl eq_refl eq_refl).
Defined.

(* ------------------------------------------------------------------ *)
(** ** field_min, field_max: the value that wins *)

Lemma foldM_forall {A St : Type} (R : St -> A -> Prop) (le : St -> St -> Prop)
      (f : St -> A -> result St) (l : list A) (s r : St) :
  (forall s, le s s) ->
  (forall a b c, le a b -> le b c -> le a c) ->
  (forall s s' a, R s a -> le s s' -> R s' a) ->
  (forall s a s', In a l -> f s a = Ok s' -> R s' a /\ le s s') ->
  foldM f l s = Ok r -> Forall (R r) l /\ le s r.
Proof.
  intros Hrefl Htrans Hmono. revert s.
  induction l as [|a l IH]; intros s Hstep; cbn [foldM].
  - intros H; injection H as <-. split; [constructor | apply Hrefl].
  - intros H. apply bind_ok_inv in H. destruct H as (s' & Hf & H).
    destruct (Hstep s a s' (or_introl eq_refl) Hf) as [Ha Hle].
    destruct (IH s' (fun s0 a0 s0' Hin => Hstep s0 a0 s0' (or_intror Hin)) H)
      as [Hall Hle'].
    split.
    + constructor; [eapply Hmono; eassumption | exact Hall].
    + eapply Htrans; eassumption.
Qed.

Lemma index_of_child (dataset : Node) (i : Z) (dom : Node) :
  child dataset i = Ok dom -> In i (domain_indices dataset).
Proof.
  intros H. pose proof (child_in_range _ _ _ H) as Hr.
  unfold domain_indices, range. apply in_map_iff.
  exists (Z.to_nat i). split; [lia|]. apply in_seq. lia.
Qed.

Lemma field_min_scan_least (array_min : Node -> result (Q * Z))
      (dataset : Node) (field : string) (st : extremum) :
  field_min_scan array_min dataset field = Ok st ->
  (forall i a, domain_extremum array_min dataset field i a ->
               (ext_value st <= a)%Q)
  /\ (ext_value st <= DBL_MAX)%Q.
Proof.
  unfold field_min_scan. intros H.
  apply (foldM_forall
           (fun st i => forall a, domain_extremum array_min dataset field i a ->
                                  (ext_value st <= a)%Q)
           (fun s s' => (ext_value s' <= ext_value s)%Q)) in H.
  - destruct H as [Hall Hle]. split; [|exact Hle].
    intros i a Hd. rewrite Forall_forall in Hall.
    apply (Hall i); [|exact Hd].
    destruct Hd as (dom & _ & _ & Hc & _). eapply index_of_child; exact Hc.
  - intros s. apply Qle_refl.
  - intros a b c Hab Hbc. eapply Qle_trans; eassumption.
  - intros s s' i Hr Hle a Hd. eapply Qle_trans; [exact Hle | now apply Hr].
  - intros s i s' _ Hf.
    apply bind_ok_inv in Hf. destruct Hf as (dom & Hdom & Hf).
    destruct (has_path dom (field_path field)) eqn:Hh.
    + apply bind_ok_inv in Hf. destruct Hf as (n & Hn & Hf).
      apply bind_ok_inv in Hf. destruct Hf as ([a_min a_index] & Ha & Hf).
      destruct (Qltb a_min (ext_value s)) eqn:E.
      * apply bind_ok_inv in Hf. destruct Hf as (id & _ & Hf).
        injection Hf as <-. cbn [ext_value]. apply Qltb_true in E.
        split; [|lra].
        intros a (dom' & n' & idx & Hc & _ & Hn' & Ha').
        rewrite Hdom in Hc. injection Hc as <-.
        rewrite Hn in Hn'. injection Hn' as <-.
        rewrite Ha in Ha'. injection Ha' as <- <-. apply Qle_refl.
      * injection Hf as <-. apply Qltb_false in E.
        split; [|apply Qle_refl].
        intros a (dom' & n' & idx & Hc & _ & Hn' & Ha').
        rewrite Hdom in Hc. injection Hc as <-.
        rewrite Hn in Hn'. injection Hn' as <-.
        rewrite Ha in Ha'. injection Ha' as <- <-. exact E.
    + injection Hf as <-. split; [|apply Qle_refl].
      intros a (dom' & n' & idx & Hc & Hholds & _).
      rewrite Hdom in Hc. injection Hc as <-.
      unfold holds in Hholds. congruence.
Qed.

Lemma field_max_scan_greatest (array_max : Node -> result (Q * Z))
      (dataset : Node) (field : string) (st : extremum) :
  field_max_scan array_max dataset field = Ok st ->
  (forall i a, domain_extremum array_max dataset field i a ->
               (a <= ext_value st)%Q)
  /\ (DBL_LOWEST <= ext_value st)%Q.
Proof.
  unfold field_max_scan. intros H.
  apply (foldM_forall
           (fun st i => forall a, domain_extremum array_max dataset field i a ->
                                  (a <= ext_value st)%Q)
           (fun s s' => (ext_value s <= ext_value s')%Q)) in H.
  - destruct H as [Hall Hle]. split; [|exact Hle].
    intros i a Hd. rewrite Forall_forall in Hall.
    apply (Hall i); [|exact Hd].
    destruct Hd as (dom & _ & _ & Hc & _). eapply index_of_child; exact Hc.
  - intros s. apply Qle_refl.
  - intros a b c Hab Hbc. eapply Qle_trans; eassumption.
  - intros s s' i Hr Hle a Hd. eapply Qle_trans; [now apply Hr | exact Hle].
  - intros s i s' _ Hf.
    apply bind_ok_inv in Hf. destruct Hf as (dom & Hdom & Hf).
    destruct (has_path dom (field_path field)) eqn:Hh.
    + apply bind_ok_inv in Hf. destruct Hf as (n & Hn & Hf).
      apply bind_ok_inv in Hf. destruct Hf as ([a_max a_index] & Ha & Hf).
      destruct (Qltb (ext_value s) a_max) eqn:E.
      * apply bind_ok_inv in Hf. destruct Hf as (id & _ & Hf).
        injection Hf as <-. cbn [ext_value]. apply Qltb_true in E.
        split; [|lra].
        intros a (dom' & n' & idx & Hc & _ & Hn' & Ha').
        rewrite Hdom in Hc. injection Hc as <-.
        rewrite Hn in Hn'. injection Hn' as <-.
        rewrite Ha in Ha'. injection Ha' as <- <-. apply Qle_refl.
      * injection Hf as <-. apply Qltb_false in E.
        split; [|apply Qle_refl].
        intros a (dom' & n' & idx & Hc & _ & Hn' & Ha').
        rewrite Hdom in Hc. injection Hc as <-.
        rewrite Hn in Hn'. injection Hn' as <-.
        rewrite Ha in Ha'. injection Ha' as <- <-. exact E.
    + injection Hf as <-. split; [|apply Qle_refl].
      intros a (dom' & n' & idx & Hc & Hholds & _).
      rewrite Hdom in Hc. injection Hc as <-.
      unfold holds in Hholds. congruence.
Qed.

Ltac attained_step :=
  let H := fresh "H" in
  let dom := fresh "dom" in
  let Hdom := fresh "Hdom" in
  let n := fresh "n" in
  let Hn := fresh "Hn" in
  let Ha := fresh "Ha" in
  intros ? ? ? _ ? H;
  apply bind_ok_inv in H; destruct H as (dom & Hdom & H);
  destruct (has_path dom (field_path _));
  [ apply bind_ok_inv in H; destruct H as (n & Hn & H);
    apply bind_ok_inv in H; destruct H as ([? ?] & Ha & H);
    match type of H with
    | (if ?c then _ else _) = _ =>
        destruct c;
        [ apply bind_ok_inv in H; destruct H as (? & _ & H);
          injection H as <-; right; exists dom, n;
          cbn [ext_domain ext_value ext_index]; auto
        | injection H as <-; assumption ]
    end
  | injection H as <-; assumption ].

(** The value that [field_min] reports is at most the minimum of every
    domain that holds the field, and it is the minimum of the domain it
    tracks, with that domain's index, unless no domain took the lead and the
    value is the largest double; [field_max] likewise, with the order
    reversed and the lowest double. *)
Theorem field_extremum_value (array_min array_max : Node -> result (Q * Z))
        (dataset : Node) (field : string) :
  (forall st, field_min_scan array_min dataset field = Ok st ->
              (forall i a, domain_extremum array_min dataset field i a ->
                           (ext_value st <= a)%Q)
              /\ winner_attained array_min DBL_MAX dataset field st)
  /\ (forall st, field_max_scan array_max dataset field = Ok st ->
                 (forall i a, domain_extremum array_max dataset field i a ->
                              (a <= ext_value st)%Q)
                 /\ winner_attained array_max DBL_LOWEST dataset field st).
Proof.
  split; intros st H.
  - split; [apply (field_min_scan_least _ _ _ _ H)|].
    revert H. unfold field_min_scan.
    apply (foldM_invariant (winner_attained array_min DBL_MAX dataset field)).
    + left. split; reflexivity.
    + attained_step.
  - split; [apply (field_max_scan_greatest _ _ _ _ H)|].
    revert H. unfold field_max_scan.
    apply (foldM_invariant (winner_attained array_max DBL_LOWEST dataset field)).
    + left. split; reflexivity.
    + attained_step.
Qed.

Lemma field_extremum_value_witness :
  (forall i a, domain_extremum array_min_model mixed_dataset "f" i a ->
               (ext_value (mkExtremum 1 1 1 1) <= a)%Q)
  /\ winner_attained array_min_model DBL_MAX mixed_dataset "f"
                     (mkExtremum 1 1 1 1).
Proof.
  apply (proj1 (field_extremum_value array_min_model array_max_model
                  mixed_dataset "f"%string)).
  vm_compute. reflexivity.
Defined.

(* ------------------------------------------------------------------ *)
(** ** The default topology of a location query *)

Lemma resolve_default (domain : Node) (name : string) (n_topo : Node)
      (rest : list (string * Node)) :
  fetch domain ["topologies"%string] = Ok (Object ((name, n_topo) :: rest)) ->
  String.eqb name "" = false ->
  resolve_topology domain "" = resolve_topology domain name.
Proof.
  intros Htopos Hname. unfold resolve_topology.
  change ("" =? "")%string with true. cbv iota.
  rewrite Htopos, Hname. reflexivity.
Qed.

(** With an empty topology name, [vert_location] and [element_location] use
    the first topology of the domain: they return what they return for its
    name. *)
Theorem location_default_topology (domain : Node) (index : Z) (name : string)
        (n_topo : Node) (rest : list (string * Node)) :
  fetch domain ["topologies"%string] = Ok (Object ((name, n_topo) :: rest)) ->
  String.eqb name "" = false ->
  vert_location domain index "" = vert_location domain index name
  /\ element_location domain index "" = element_location domain index name.
Proof.
  intros Htopos Hname.
  unfold vert_location, element_location.
  now rewrite (resolve_default _ _ _ _ Htopos Hname).
Qed.

Lemma location_default_topology_witness :
  vert_location two_tri_domain 3 "" = vert_location two_tri_domain 3 "mesh"
  /\ element_location two_tri_domain 3 ""
     = element_location two_tri_domain 3 "mesh".
Proof.
  exact (location_default_topology two_tri_domain 3 "mesh"%string
           two_tri_topo [] eq_refl eq_refl).
Defined.
